(** * viva-daemon: the sample pipeline of [viva.py] and [vivad.py]

    A shallow embedding of the ViVa scraper: the (type, unit) lookup table
    and [create_sample], the two fetch loops over a parsed SOAP response,
    the SQLite store behind [store_samples], the callback runner and the
    sync and poll loops of the daemon.  Effects (the clock, the network,
    the database driver, the callback process) are read from an explicit
    world, and every computation returns the events it emitted. *)

From Stdlib Require Import ZArith NArith QArith List String Ascii Bool Lia.
Import ListNotations.

Local Open Scope Z_scope.

(** ** Python values used by the code *)

(** A [unicode] object is a sequence of code points. *)
Definition unicode := list N.

Definition unicode_eqb (a b : unicode) : bool :=
  if list_eq_dec N.eq_dec a b then true else false.

(** Decoding of a UTF-8 source literal (this file, like the Python
    sources, is UTF-8): one-, two- and three-byte sequences. *)
Fixpoint decode_utf8 (fuel : nat) (bs : list N) : unicode :=
  match fuel with
  | O => []
  | S fuel' =>
    match bs with
    | [] => []
    | b0 :: r0 =>
      if (b0 <? 128)%N then b0 :: decode_utf8 fuel' r0
      else if (b0 <? 224)%N then
        match r0 with
        | b1 :: r1 =>
          ((b0 - 192) * 64 + (b1 - 128))%N :: decode_utf8 fuel' r1
        | [] => []
        end
      else
        match r0 with
        | b1 :: b2 :: r2 =>
          ((b0 - 224) * 4096 + (b1 - 128) * 64 + (b2 - 128))%N
            :: decode_utf8 fuel' r2
        | _ => []
        end
    end
  end.

Definition u (s : string) : unicode :=
  let bs := List.map N_of_ascii (list_ascii_of_string s) in
  decode_utf8 (List.length bs) bs.

(** ** The [datetime] and [calendar] library functions the code calls

    [datetime.strptime], [datetime.replace], [datetime.utctimetuple] and
    [calendar.timegm] are standard-library code; they are transcribed here
    with the names of the library's helpers. *)

Module PyDatetime.

Definition MINYEAR : Z := 1.
Definition MAXYEAR : Z := 9999.

Definition is_leap (y : Z) : bool :=
  (y mod 4 =? 0) && (negb (y mod 100 =? 0) || (y mod 400 =? 0)).

Definition _days_in_month : list Z :=
  [0; 31; 28; 31; 30; 31; 30; 31; 31; 30; 31; 30; 31].

Definition _days_before_month : list Z :=
  [0; 0; 31; 59; 90; 120; 151; 181; 212; 243; 273; 304; 334].

Definition days_in_month (y m : Z) : Z :=
  if (m =? 2) && is_leap y then 29
  else nth (Z.to_nat m) _days_in_month 0.

Definition days_before_month (y m : Z) : Z :=
  let days := nth (Z.to_nat m) _days_before_month 0 in
  if (2 <? m) && is_leap y then days + 1 else days.

Definition days_before_year (y : Z) : Z :=
  let y' := y - 1 in
  y' * 365 + y' / 4 - y' / 100 + y' / 400.

Definition ymd_to_ord (y m d : Z) : Z :=
  days_before_year y + days_before_month y m + d.

Definition DI4Y : Z := 1461.
Definition DI100Y : Z := 36524.
Definition DI400Y : Z := 146097.
Definition MAXORDINAL : Z := 3652059.

Definition ord_to_ymd (ordinal : Z) : Z * Z * Z :=
  let ordinal := ordinal - 1 in
  let n400 := ordinal / DI400Y in
  let n := ordinal mod DI400Y in
  let n100 := n / DI100Y in
  let n := n mod DI100Y in
  let n4 := n / DI4Y in
  let n := n mod DI4Y in
  let n1 := n / 365 in
  let n := n mod 365 in
  let year := n400 * 400 + 1 + n100 * 100 + n4 * 4 + n1 in
  if (n1 =? 4) || (n100 =? 4) then (year - 1, 12, 31)
  else
    let leapyear := (n1 =? 3) && (negb (n4 =? 24) || (n100 =? 3)) in
    let month := Z.shiftr (n + 50) 5 in
    let preceding :=
      nth (Z.to_nat month) _days_before_month 0
      + (if (2 <? month) && leapyear then 1 else 0) in
    if n <? preceding then
      let month := month - 1 in
      let preceding := preceding - days_in_month year month in
      (year, month, n - preceding + 1)
    else (year, month, n - preceding + 1).

(** A [tzinfo] object, as far as [utcoffset] is concerned: the offset it
    reports, in minutes east of UTC. *)
Record tzinfo : Type := mk_tzinfo {
  tz_zone : string;
  tz_utcoffset : Z
}.

Record datetime : Type := mk_datetime {
  year : Z;
  month : Z;
  day : Z;
  hour : Z;
  minute : Z;
  second : Z;
  dt_tzinfo : option tzinfo
}.

(** The checks of the [datetime] constructor. *)
Definition check_date_args (y m d : Z) : bool :=
  (MINYEAR <=? y) && (y <=? MAXYEAR) &&
  (1 <=? m) && (m <=? 12) &&
  (1 <=? d) && (d <=? days_in_month y m).

Definition check_time_args (h mi s : Z) : bool :=
  (0 <=? h) && (h <=? 23) && (0 <=? mi) && (mi <=? 59) &&
  (0 <=? s) && (s <=? 59).

Definition valid_datetime (dt : datetime) : bool :=
  check_date_args (year dt) (month dt) (day dt) &&
  check_time_args (hour dt) (minute dt) (second dt).

(** [dt.replace(tzinfo=tz)] *)
Definition replace_tzinfo (dt : datetime) (tz : tzinfo) : datetime :=
  mk_datetime (year dt) (month dt) (day dt)
              (hour dt) (minute dt) (second dt) (Some tz).

(** The first six fields of a [time.struct_time]. *)
Record struct_time : Type := mk_struct_time {
  tm_year : Z; tm_mon : Z; tm_mday : Z;
  tm_hour : Z; tm_min : Z; tm_sec : Z
}.

(** [normalize_pair(hi, lo, factor)]: carry [lo] into [hi]. *)
Definition normalize_pair (hi lo factor : Z) : Z * Z :=
  if (lo <? 0) || (factor <=? lo)
  then (hi + lo / factor, lo mod factor)
  else (hi, lo).

Definition normalize_y_m_d (y m d : Z) : Z * Z * Z :=
  let '(y, m) :=
    if (m <? 1) || (12 <? m)
    then let '(y, m0) := normalize_pair y (m - 1) 12 in (y, m0 + 1)
    else (y, m) in
  let dim := days_in_month y m in
  if (d <? 1) || (dim <? d) then
    if d =? 0 then
      let m := m - 1 in
      if 0 <? m then (y, m, days_in_month y m)
      else (y - 1, 12, 31)
    else if d =? dim + 1 then
      let m := m + 1 in
      if 12 <? m then (y + 1, 1, 1) else (y, m, 1)
    else
      let ordinal := ymd_to_ord y m 1 + d - 1 in
      if (ordinal <? 1) || (MAXORDINAL <? ordinal) then (y, m, d)
      else ord_to_ymd ordinal
  else (y, m, d).

Definition normalize_datetime (y m d hh mm ss : Z) : struct_time :=
  let '(mm, ss) := normalize_pair mm ss 60 in
  let '(hh, mm) := normalize_pair hh mm 60 in
  let '(d, hh) := normalize_pair d hh 24 in
  let '(y, m, d) := normalize_y_m_d y m d in
  mk_struct_time y m d hh mm ss.

(** [dt.utctimetuple()]: the fields, moved back by the UTC offset of the
    attached [tzinfo] when there is one. *)
Definition utctimetuple (dt : datetime) : struct_time :=
  let offset :=
    match dt_tzinfo dt with
    | Some tz => tz_utcoffset tz
    | None => 0
    end in
  if offset =? 0
  then mk_struct_time (year dt) (month dt) (day dt)
                      (hour dt) (minute dt) (second dt)
  else normalize_datetime (year dt) (month dt) (day dt)
                          (hour dt) (minute dt - offset) (second dt).

Definition _EPOCH_ORD : Z := Eval cbv in ymd_to_ord 1970 1 1.

(** [calendar.timegm(t)]; [None] when [datetime.date(year, month, 1)]
    raises [ValueError]. *)
Definition timegm (t : struct_time) : option Z :=
  if check_date_args (tm_year t) (tm_mon t) 1 then
    let days := ymd_to_ord (tm_year t) (tm_mon t) 1 - _EPOCH_ORD
                + tm_mday t - 1 in
    let hours := days * 24 + tm_hour t in
    let minutes := hours * 60 + tm_min t in
    Some (minutes * 60 + tm_sec t)
  else None.

(** [datetime.strptime(s, '%Y-%m-%dT%H:%M:%S')].  The format compiles to
    the regular expression
    [(\d\d\d\d)-(1[0-2]|0[1-9]|[1-9])-(3[0-1]|[1-2]\d|0[1-9]|[1-9]| [1-9])T
     (2[0-3]|[0-1]\d|\d):([0-5]\d|\d):(6[0-1]|[0-5]\d|\d)], matched
    ignoring case from the start of the string; alternatives are tried in
    order, with backtracking, so every field yields its candidates in order
    of priority and the first complete match wins. *)
Definition dig (lo hi : N) (c : N) : bool :=
  ((48 + lo <=? c) && (c <=? 48 + hi))%N.

Definition digit_val (c : N) : Z := Z.of_N c - 48.

Definition alt1 (p0 : N -> bool) (s : unicode) : list (Z * unicode) :=
  match s with
  | c0 :: r => if p0 c0 then [(digit_val c0, r)] else []
  | [] => []
  end.

Definition alt2 (p0 p1 : N -> bool) (s : unicode) : list (Z * unicode) :=
  match s with
  | c0 :: c1 :: r =>
    if p0 c0 && p1 c1 then [(digit_val c0 * 10 + digit_val c1, r)] else []
  | _ => []
  end.

Definition re_Y (s : unicode) : list (Z * unicode) :=
  match s with
  | c0 :: c1 :: c2 :: c3 :: r =>
    if dig 0 9 c0 && dig 0 9 c1 && dig 0 9 c2 && dig 0 9 c3
    then [(((digit_val c0 * 10 + digit_val c1) * 10 + digit_val c2) * 10
           + digit_val c3, r)]
    else []
  | _ => []
  end.

Definition re_m (s : unicode) : list (Z * unicode) :=
  alt2 (dig 1 1) (dig 0 2) s ++ alt2 (dig 0 0) (dig 1 9) s
  ++ alt1 (dig 1 9) s.

Definition re_d (s : unicode) : list (Z * unicode) :=
  alt2 (dig 3 3) (dig 0 1) s ++ alt2 (dig 1 2) (dig 0 9) s
  ++ alt2 (dig 0 0) (dig 1 9) s ++ alt1 (dig 1 9) s
  ++ match s with
     | c0 :: c1 :: r =>
       if (c0 =? 32)%N && dig 1 9 c1 then [(digit_val c1, r)] else []
     | _ => []
     end.

Definition re_H (s : unicode) : list (Z * unicode) :=
  alt2 (dig 2 2) (dig 0 3) s ++ alt2 (dig 0 1) (dig 0 9) s
  ++ alt1 (dig 0 9) s.

Definition re_M (s : unicode) : list (Z * unicode) :=
  alt2 (dig 0 5) (dig 0 9) s ++ alt1 (dig 0 9) s.

Definition re_S (s : unicode) : list (Z * unicode) :=
  alt2 (dig 6 6) (dig 0 1) s ++ alt2 (dig 0 5) (dig 0 9) s
  ++ alt1 (dig 0 9) s.

(** A literal character of the format, in either case. *)
Definition re_lit (cs : list N) (s : unicode) : list unicode :=
  match s with
  | c :: r => if existsb (N.eqb c) cs then [r] else []
  | [] => []
  end.

Definition strptime_matches (s : unicode)
  : list (Z * Z * Z * Z * Z * Z * unicode) :=
  flat_map (fun '(vY, s) =>
  flat_map (fun s =>
  flat_map (fun '(vm, s) =>
  flat_map (fun s =>
  flat_map (fun '(vd, s) =>
  flat_map (fun s =>
  flat_map (fun '(vH, s) =>
  flat_map (fun s =>
  flat_map (fun '(vM, s) =>
  flat_map (fun s =>
  List.map (fun '(vS, s) => (vY, vm, vd, vH, vM, vS, s)) (re_S s))
  (re_lit [58%N] s)) (re_M s))
  (re_lit [58%N] s)) (re_H s))
  (re_lit [84%N; 116%N] s)) (re_d s))
  (re_lit [45%N] s)) (re_m s))
  (re_lit [45%N] s)) (re_Y s).

(** [None] stands for the [ValueError] of a string that does not match,
    leaves unconverted data, or names no date and time of day. *)
Definition strptime (s : unicode) : option datetime :=
  match strptime_matches s with
  | (vY, vm, vd, vH, vM, vS, rest) :: _ =>
    match rest with
    | [] =>
      let dt := mk_datetime vY vm vd vH vM vS None in
      if valid_datetime dt then Some dt else None
    | _ :: _ => None
    end
  | [] => None
  end.

End PyDatetime.

(** * viva.py: data *)

Import PyDatetime.

(** [SAMPLE_LUT]: the dict display, entry by entry, in source order. *)
Definition SAMPLE_LUT_items : list ((unicode * unicode) * string) :=
  Eval cbv in
  [ ((u "MEDELVIND",        u "m/s"),  "AVG_WIND"%string);
    ((u "BYVIND",           u "m/s"),  "GUST_WIND"%string);
    ((u "RIKTNING",         u "°"),    "WIND_DIRECTION"%string);
    ((u "VATTENTEMPERATUR", u "°"),    "WATER_TEMP"%string);
    ((u "SIKT",             u "m"),    "VISIBILITY"%string);
    ((u "LUFTTEMPERATUR",   u "°"),    "AIR_TEMP"%string);
    ((u "LUFTFUKTIGHET",    u "%"),    "AIR_HUMIDITY"%string);
    ((u "LUFTTRYCK",        u "mbar"), "AIR_PRESSURE"%string);
    ((u "VATTENSTÅND",      u "cm"),   "WATER_LEVEL"%string);
    ((u "STRÖM 2M",         u "°"),    "WATER_CURRENT_2M_DIR"%string);
    ((u "STRÖM 2M",         u "knop"), "WATER_CURRENT_2M_SPEED"%string);
    ((u "STRÖM 4M",         u "°"),    "WATER_CURRENT_4M_DIR"%string);
    ((u "STRÖM 4M",         u "knop"), "WATER_CURRENT_4M_SPEED"%string);
    ((u "STRÖM 6M",         u "°"),    "WATER_CURRENT_6M_DIR"%string);
    ((u "STRÖM 6M",         u "knop"), "WATER_CURRENT_6M_SPEED"%string);
    ((u "STRÖM YTA",        u "°"),    "WATER_CURRENT_SURFACE_DIR"%string);
    ((u "STRÖM YTA",        u "knop"), "WATER_CURRENT_SURFACE_SPEED"%string) ].

(** A key the code looks up: the type name and the unit, which is [None]
    when the element has no [Enhet] attribute. *)
Definition lut_key : Type := unicode * option unicode.

Definition key_eqb (k' : unicode * unicode) (k : lut_key) : bool :=
  match snd k with
  | Some un => unicode_eqb (fst k') (fst k) && unicode_eqb (snd k') un
  | None => false
  end.

(** Lookup in the dict built from a display: of two items with one key
    the later one is kept. *)
Fixpoint dict_get {V : Type} (items : list ((unicode * unicode) * V))
         (k : lut_key) : option V :=
  match items with
  | [] => None
  | (k', v) :: rest =>
    match dict_get rest k with
    | Some v' => Some v'
    | None => if key_eqb k' k then Some v else None
    end
  end.

Definition SAMPLE_LUT (k : lut_key) : option string :=
  dict_get SAMPLE_LUT_items k.

(** The values of the table: the canonical sample types. *)
Definition canonical_types : list string :=
  Eval cbv in List.map snd SAMPLE_LUT_items.

Record Sample : Type := mk_Sample {
  station_id : Z;
  station_name : option unicode;
  stype : string;
  svalue : option unicode;
  ststamp : datetime
}.

(** What [create_sample] returns: a [Sample], or [False]. *)
Inductive create_result : Type :=
| CSample (sample : Sample)
| CFalse.

(** * Effects *)

(** Exception classes the calls of the program raise. *)
Inductive exn : Type :=
| URLError | XMLSyntaxError
| AttributeError | TypeError | ValueError
| sqlite3_Error | OSError
| KeyboardInterrupt.

(** [isinstance(x, Exception)]: [KeyboardInterrupt] derives from
    [BaseException] only. *)
Definition is_Exception (x : exn) : bool :=
  match x with
  | KeyboardInterrupt => false
  | _ => true
  end.

(** A row of [vivad_samples], the columns in the order of the table. *)
Record row : Type := mk_row {
  r_station_id : Z;
  r_station_name : option unicode;
  r_store_tstamp : Z;
  r_sample_tstamp : Z;
  r_sample_type : string;
  r_sample_value : option unicode
}.

Inductive level : Type := DEBUG | INFO | ERROR.

(** The messages of the program, by their format string. *)
Inductive msg : Type :=
| MsgTree
| MsgSample (sample : Sample)
| MsgIgnored (stype : unicode) (sunit : option unicode)
| MsgFound (n : nat) (hist_type station_id : Z)
| MsgErrorFor (station_id : Z) (text : option unicode)
| MsgNoLocationName (station_id : Z)
| MsgNoSamplesFound (station_name : option unicode) (station_id : Z)
| MsgRetrieved (n : nat) (station_name : option unicode) (station_id : Z)
| MsgInsert (sample : Sample)
| MsgFailedToInsert (sample : Sample)
| MsgCallbackFailedCode (callback : unicode) (retcode : Z)
| MsgCallbackFailedExn (callback : unicode) (x : exn)
| MsgTookTooLong
| MsgSleeping (seconds : Q)
| MsgSyncing (stations : list Z)
| MsgMonitoring (stations : list Z).

(** What a run does that can be observed, in order. *)
Inductive event : Type :=
| Log (lv : level) (m : msg)
| Print (m : msg)
| UrlOpen (soapaction : string) (station_id : Z)
| Execute (parameters : row)
| Commit
| Rollback
| SubprocessCall (args : list unicode)
| TimeSleep (seconds : Q)
| Unlink
| DbClose.

(** An lxml element: its attributes.  [elem_get e name] is
    [e.get(name)]. *)
Definition element : Type := list (string * unicode).

Fixpoint elem_get (e : element) (name : string) : option unicode :=
  match e with
  | [] => None
  | (n, v) :: rest => if String.eqb n name then Some v else elem_get rest name
  end.

(** The parsed response to [GetViVaDataT], by what the three XPath
    queries of [fetch_station_latest] select in it: the [.text] of the
    [Felmeddelande] elements, the [.text] of the [PlatsNamn] elements and
    the [ViVaDataT] elements. *)
Record latest_tree : Type := mk_latest_tree {
  xp_errormsg : list (option unicode);
  xp_name : list (option unicode);
  xp_samples : list element
}.

(** The parsed response to [GetViVaDataTH]: its [ViVaPoint] elements. *)
Definition history_tree : Type := list element.

Inductive http_outcome (T : Type) : Type :=
| Parsed (tree : T)
| HttpRaises (x : exn).
Arguments Parsed {T} tree.
Arguments HttpRaises {T} x.

(** [cursor.execute]: sqlite3 returns the cursor, which is true, or
    raises; a false result never comes from sqlite3 and is here because the
    code tests for one. *)
Inductive execute_outcome : Type :=
| ReturnsCursor
| ReturnsFalse
| ExecuteRaises (x : exn).

Inductive call_outcome : Type :=
| Exits (retcode : Z)
| CallRaises (x : exn).

(** The world outside the process.  Every call that reaches outside reads
    the world at the current tick and advances the tick.
    [pytz_timezone name] is the zone object that the installed pytz
    returns for [pytz.timezone(name)], with the offset it answers when it
    is attached by [replace(tzinfo=...)]: the first standard-time entry of
    the zone in that version's data. *)
Record world : Type := mk_world {
  time_time : nat -> Q;
  utcnow : nat -> Z;
  get_latest : nat -> Z -> http_outcome latest_tree;
  get_history : nat -> Z -> http_outcome history_tree;
  cursor_execute : nat -> row -> execute_outcome;
  subprocess_call : nat -> list unicode -> call_outcome;
  sleep_interrupted : nat -> bool;
  pytz_timezone : string -> tzinfo
}.

(** The SQLite connection: the rows committed to the file and the rows
    inserted by the open transaction. *)
Record connection : Type := mk_connection {
  committed : list row;
  pending : list row
}.

Record state : Type := mk_state {
  db : connection;
  tick : nat
}.

Inductive result (A : Type) : Type :=
| Ret (a : A)
| Raise (x : exn).
Arguments Ret {A} a.
Arguments Raise {A} x.

(** A computation: the result, the state after it, the events emitted. *)
Definition M (A : Type) : Type := state -> result A * state * list event.

Definition ret {A : Type} (a : A) : M A := fun st => (Ret a, st, []).

Definition raise {A : Type} (x : exn) : M A := fun st => (Raise x, st, []).

Definition bind {A B : Type} (m : M A) (k : A -> M B) : M B :=
  fun st =>
    match m st with
    | (Ret a, st1, t1) =>
      match k a st1 with
      | (r, st2, t2) => (r, st2, t1 ++ t2)
      end
    | (Raise x, st1, t1) => (Raise x, st1, t1)
    end.

Declare Scope py_scope.
Delimit Scope py_scope with py.
Notation "x <- m ;; k" := (bind m (fun x => k))
  (at level 61, m at next level, right associativity) : py_scope.
Notation "m ;; k" := (bind m (fun _ => k))
  (at level 61, right associativity) : py_scope.
Local Open Scope py_scope.

Definition emit (e : event) : M unit := fun st => (Ret tt, st, [e]).

Definition emit_all (es : list event) : M unit := fun st => (Ret tt, st, es).

(** [try: m  except <handled>: h] *)
Definition try_except {A : Type} (m : M A) (handled : exn -> bool)
           (h : exn -> M A) : M A :=
  fun st =>
    match m st with
    | (Ret a, st1, t1) => (Ret a, st1, t1)
    | (Raise x, st1, t1) =>
      if handled x then
        match h x st1 with
        | (r, st2, t2) => (r, st2, t1 ++ t2)
        end
      else (Raise x, st1, t1)
    end.

(** [for x in l: body] *)
Fixpoint for_each {A : Type} (l : list A) (body : A -> M unit) : M unit :=
  match l with
  | [] => ret tt
  | x :: rest => body x ;; for_each rest body
  end.

Definition advance (st : state) : state := mk_state (db st) (S (tick st)).

Definition result_of {A : Type} (o : result A * state * list event)
  : result A := fst (fst o).
Definition state_of {A : Type} (o : result A * state * list event)
  : state := snd (fst o).
Definition events_of {A : Type} (o : result A * state * list event)
  : list event := snd o.

(** * viva.py: functions *)

(** [create_sample].  It touches nothing but the log, so it is a function
    to its return value and the records it logs. *)
Definition create_sample (station_id : Z) (station_name : option unicode)
           (sunit : option unicode) (stype : unicode)
           (svalue : option unicode) (ststamp : datetime)
  : create_result * list event :=
  match SAMPLE_LUT (stype, sunit) with
  | Some stype' =>
    let sample := mk_Sample station_id station_name stype' svalue ststamp in
    (CSample sample, [Log DEBUG (MsgSample sample)])
  | None => (CFalse, [Log DEBUG (MsgIgnored stype sunit)])
  end.

(** What a fetch returns: [False], or the list of samples. *)
Inductive fetch_result : Type :=
| FFalse
| FSamples (samples : list Sample).

Section Program.

(** [unicode.upper] maps every code point through the interpreter's
    Unicode table of simple upper-case mappings. *)
Variable toupper : N -> N.

Variable W : world.

(** [TZ_CET = pytz.timezone('CET')]: the zone object of the installed
    pytz.  The code attaches it with [replace(tzinfo=TZ_CET)], and a pytz
    zone attached that way (not through [localize]) answers [utcoffset]
    with the one offset the object was built with, at every date. *)
Definition TZ_CET : tzinfo := pytz_timezone W "CET".

Definition upper (s : unicode) : unicode := List.map toupper s.

(** [urllib2.urlopen(request)] followed by [etree.parse(stream)]. *)
Definition request_latest (station_id : Z) : M latest_tree :=
  fun st =>
    match get_latest W (tick st) station_id with
    | Parsed tree =>
      (Ret tree, advance st, [UrlOpen "GetViVaDataT" station_id])
    | HttpRaises x =>
      (Raise x, advance st, [UrlOpen "GetViVaDataT" station_id])
    end.

Definition request_history (station_id : Z) : M history_tree :=
  fun st =>
    match get_history W (tick st) station_id with
    | Parsed tree =>
      (Ret tree, advance st, [UrlOpen "GetViVaDataTH" station_id])
    | HttpRaises x =>
      (Raise x, advance st, [UrlOpen "GetViVaDataTH" station_id])
    end.

(** [element.get(name).upper()]: [None] has no [upper]. *)
Definition get_upper (e : element) (name : string) : M unicode :=
  match elem_get e name with
  | Some v => ret (upper v)
  | None => raise AttributeError
  end.

(** [datetime.strptime(element.get("Tid"), VIVA_DATEFORMAT)] *)
Definition get_tid (e : element) : M datetime :=
  match elem_get e "Tid" with
  | Some v =>
    match strptime v with
    | Some dt => ret dt
    | None => raise ValueError
    end
  | None => raise TypeError
  end.

(** The body of the [for element in elements] loop of
    [fetch_station_history], with the list built so far. *)
Fixpoint history_loop (station_id : Z) (elements : list element)
         (samples : list Sample) : M (list Sample) :=
  match elements with
  | [] => ret samples
  | element :: rest =>
    let station_name := elem_get element "Namn" in
    sample_type <- get_upper element "TypNamn" ;;
    let sample_unit := elem_get element "Enhet" in
    let sample_value := elem_get element "Data" in
    sample_tstamp <- get_tid element ;;
    let sample_tstamp := replace_tzinfo sample_tstamp TZ_CET in
    let '(sample, logged) :=
      create_sample station_id station_name sample_unit
                    sample_type sample_value sample_tstamp in
    emit_all logged ;;
    match sample with
    | CSample sample => history_loop station_id rest (samples ++ [sample])
    | CFalse => history_loop station_id rest samples
    end
  end.

(** [fetch_station_history(station_id, time_from, time_until)] with the
    default [hist_type] 0.  The two dates only go into the text of the
    request; what comes back is up to the service. *)
Definition fetch_station_history (station_id : Z) : M (list Sample) :=
  tree <- request_history station_id ;;
  emit (Log DEBUG MsgTree) ;;
  samples <- history_loop station_id tree [] ;;
  emit (Log INFO (MsgFound (List.length samples) 0 station_id)) ;;
  ret samples.

Fixpoint latest_loop (station_id : Z) (station_name : option unicode)
         (elements : list element) (samples : list Sample)
  : M (list Sample) :=
  match elements with
  | [] => ret samples
  | element :: rest =>
    sample_type <- get_upper element "Typ" ;;
    let sample_value := elem_get element "Varde" in
    let sample_unit := elem_get element "Enhet" in
    sample_tstamp <- get_tid element ;;
    let sample_tstamp := replace_tzinfo sample_tstamp TZ_CET in
    let '(sample, logged) :=
      create_sample station_id station_name sample_unit
                    sample_type sample_value sample_tstamp in
    emit_all logged ;;
    match sample with
    | CSample sample =>
      latest_loop station_id station_name rest (samples ++ [sample])
    | CFalse => latest_loop station_id station_name rest samples
    end
  end.

Definition fetch_station_latest (station_id : Z) : M fetch_result :=
  tree <- request_latest station_id ;;
  emit (Log DEBUG MsgTree) ;;
  match xp_errormsg tree with
  | text :: _ =>
    emit (Log ERROR (MsgErrorFor station_id text)) ;;
    ret FFalse
  | [] =>
    match xp_name tree with
    | [] =>
      emit (Log ERROR (MsgNoLocationName station_id)) ;;
      ret FFalse
    | station_name :: _ =>
      match xp_samples tree with
      | [] =>
        emit (Log ERROR (MsgNoSamplesFound station_name station_id)) ;;
        ret FFalse
      | elements =>
        emit (Log INFO (MsgRetrieved (List.length elements)
                                     station_name station_id)) ;;
        samples <- latest_loop station_id station_name elements [] ;;
        ret (FSamples samples)
      end
    end
  end.

(** * vivad.py *)

(** The table is created with
    [UNIQUE (station_id, sample_tstamp, sample_type) ON CONFLICT IGNORE]. *)
Definition same_key (a b : row) : bool :=
  (r_station_id a =? r_station_id b)
  && (r_sample_tstamp a =? r_sample_tstamp b)
  && String.eqb (r_sample_type a) (r_sample_type b).

(** The rows the connection sees. *)
Definition rows (c : connection) : list row := committed c ++ pending c.

(** An INSERT that conflicts with a row of the table is ignored. *)
Definition insert_or_ignore (r : row) (c : connection) : connection :=
  if existsb (same_key r) (rows c) then c
  else mk_connection (committed c) (pending c ++ [r]).

Definition db_commit : M unit :=
  fun st =>
    (Ret tt,
     mk_state (mk_connection (rows (db st)) []) (tick st),
     [Commit]).

Definition db_rollback : M unit :=
  fun st =>
    (Ret tt,
     mk_state (mk_connection (committed (db st)) []) (tick st),
     [Rollback]).

(** [create_database_tables]: CREATE TABLE IF NOT EXISTS, then commit. *)
Definition create_database_tables : M unit := db_commit.

(** [timegm(datetime.utcnow().utctimetuple())] *)
Definition now_timegm : M Z :=
  fun st => (Ret (utcnow W (tick st)), advance st, []).

(** [timegm(sample.ststamp.utctimetuple())] *)
Definition sample_timegm (sample : Sample) : M Z :=
  match timegm (utctimetuple (ststamp sample)) with
  | Some seconds => ret seconds
  | None => raise ValueError
  end.

(** [cursor.execute(query, parameters)], as a truth value. *)
Definition execute_insert (parameters : row) : M bool :=
  fun st =>
    match cursor_execute W (tick st) parameters with
    | ReturnsCursor =>
      (Ret true,
       mk_state (insert_or_ignore parameters (db st)) (S (tick st)),
       [Execute parameters])
    | ReturnsFalse => (Ret false, advance st, [Execute parameters])
    | ExecuteRaises x => (Raise x, advance st, [Execute parameters])
    end.

Definition store_single_sample (sample : Sample) : M bool :=
  emit (Log DEBUG (MsgInsert sample)) ;;
  now <- now_timegm ;;
  tstamp <- sample_timegm sample ;;
  let parameters :=
    mk_row (station_id sample) (station_name sample) now tstamp
           (stype sample) (svalue sample) in
  success <- execute_insert parameters ;;
  (if success then ret tt else emit (Print (MsgFailedToInsert sample))) ;;
  ret success.

Fixpoint store_samples (samples : list Sample) : M bool :=
  match samples with
  | [] => db_commit ;; ret true
  | sample :: rest =>
    success <- store_single_sample sample ;;
    if success then store_samples rest
    else db_rollback ;; ret false
  end.

Definition call (args : list unicode) : M Z :=
  fun st =>
    match subprocess_call W (tick st) args with
    | Exits retcode => (Ret retcode, advance st, [SubprocessCall args])
    | CallRaises x => (Raise x, advance st, [SubprocessCall args])
    end.

Definition run_callback (callback : option unicode)
           (instance : option unicode) : M unit :=
  match callback with
  | Some cb =>
    let args := [cb] ++ match instance with
                        | Some i => [i]
                        | None => []
                        end in
    try_except
      (retcode <- call args ;;
       if retcode =? 0 then ret tt
       else emit (Print (MsgCallbackFailedCode cb retcode)))
      is_Exception
      (fun x => emit (Print (MsgCallbackFailedExn cb x)))
  | None => ret tt
  end.

(** The two nested [if]s both loops apply to what a fetch returned:
    [if samples: if store_samples(db, samples): run_callback(...)]. *)
Definition store_and_notify (callback : option unicode)
           (samples : fetch_result) : M unit :=
  match samples with
  | FSamples (first :: others) =>
    stored <- store_samples (first :: others) ;;
    if stored then run_callback callback (station_name first) else ret tt
  | FSamples [] => ret tt
  | FFalse => ret tt
  end.

(** The sync branch of the main program. *)
Definition sync_stations (callback : option unicode) (stations : list Z)
  : M unit :=
  for_each stations (fun station_id =>
    samples <- fetch_station_history station_id ;;
    store_and_notify callback (FSamples samples)).

Definition sync_mode (callback : option unicode) (stations : list Z)
  : M unit :=
  emit (Log INFO (MsgSyncing stations)) ;;
  sync_stations callback stations ;;
  emit DbClose.

(** The poll branch. *)
Definition poll_stations (callback : option unicode) (stations : list Z)
  : M unit :=
  for_each stations (fun station_id =>
    samples <- fetch_station_latest station_id ;;
    store_and_notify callback samples).

Definition read_time : M Q :=
  fun st => (Ret (time_time W (tick st)), advance st, []).

Definition sleep (seconds : Q) : M unit :=
  fun st =>
    if sleep_interrupted W (tick st)
    then (Raise KeyboardInterrupt, advance st, [TimeSleep seconds])
    else (Ret tt, advance st, [TimeSleep seconds]).

(** What follows the [for] loop in one pass of [while True]. *)
Definition end_of_round (pollrate : Z) (t0 t1 : Q) : M unit :=
  let time_elapsed := (t1 - t0)%Q in
  if Qlt_le_dec (inject_Z pollrate) time_elapsed
  then emit (Print MsgTookTooLong)
  else
    emit (Log INFO (MsgSleeping (inject_Z pollrate - time_elapsed)%Q)) ;;
    sleep (inject_Z pollrate - time_elapsed)%Q.

(** One pass of the body of [while True]. *)
Definition poll_round (callback : option unicode) (pollrate : Z)
           (stations : list Z) : M unit :=
  t0 <- read_time ;;
  poll_stations callback stations ;;
  t1 <- read_time ;;
  end_of_round pollrate t0 t1.

(** [while True], cut after [rounds] passes. *)
Fixpoint poll_rounds (rounds : nat) (callback : option unicode)
         (pollrate : Z) (stations : list Z) : M unit :=
  match rounds with
  | O => ret tt
  | S rounds' =>
    poll_round callback pollrate stations ;;
    poll_rounds rounds' callback pollrate stations
  end.

Definition is_KeyboardInterrupt (x : exn) : bool :=
  match x with
  | KeyboardInterrupt => true
  | _ => false
  end.

Definition poll_mode (rounds : nat) (callback : option unicode)
           (pollrate : Z) (stations : list Z) : M unit :=
  emit (Log INFO (MsgMonitoring stations)) ;;
  try_except (poll_rounds rounds callback pollrate stations)
             is_KeyboardInterrupt
             (fun _ => emit Unlink) ;;
  emit DbClose.

End Program.

(** * Predicates of the properties *)

(** Every sample of the list has one of the types of the table. *)
Definition all_canonical (samples : list Sample) : Prop :=
  Forall (fun sample => In (stype sample) canonical_types) samples.






(** The table holds a row with the key that an INSERT for [sample] would
    carry, whatever the time of the INSERT. *)
Definition key_present (sample : Sample) (c : connection) : Prop :=
  forall now seconds,
    timegm (utctimetuple (ststamp sample)) = Some seconds ->
    existsb (same_key (mk_row (station_id sample) (station_name sample)
                              now seconds (stype sample) (svalue sample)))
            (rows c) = true.

(** The argument lists of the [subprocess.call]s among the events. *)
Fixpoint calls_of (t : list event) : list (list unicode) :=
  match t with
  | [] => []
  | SubprocessCall args :: rest => args :: calls_of rest
  | _ :: rest => calls_of rest
  end.

(** Some event is a record logged at level ERROR. *)
Definition logs_error (t : list event) : bool :=
  existsb (fun e => match e with
                    | Log ERROR _ => true
                    | _ => false
                    end) t.

(** [args] as [run_callback] builds it. *)
Definition callback_args (cb : unicode) (instance : option unicode)
  : list unicode :=
  [cb] ++ match instance with
          | Some i => [i]
          | None => []
          end.

(** ** A concrete world

    Station 33 answers with three measurements, one of a type that is not
    in the table; station 34 answers with an error message; any other
    station cannot be reached.  Every INSERT succeeds and the callback
    exits with 0. *)

(** Upper-casing of the code points below 256, as in the Unicode table. *)
Definition latin1_toupper (c : N) : N :=
  if ((97 <=? c) && (c <=? 122))%N then (c - 32)%N
  else if ((224 <=? c) && (c <=? 254) && negb (c =? 247))%N then (c - 32)%N
  else if (c =? 255)%N then 376%N
  else if (c =? 181)%N then 924%N
  else c.

Definition vinga_measurement (typ varde enhet tid : string) : element :=
  [ ("Typ"%string, u typ); ("Varde"%string, u varde);
    ("Enhet"%string, u enhet); ("Tid"%string, u tid) ].

Definition vinga_latest : latest_tree :=
  mk_latest_tree [] [Some (u "Vinga")]
    [ vinga_measurement "Medelvind" "5.2" "m/s" "2014-05-01T10:00:00";
      vinga_measurement "Byvind" "7.9" "m/s" "2014-05-01T10:00:00";
      vinga_measurement "Daggpunkt" "3.1" "°" "2014-05-01T09:50:00" ].

Definition failed_latest : latest_tree :=
  mk_latest_tree [Some (u "Ingen data")] [] [].

Definition vinga_point (typnamn data enhet tid : string) : element :=
  [ ("Namn"%string, u "Vinga"); ("TypNamn"%string, u typnamn);
    ("Data"%string, u data); ("Enhet"%string, u enhet);
    ("Tid"%string, u tid) ].

Definition vinga_history : history_tree :=
  [ vinga_point "Medelvind" "4.8" "m/s" "2014-05-01T09:00:00";
    vinga_point "Vattenstånd" "-12" "cm" "2014-05-01T09:00:00";
    vinga_point "Medelvind" "5.2" "m/s" "2014-05-01T10:00:00" ].

Definition demo_world : world :=
  mk_world
    (fun n => inject_Z (1398934800 + 7 * Z.of_nat n))
    (fun n => 1398934800 + Z.of_nat n)
    (fun _ sid =>
       if sid =? 33 then Parsed vinga_latest
       else if sid =? 34 then Parsed failed_latest
       else HttpRaises URLError)
    (fun _ sid =>
       if sid =? 33 then Parsed vinga_history
       else if sid =? 34 then Parsed []
       else HttpRaises URLError)
    (fun _ _ => ReturnsCursor)
    (fun _ _ => Exits 0)
    (fun _ => false)
    (fun zone => mk_tzinfo zone 60).

Definition empty_db : connection := mk_connection [] [].

Definition start : state := mk_state empty_db 0.

Definition CET_2014_05_01_10h : datetime :=
  mk_datetime 2014 5 1 10 0 0 (Some (TZ_CET demo_world)).

Definition vinga_avg_wind : Sample :=
  mk_Sample 33 (Some (u "Vinga")) "AVG_WIND" (Some (u "5.2"))
            CET_2014_05_01_10h.

Definition vinga_gust_wind : Sample :=
  mk_Sample 33 (Some (u "Vinga")) "GUST_WIND" (Some (u "7.9"))
            CET_2014_05_01_10h.

(** A world in which SQLite fails on the INSERT of a gust sample (the
    disk is full, say) and everything else is as in [demo_world]. *)
Definition failing_world : world :=
  mk_world
    (time_time demo_world) (utcnow demo_world)
    (get_latest demo_world) (get_history demo_world)
    (fun _ parameters =>
       if String.eqb (r_sample_type parameters) "GUST_WIND"
       then ExecuteRaises sqlite3_Error
       else ReturnsCursor)
    (subprocess_call demo_world) (sleep_interrupted demo_world)
    (pytz_timezone demo_world).

Definition vinga_avg_wind_row (now : Z) : row :=
  mk_row 33 (Some (u "Vinga")) now 1398934800 "AVG_WIND" (Some (u "5.2")).

Definition vinga_gust_wind_row (now : Z) : row :=
  mk_row 33 (Some (u "Vinga")) now 1398934800 "GUST_WIND" (Some (u "7.9")).

(** [demo_world] with a callback that ends as [outcome]. *)
Definition world_with_callback (outcome : call_outcome) : world :=
  mk_world
    (time_time demo_world) (utcnow demo_world)
    (get_latest demo_world) (get_history demo_world)
    (cursor_execute demo_world)
    (fun _ _ => outcome) (sleep_interrupted demo_world)
    (pytz_timezone demo_world).

Definition notify_sh : unicode := Eval cbv in u "/usr/local/bin/notify.sh".

(** ** Predicates of the further properties *)

(** No two rows of the list have the same
    (station_id, sample_tstamp, sample_type). *)
Fixpoint distinct_keys (l : list row) : bool :=
  match l with
  | [] => true
  | r :: rest => negb (existsb (same_key r) rest) && distinct_keys rest
  end.

(** The parameters of the INSERTs among the events, in order. *)
Fixpoint executes_of (t : list event) : list row :=
  match t with
  | [] => []
  | Execute parameters :: rest => parameters :: executes_of rest
  | _ :: rest => executes_of rest
  end.

(** The number of COMMITs among the events. *)
Fixpoint commits_of (t : list event) : nat :=
  match t with
  | [] => O
  | Commit :: rest => S (commits_of rest)
  | _ :: rest => commits_of rest
  end.

(** The durations of the [time.sleep]s among the events, in order. *)
Fixpoint sleeps_of (t : list event) : list Q :=
  match t with
  | [] => []
  | TimeSleep seconds :: rest => seconds :: sleeps_of rest
  | _ :: rest => sleeps_of rest
  end.

(** The key columns of the row an INSERT for [sample] carries. *)
Definition row_of_sample (sample : Sample) (r : row) : Prop :=
  r_station_id r = station_id sample
  /\ r_station_name r = station_name sample
  /\ r_sample_type r = stype sample
  /\ r_sample_value r = svalue sample
  /\ timegm (utctimetuple (ststamp sample)) = Some (r_sample_tstamp r).

(** The table after the first poll of station 33 in [demo_world], and the
    average wind of the same instant reported again with another value. *)
Definition stored_once : state :=
  Eval vm_compute in
  state_of (store_samples demo_world [vinga_avg_wind; vinga_gust_wind]
                          start).

Definition vinga_avg_wind_revised : Sample :=
  mk_Sample 33 (Some (u "Vinga")) "AVG_WIND" (Some (u "6.0"))
            CET_2014_05_01_10h.

(** What a fetch loop reads of an element before it calls
    [create_sample]: the type name in upper case and the time stamp with
    [TZ_CET], or the exception of a missing type name ([typ] is the name
    of the attribute), a missing [Tid] or a [Tid] that does not parse. *)
Definition read_element (toupper : N -> N) (W : world) (typ : string)
           (e : element)
  : result (unicode * datetime) :=
  match elem_get e typ with
  | None => Raise AttributeError
  | Some t =>
    match elem_get e "Tid" with
    | None => Raise TypeError
    | Some v =>
      match strptime v with
      | None => Raise ValueError
      | Some dt => Ret (upper toupper t, replace_tzinfo dt (TZ_CET W))
      end
    end
  end.

Definition well_formed (toupper : N -> N) (W : world) (typ : string)
           (e : element)
  : bool :=
  match read_element toupper W typ e with
  | Ret _ => true
  | Raise _ => false
  end.

(** The sample of one [ViVaDataT] element of station [sid], named
    [name]: none when the (type, unit) pair is not in the table. *)
Definition latest_sample (toupper : N -> N) (W : world) (sid : Z)
           (name : option unicode) (e : element) : list Sample :=
  match read_element toupper W "Typ" e with
  | Ret (t, ts) =>
    match fst (create_sample sid name (elem_get e "Enhet") t
                             (elem_get e "Varde") ts) with
    | CSample sample => [sample]
    | CFalse => []
    end
  | Raise _ => []
  end.

(** The sample of one [ViVaPoint] element of a history. *)
Definition history_sample (toupper : N -> N) (W : world) (sid : Z)
           (e : element)
  : list Sample :=
  match read_element toupper W "TypNamn" e with
  | Ret (t, ts) =>
    match fst (create_sample sid (elem_get e "Namn") (elem_get e "Enhet") t
                             (elem_get e "Data") ts) with
    | CSample sample => [sample]
    | CFalse => []
    end
  | Raise _ => []
  end.

(** A response for station 33 whose second measurement has a time stamp
    that is no date. *)
Definition garbled_latest : latest_tree :=
  mk_latest_tree [] [Some (u "Vinga")]
    [ vinga_measurement "Medelvind" "5.2" "m/s" "2014-05-01T10:00:00";
      vinga_measurement "Byvind" "7.9" "m/s" "2014-02-30T10:00:00";
      vinga_measurement "Riktning" "270" "°" "2014-05-01T10:00:00" ].

(** A response with a station name and no measurement at all. *)
Definition silent_latest : latest_tree :=
  mk_latest_tree [] [Some (u "Vinga")] [].

(** [demo_world] where station 33 answers with [tree]. *)
Definition world_with_latest (tree : latest_tree) : world :=
  mk_world
    (time_time demo_world) (utcnow demo_world)
    (fun _ sid => if sid =? 33 then Parsed tree
                  else get_latest demo_world 0 sid)
    (get_history demo_world)
    (cursor_execute demo_world)
    (subprocess_call demo_world) (sleep_interrupted demo_world)
    (pytz_timezone demo_world).

(** A computation that never moves the tick back and never sleeps. *)
Definition steady {A : Type} (m : M A) : Prop :=
  forall st,
    (tick st <= tick (state_of (m st)))%nat
    /\ sleeps_of (events_of (m st)) = [].

(** The clock of the world never goes back. *)
Definition monotone_clock (W : world) : Prop :=
  forall n m, (n <= m)%nat -> (time_time W n <= time_time W m)%Q.

(** A sleep is not negative and, on a clock that never goes back, not
    longer than the poll rate. *)
Definition in_bounds (W : world) (pollrate : Z) (seconds : Q) : Prop :=
  (0 <= seconds)%Q
  /\ (monotone_clock W -> (seconds <= inject_Z pollrate)%Q).

(** * vivad.py: the main program

    The part of the script under [if __name__ == "__main__"], with the
    library functions it calls on the command line ([getopt.getopt],
    [int], [str.split], [timedelta]) transcribed. *)

Module Main.

(** ** Strings of the command line (byte strings) *)

Definition code (c : ascii) : N := N_of_ascii c.

(** The characters of a [str] as code points, for the functions that are
    written for [unicode]. *)
Definition codes (s : string) : unicode :=
  List.map N_of_ascii (list_ascii_of_string s).

Definition isspace (c : ascii) : bool :=
  ((code c =? 32) || ((9 <=? code c) && (code c <=? 13)))%N.

Definition isdigit (c : ascii) : bool :=
  ((48 <=? code c) && (code c <=? 57))%N.

(** [c.upper()] of a byte: the letters a to z. *)
Definition ascii_upper (c : ascii) : ascii :=
  if ((97 <=? code c) && (code c <=? 122))%N
  then ascii_of_N (code c - 32)
  else c.

(** [a[-1]]: [None] stands for the [IndexError] of the empty string. *)
Fixpoint last_char (a : string) : option ascii :=
  match a with
  | EmptyString => None
  | String c EmptyString => Some c
  | String _ rest => last_char rest
  end.

(** [a[0:-1]] *)
Fixpoint but_last (a : string) : string :=
  match a with
  | EmptyString => EmptyString
  | String _ EmptyString => EmptyString
  | String c rest => String c (but_last rest)
  end.

Fixpoint lstrip (s : string) : string :=
  match s with
  | String c rest => if isspace c then lstrip rest else s
  | EmptyString => EmptyString
  end.

(** The digits at the start of [s], as a number added to [10 * acc], and
    what follows them. *)
Fixpoint digits (acc : Z) (s : string) : Z * string :=
  match s with
  | String c rest =>
    if isdigit c then digits (acc * 10 + (Z.of_N (code c) - 48)) rest
    else (acc, s)
  | EmptyString => (acc, EmptyString)
  end.

(** [s[1:]] *)
Definition tail (s : string) : string :=
  match s with
  | String _ rest => rest
  | EmptyString => EmptyString
  end.

Definition starts_with (c : ascii) (s : string) : bool :=
  match s with
  | String c0 _ => Ascii.eqb c0 c
  | EmptyString => false
  end.

(** [int(s)] in base 10: white space, an optional sign, digits, white
    space.  [None] stands for [ValueError]. *)
Definition int (s : string) : option Z :=
  let s := lstrip s in
  let negative := starts_with "-" s in
  let s := if starts_with "-" s || starts_with "+" s then tail s else s in
  match s with
  | String c _ =>
    if isdigit c then
      let '(n, rest) := digits 0 s in
      match lstrip rest with
      | EmptyString => Some (if negative then - n else n)
      | String _ _ => None
      end
    else None
  | EmptyString => None
  end.

(** [s.split(sep)] for a separator of one character. *)
Fixpoint split (sep : ascii) (s : string) : list string :=
  match s with
  | EmptyString => [EmptyString]
  | String c rest =>
    if Ascii.eqb c sep then EmptyString :: split sep rest
    else match split sep rest with
         | first :: others => String c first :: others
         | [] => [String c EmptyString]
         end
  end.

(** ** [timedelta] *)

(** A [timedelta] without microseconds, normalised as the library keeps
    it: [0 <= seconds < 86400]. *)
Record timedelta : Type := mk_timedelta {
  days : Z;
  seconds : Z
}.

(** [timedelta(days=d, seconds=s)]; [None] stands for the [OverflowError]
    of more than 999999999 days. *)
Definition new_timedelta (d s : Z) : option timedelta :=
  let d' := d + s / 86400 in
  if (Z.abs d' <=? 999999999) then Some (mk_timedelta d' (s mod 86400))
  else None.

(** ** [getopt.getopt] *)

Inductive GetoptError : Type :=
| NotRecognized (opt : string)
| RequiresArgument (opt : string).

(** [short_has_arg(opt, shortopts)]; [None] stands for the
    [GetoptError] of an option that is not in [shortopts]. *)
Fixpoint short_has_arg (opt : ascii) (shortopts : string) : option bool :=
  match shortopts with
  | EmptyString => None
  | String c rest =>
    if Ascii.eqb opt c && negb (Ascii.eqb c ":")
    then Some match rest with
              | String ":" _ => true
              | _ => false
              end
    else short_has_arg opt rest
  end.

Definition dash (opt : ascii) : string := String "-" (String opt EmptyString).

Fixpoint do_shorts (opts : list (string * string)) (optstring : string)
         (shortopts : string) (args : list string)
  : GetoptError + (list (string * string) * list string) :=
  match optstring with
  | EmptyString => inr (opts, args)
  | String opt optstring =>
    match short_has_arg opt shortopts with
    | None => inl (NotRecognized (String opt EmptyString))
    | Some true =>
      match optstring with
      | EmptyString =>
        match args with
        | [] => inl (RequiresArgument (String opt EmptyString))
        | optarg :: args => inr (opts ++ [(dash opt, optarg)], args)
        end
      | String _ _ => inr (opts ++ [(dash opt, optstring)], args)
      end
    | Some false =>
      do_shorts (opts ++ [(dash opt, EmptyString)]) optstring shortopts args
    end
  end.

(** The name of a long option, up to its [=]. *)
Fixpoint long_name (opt : string) : string :=
  match opt with
  | EmptyString => EmptyString
  | String c rest => if Ascii.eqb c "=" then EmptyString
                     else String c (long_name rest)
  end.

(** The [while] loop of [getopt], with no long options declared (any
    long option is then not recognised).  Every pass takes at least one
    argument, so [fuel] as large as the number of arguments is never used
    up. *)
Fixpoint getopt_loop (fuel : nat) (opts : list (string * string))
         (args : list string) (shortopts : string)
  : GetoptError + (list (string * string) * list string) :=
  match args with
  | [] => inr (opts, args)
  | arg :: rest =>
    if starts_with "-" arg && negb (String.eqb arg "-") then
      if String.eqb arg "--" then inr (opts, rest)
      else if starts_with "-" (tail arg)
           then inl (NotRecognized (long_name (tail (tail arg))))
      else
        match fuel with
        | O => inr (opts, args)
        | S fuel =>
          match do_shorts opts (tail arg) shortopts rest with
          | inl e => inl e
          | inr (opts, args) => getopt_loop fuel opts args shortopts
          end
        end
    else inr (opts, args)
  end.

Definition getopt (args : list string) (shortopts : string)
  : GetoptError + (list (string * string) * list string) :=
  getopt_loop (List.length args) [] args shortopts.

(** ** The options *)

(** Exceptions that end the script and are not among those of the
    station loops. *)
Inductive error : Type :=
| Exn (x : exn)
| IndexError
| OverflowError
| IOError
| UnicodeEncodeError.

(** What [usage] is called with, and the one message that is printed
    without it. *)
Inductive message : Type :=
| UsageGetopt (e : GetoptError)
| UsageNoSuchCallback (a : string)
| UsageNotExecutable (a : string)
| UsageNoStations
| UsagePidfileExists (pidfile : string)
| InvalidTimespan (a : string).

(** How the script ends: [sys.exit(status)], an exception that nothing
    catches, the end of the script, or still in [while True] after the
    rounds that were run. *)
Inductive ending : Type :=
| SysExit (status : Z)
| Uncaught (x : error)
| EndOfScript
| StillPolling.

Record config : Type := mk_config {
  pidfile : string;
  verbose : nat;
  callback : option string;
  dbfile : string;
  pollrate : Z;
  timespan : timedelta;
  do_list : bool;
  do_sync : bool
}.

Definition defaults : config :=
  mk_config "/tmp/vivad.pid" 0 None "vivad.db" 60 (mk_timedelta 1 0)
            false false.

(** What the script finds on the machine. *)
Record environment : Type := mk_environment {
  isfile : string -> bool;
  access_X_OK : string -> bool;
  connects : string -> bool;
  pidfile_writable : bool;
  get_points : http_outcome (list element);
  today : datetime;
  stdout_encodes : unicode -> bool
}.

(** The value of [-t]: the number is converted first, then the letter is
    looked at. *)
Definition parse_timespan (a : string)
  : (ending * list message) + timedelta :=
  match last_char a with
  | None => inl (Uncaught IndexError, [])
  | Some c =>
    let delta_magnitude := ascii_upper c in
    match int (but_last a) with
    | None => inl (Uncaught (Exn ValueError), [])
    | Some value =>
      let made :=
        if Ascii.eqb delta_magnitude "D" then Some (new_timedelta value 0)
        else if Ascii.eqb delta_magnitude "H"
             then Some (new_timedelta 0 (value * 3600))
        else if Ascii.eqb delta_magnitude "M"
             then Some (new_timedelta 0 (value * 60))
        else None in
      match made with
      | Some (Some t) => inr t
      | Some None => inl (Uncaught OverflowError, [])
      | None => inl (SysExit 1, [InvalidTimespan a])
      end
    end
  end.

(** One pass of [for o, a in opts]. *)
Definition set_option (E : environment) (cfg : config) (o a : string)
  : (ending * list message) + config :=
  let '(mk_config pidfile verbose callback dbfile pollrate timespan
                  do_list do_sync) := cfg in
  if String.eqb o "-v" then
    inr (mk_config pidfile (verbose + 1) callback dbfile pollrate timespan
                   do_list do_sync)
  else if String.eqb o "-f" then
    inr (mk_config pidfile verbose callback a pollrate timespan
                   do_list do_sync)
  else if String.eqb o "-l" then
    inr (mk_config pidfile verbose callback dbfile pollrate timespan
                   true do_sync)
  else if String.eqb o "-i" then
    inr (mk_config a verbose callback dbfile pollrate timespan
                   do_list do_sync)
  else if String.eqb o "-p" then
    match int a with
    | Some n => inr (mk_config pidfile verbose callback dbfile n timespan
                               do_list do_sync)
    | None => inl (Uncaught (Exn ValueError), [])
    end
  else if String.eqb o "-s" then
    inr (mk_config pidfile verbose callback dbfile pollrate timespan
                   do_list true)
  else if String.eqb o "-t" then
    match parse_timespan a with
    | inr t => inr (mk_config pidfile verbose callback dbfile pollrate t
                              do_list do_sync)
    | inl stop => inl stop
    end
  else if String.eqb o "-c" then
    if negb (isfile E a) then inl (SysExit 1, [UsageNoSuchCallback a])
    else if negb (access_X_OK E a)
         then inl (SysExit 1, [UsageNotExecutable a])
    else inr (mk_config pidfile verbose (Some a) dbfile pollrate timespan
                        do_list do_sync)
  else inr cfg.

Fixpoint set_options (E : environment) (cfg : config)
         (opts : list (string * string))
  : (ending * list message) + config :=
  match opts with
  | [] => inr cfg
  | (o, a) :: rest =>
    match set_option E cfg o a with
    | inr cfg => set_options E cfg rest
    | inl stop => inl stop
    end
  end.

Definition shortopts : string := "vf:la:r:i:p:c:st:".

(** From [sys.argv[1:]] to the settings and the arguments that are left. *)
Definition command_line (E : environment) (argv : list string)
  : (ending * list message) + (config * list string) :=
  match getopt argv shortopts with
  | inl e => inl (SysExit 1, [UsageGetopt e])
  | inr (opts, args) =>
    match set_options E defaults opts with
    | inl stop => inl stop
    | inr cfg => inr (cfg, args)
    end
  end.

(** [[int(x) for x in arg.split(',')]]; [None] stands for [ValueError]. *)
Fixpoint ints (fields : list string) : option (list Z) :=
  match fields with
  | [] => Some []
  | x :: rest =>
    match int x with
    | None => None
    | Some n =>
      match ints rest with
      | None => None
      | Some l => Some (n :: l)
      end
    end
  end.

Definition station_ids (arg : string) : option (list Z) :=
  ints (split "," arg).

(** ** The station list *)

(** A dict of [fetch_station_list]. *)
Record station : Type := mk_station {
  id : option unicode;
  name : option unicode;
  lat : option unicode;
  lon : option unicode
}.

(** [fetch_station_list], from the parsed response on. *)
Definition stations_of (elements : list element) : list station :=
  List.map (fun element =>
              mk_station (elem_get element "PlatsId")
                         (elem_get element "Platsnamn")
                         (elem_get element "Latitude")
                         (elem_get element "Longitude"))
           elements.

(** [str(x)] of a value of the dict: the text, or [None]. *)
Definition str_of (x : option unicode) : unicode :=
  match x with
  | Some text => text
  | None => codes "None"
  end.

(** [%-<width>s]: the text, filled with spaces on the right up to
    [width] characters; a longer text is not cut. *)
Definition ljust (width : nat) (text : unicode) : unicode :=
  text ++ List.repeat 32%N (width - List.length text).

(** [row_fmt % (c_id, c_lon, c_lat, c_name)] *)
Definition row_fmt (c_id c_lon c_lat c_name : option unicode) : unicode :=
  ljust 6 (str_of c_id) ++ [32%N]
  ++ ljust 10 (str_of c_lon) ++ [32%N]
  ++ ljust 10 (str_of c_lat) ++ [32%N]
  ++ ljust 50 (str_of c_name).

Definition header : unicode :=
  row_fmt (Some (codes "ID")) (Some (codes "Lon")) (Some (codes "Lat"))
          (Some (codes "Name")).

Definition rule : unicode := List.repeat 45%N 80.

Definition station_row (s : station) : unicode :=
  row_fmt (id s) (lon s) (lat s) (name s).

(** The rows that are printed, and whether the loop came to its end:
    [print] raises [UnicodeEncodeError] for a text that the encoding of
    [sys.stdout] does not have ([encodes]), and has then written nothing
    of it. *)
Fixpoint print_rows (encodes : unicode -> bool) (stations : list station)
  : list unicode * bool :=
  match stations with
  | [] => ([], true)
  | s :: rest =>
    if encodes (station_row s) then
      let '(printed, finished) := print_rows encodes rest in
      (station_row s :: printed, finished)
    else ([], false)
  end.

(** The header and the rule are byte strings, written as they are. *)
Definition print_station_list (encodes : unicode -> bool)
           (stations : list station) : list unicode * bool :=
  let '(printed, finished) := print_rows encodes stations in
  (header :: rule :: printed, finished).

(** ** The script *)

(** What the script does, in order: the events of the station loops and
    the steps around them. *)
Inductive action : Type :=
| Ev (e : event)
| Say (m : message)
| LogVerbosity (lv : level)
| LogUsingDatabase (dbfile : string)
| Connect (dbfile : string)
| RequestPoints
| LogPoints
| PrintStations (lines : list unicode)
| WritePid (pidfile : string).

(** The files that exist, by path. *)
Definition files : Type := string -> bool.

Definition with_file (fs : files) (path : string) : files :=
  fun p => if String.eqb p path then true else fs p.

Definition without_file (fs : files) (path : string) : files :=
  fun p => if String.eqb p path then false else fs p.

(** The files once [sqlite3.connect(dbfile)] has succeeded and the table
    is there: the database is a file at [dbfile], except for the names
    that sqlite keeps for the database in memory and the temporary one. *)
Definition with_database (fs : files) (dbfile : string) : files :=
  if String.eqb dbfile ":memory:" || String.eqb dbfile EmptyString then fs
  else with_file fs dbfile.

Record run : Type := mk_run {
  ended : ending;
  final : state;
  actions : list action;
  left : files
}.

(** [dt - td]; [None] stands for the [OverflowError] of a date before
    year 1 or after year 9999. *)
Definition datetime_sub (dt : datetime) (td : timedelta) : option datetime :=
  let t := normalize_datetime (year dt) (month dt) (day dt - days td)
                              (hour dt) (minute dt)
                              (second dt - seconds td) in
  if check_date_args (tm_year t) (tm_mon t) (tm_mday t)
  then Some (mk_datetime (tm_year t) (tm_mon t) (tm_mday t)
                         (tm_hour t) (tm_min t) (tm_sec t) (dt_tzinfo dt))
  else None.

(** [datetime.strftime] refuses a year before 1900 with [ValueError]. *)
Definition strftime_ok (dt : datetime) : bool := 1900 <=? year dt.

Definition verbosity (cfg : config) : list action :=
  if (1 <? verbose cfg)%nat then [LogVerbosity DEBUG]
  else if (0 <? verbose cfg)%nat then [LogVerbosity INFO]
  else [].

Section Script.

Variable toupper : N -> N.
Variable W : world.
Variable E : environment.

(** The number of passes of [while True] that are run. *)
Variable rounds : nat.

(** The branch of [-l]. *)
Definition list_branch (before : list action) (st : state) : run :=
  match get_points E with
  | HttpRaises x => mk_run (Uncaught (Exn x)) st (before ++ [RequestPoints])
                           (isfile E)
  | Parsed elements =>
    let '(lines, finished) :=
      print_station_list (stdout_encodes E) (stations_of elements) in
    mk_run (if finished then EndOfScript else Uncaught UnicodeEncodeError)
           st
           (before ++ [RequestPoints; LogPoints; PrintStations lines])
           (isfile E)
  end.

(** The branch of [-s]; [fs] is the file system with the database. *)
Definition sync_branch (cfg : config) (stations : list Z)
           (before : list action) (fs : files) (st : state) : run :=
  let before := before ++ [Ev (Log INFO (MsgSyncing stations))] in
  let t_until := today E in
  match datetime_sub t_until (timespan cfg) with
  | None => mk_run (Uncaught OverflowError) st before fs
  | Some t_from =>
    match stations with
    | _ :: _ =>
      if strftime_ok t_from && strftime_ok t_until then
        match sync_stations toupper W (option_map codes (callback cfg))
                            stations st with
        | (Ret _, st', t) =>
          mk_run EndOfScript st'
                 (before ++ List.map Ev t ++ [Ev DbClose]) fs
        | (Raise x, st', t) =>
          mk_run (Uncaught (Exn x)) st' (before ++ List.map Ev t) fs
        end
      else mk_run (Uncaught (Exn ValueError)) st before fs
    | [] => mk_run EndOfScript st (before ++ [Ev DbClose]) fs
    end
  end.

(** The branch that monitors. *)
Definition poll_branch (cfg : config) (stations : list Z)
           (before : list action) (fs : files) (st : state) : run :=
  let before := before ++ [Ev (Log INFO (MsgMonitoring stations))] in
  if fs (pidfile cfg) then
    mk_run (SysExit 1) st
           (before ++ [Say (UsagePidfileExists (pidfile cfg))]) fs
  else if negb (pidfile_writable E) then
    mk_run (Uncaught IOError) st before fs
  else
    let before := before ++ [WritePid (pidfile cfg)] in
    let fs := with_file fs (pidfile cfg) in
    match poll_rounds toupper W rounds (option_map codes (callback cfg))
                      (pollrate cfg) stations st with
    | (Ret _, st', t) => mk_run StillPolling st' (before ++ List.map Ev t) fs
    | (Raise x, st', t) =>
      if is_KeyboardInterrupt x then
        mk_run EndOfScript st'
               (before ++ List.map Ev t ++ [Ev Unlink; Ev DbClose])
               (without_file fs (pidfile cfg))
      else mk_run (Uncaught (Exn x)) st' (before ++ List.map Ev t) fs
    end.

(** The script from the settings on; [args] is what [getopt] left. *)
Definition script (cfg : config) (args : list string) (st : state) : run :=
  let before := verbosity cfg in
  if do_list cfg then list_branch before st
  else
    let before := before ++ [LogUsingDatabase (dbfile cfg)] in
    if negb (connects E (dbfile cfg)) then
      mk_run (Uncaught (Exn sqlite3_Error)) st before (isfile E)
    else
      let before := before ++ [Connect (dbfile cfg)] in
      let fs := with_database (isfile E) (dbfile cfg) in
      match create_database_tables st with
      | (_, st, t) =>
        let before := before ++ List.map Ev t in
        match args with
        | [] => mk_run (SysExit 1) st (before ++ [Say UsageNoStations]) fs
        | arg :: _ =>
          match station_ids arg with
          | None => mk_run (Uncaught (Exn ValueError)) st before fs
          | Some stations =>
            if do_sync cfg then sync_branch cfg stations before fs st
            else poll_branch cfg stations before fs st
          end
        end
      end.

Definition main (argv : list string) (st : state) : run :=
  match command_line E argv with
  | inl (stop, said) => mk_run stop st (List.map Say said) (isfile E)
  | inr (cfg, args) => script cfg args st
  end.

End Script.

End Main.

(** ** Predicates for the command line *)

(** A string of decimal digits, and the number it writes. *)
Fixpoint all_digits (s : string) : bool :=
  match s with
  | EmptyString => true
  | String c rest => Main.isdigit c && all_digits rest
  end.

Definition numeral (s : string) : Prop :=
  s <> EmptyString /\ all_digits s = true.

Fixpoint decimal_value (acc : Z) (s : string) : Z :=
  match s with
  | EmptyString => acc
  | String c rest =>
    decimal_value (acc * 10 + (Z.of_N (N_of_ascii c) - 48)) rest
  end.

(** An argument at which [getopt] stops: it does not start with a dash,
    or it is the dash alone. *)
Definition operand (arg : string) : bool :=
  negb (Main.starts_with "-" arg && negb (String.eqb arg "-")).

(** A character that [int] accepts nowhere in its argument. *)
Definition not_of_a_number (c : ascii) : bool :=
  negb (Main.isdigit c || Main.isspace c
        || Ascii.eqb c "-" || Ascii.eqb c "+").

Fixpoint contains (p : ascii -> bool) (s : string) : bool :=
  match s with
  | EmptyString => false
  | String c rest => p c || contains p rest
  end.

(** A machine on which the callback script exists and the pid file does
    not, the service lists two stations, today is 2014-05-02, and the
    output goes to a pipe (ASCII). *)
Definition demo_environment : Main.environment :=
  Main.mk_environment
    (fun path => String.eqb path "/usr/local/bin/notify.sh")
    (fun path => String.eqb path "/usr/local/bin/notify.sh")
    (fun _ => true)
    true
    (Parsed [ [ ("PlatsId"%string, u "33"); ("Platsnamn"%string, u "Vinga");
                ("Latitude"%string, u "57.63");
                ("Longitude"%string, u "11.6") ];
              [ ("PlatsId"%string, u "34");
                ("Platsnamn"%string, u "Trubaduren") ] ])
    (mk_datetime 2014 5 2 8 30 0 None)
    (forallb (fun c => c <? 128)%N).

(** The letters that [-t] takes as a unit, in either case. *)
Definition timespan_unit (c : ascii) : bool :=
  Ascii.eqb (Main.ascii_upper c) "D" || Ascii.eqb (Main.ascii_upper c) "H"
  || Ascii.eqb (Main.ascii_upper c) "M".

(** An action that leaves the store, the network and the pid file alone. *)
Definition harmless (a : Main.action) : bool :=
  match a with
  | Main.Ev _ | Main.Connect _ | Main.WritePid _ => false
  | _ => true
  end.

(** The option [o] is among the parsed options. *)
Definition given (o : string) (opts : list (string * string)) : bool :=
  existsb (fun oa => String.eqb (fst oa) o) opts.

(** A request to the service. *)
Definition is_request (a : Main.action) : bool :=
  match a with
  | Main.Ev (UrlOpen _ _) | Main.RequestPoints => true
  | _ => false
  end.

Definition writes_pid (a : Main.action) : bool :=
  match a with
  | Main.WritePid _ => true
  | _ => false
  end.

(** [demo_world] where Ctrl-C arrives during the first sleep. *)
Definition interrupted_world : world :=
  mk_world
    (time_time demo_world) (utcnow demo_world)
    (get_latest demo_world) (get_history demo_world)
    (cursor_execute demo_world) (subprocess_call demo_world)
    (fun _ => true) (pytz_timezone demo_world).

(** [demo_environment] where the service lists a station with a name
    outside ASCII between the two others. *)
Definition swedish_environment : Main.environment :=
  Main.mk_environment
    (Main.isfile demo_environment) (Main.access_X_OK demo_environment)
    (Main.connects demo_environment)
    (Main.pidfile_writable demo_environment)
    (Parsed [ [ ("PlatsId"%string, u "33"); ("Platsnamn"%string, u "Vinga") ];
              [ ("PlatsId"%string, u "114");
                ("Platsnamn"%string, u "Malmö") ];
              [ ("PlatsId"%string, u "34");
                ("Platsnamn"%string, u "Trubaduren") ] ])
    (Main.today demo_environment)
    (Main.stdout_encodes demo_environment).

(** [demo_environment] with the files of [fs]. *)
Definition environment_with_files (fs : Main.files) : Main.environment :=
  Main.mk_environment
    fs (Main.access_X_OK demo_environment) (Main.connects demo_environment)
    (Main.pidfile_writable demo_environment)
    (Main.get_points demo_environment) (Main.today demo_environment)
    (Main.stdout_encodes demo_environment).

(** The events of the station loops among the actions of the script. *)
Definition events_in (actions : list Main.action) : list event :=
  flat_map (fun a => match a with
                     | Main.Ev e => [e]
                     | _ => []
                     end) actions.

(** How often the option [o] is among the parsed options, and the value
    of its last occurrence ([default] when there is none). *)
Definition times_given (o : string) (opts : list (string * string)) : nat :=
  List.length (List.filter (fun oa => String.eqb (fst oa) o) opts).

Definition last_value (o : string) (default : string)
           (opts : list (string * string)) : string :=
  fold_left (fun acc oa => if String.eqb (fst oa) o then snd oa else acc)
            opts default.

(** The ways in which the handling of the options ends the script. *)
Definition option_error (stop : Main.ending) : Prop :=
  stop = Main.SysExit 1
  \/ stop = Main.Uncaught (Main.Exn ValueError)
  \/ stop = Main.Uncaught Main.IndexError
  \/ stop = Main.Uncaught Main.OverflowError.

(** A computation under which the connection only moves along [R]. *)
Definition keeps (R : connection -> connection -> Prop) {A : Type}
           (m : M A) : Prop :=
  forall st, R (db st) (db (state_of (m st))).

(** The committed rows of [c'] start with those of [c]. *)
Definition grows (c c' : connection) : Prop :=
  exists more, committed c' = committed c ++ more.

(** If no two rows of [c] share a key, no two rows of [c'] do. *)
Definition stays_distinct (c c' : connection) : Prop :=
  distinct_keys (rows c) = true -> distinct_keys (rows c') = true.

(** [demo_world] with a pytz whose zone named CET is a link to
    Europe/Brussels: the object that [replace] attaches then answers the
    first entry of that zone, 18 minutes east of UTC. *)
Definition brussels_world : world :=
  mk_world
    (time_time demo_world) (utcnow demo_world)
    (get_latest demo_world) (get_history demo_world)
    (cursor_execute demo_world) (subprocess_call demo_world)
    (sleep_interrupted demo_world)
    (fun zone => mk_tzinfo zone 18).

(** * Properties *)

(** ** The monad *)

Lemma unicode_eqb_eq (a b : unicode) : unicode_eqb a b = true <-> a = b.
Proof.
  unfold unicode_eqb. destruct (list_eq_dec N.eq_dec a b); split;
    intros; try assumption; try reflexivity; try contradiction; discriminate.
Qed.

Lemma bind_ret_inv {A B : Type} (m : M A) (k : A -> M B) st b st' t :
  bind m k st = (Ret b, st', t) ->
  exists a st1 t1 t2,
    m st = (Ret a, st1, t1) /\ k a st1 = (Ret b, st', t2) /\ t = t1 ++ t2.
Proof.
  unfold bind. destruct (m st) as [[[a|x] st1] t1].
  - destruct (k a st1) as [[r st2] t2] eqn:Hk. intros H.
    inversion H; subst. exists a, st1, t1, t2. auto.
  - discriminate.
Qed.

Lemma bind_eq_ret {A B : Type} (m : M A) (k : A -> M B) st a st1 t1 :
  m st = (Ret a, st1, t1) ->
  bind m k st =
  (result_of (k a st1), state_of (k a st1), t1 ++ events_of (k a st1)).
Proof.
  unfold bind, result_of, state_of, events_of. intros ->.
  destruct (k a st1) as [[r st2] t2]. reflexivity.
Qed.

Lemma bind_eq_raise {A B : Type} (m : M A) (k : A -> M B) st x st1 t1 :
  m st = (Raise x, st1, t1) -> bind m k st = (Raise x, st1, t1).
Proof. unfold bind. intros ->. reflexivity. Qed.

(** ** The lookup table *)

Lemma dict_get_In {V : Type} (items : list ((unicode * unicode) * V))
      (t : unicode) (sunit : option unicode) (v : V) :
  dict_get items (t, sunit) = Some v ->
  exists un, sunit = Some un /\ In ((t, un), v) items.
Proof.
  induction items as [|[[t' un'] v'] rest IH]; simpl.
  - discriminate.
  - destruct (dict_get rest (t, sunit)) as [w|].
    + intros H. destruct (IH H) as (un & -> & Hin). eauto.
    + unfold key_eqb. simpl. destruct sunit as [un|]; [|discriminate].
      destruct (unicode_eqb t' t) eqn:Et; [|discriminate].
      destruct (unicode_eqb un' un) eqn:Eu; [|discriminate].
      apply unicode_eqb_eq in Et. apply unicode_eqb_eq in Eu. subst.
      intros H. inversion H; subst. eauto.
Qed.

Lemma SAMPLE_LUT_listed (t un : unicode) (c : string) :
  In ((t, un), c) SAMPLE_LUT_items -> SAMPLE_LUT (t, Some un) = Some c.
Proof.
  intros H. unfold SAMPLE_LUT_items in H.
  repeat (destruct H as [H|H]; [injection H as <- <- <-; reflexivity|]).
  destruct H.
Qed.

Lemma SAMPLE_LUT_canonical (k : lut_key) (c : string) :
  SAMPLE_LUT k = Some c -> In c canonical_types.
Proof.
  destruct k as [t sunit]. intros H.
  apply dict_get_In in H. destruct H as (un & _ & Hin).
  change canonical_types with (List.map snd SAMPLE_LUT_items).
  apply (in_map snd) in Hin. exact Hin.
Qed.

Lemma create_sample_canonical sid name sunit t v ts sample :
  fst (create_sample sid name sunit t v ts) = CSample sample ->
  In (stype sample) canonical_types.
Proof.
  unfold create_sample.
  destruct (SAMPLE_LUT (t, sunit)) as [c|] eqn:E; simpl; [|discriminate].
  intros H. inversion H; subst. simpl. eapply SAMPLE_LUT_canonical; eauto.
Qed.

(** ** The fetch loops build samples of canonical type only *)

Lemma get_upper_ret toupper e name st a st' t :
  get_upper toupper e name st = (Ret a, st', t) -> st' = st /\ t = [].
Proof.
  unfold get_upper. destruct (elem_get e name); cbn; intros H;
    inversion H; auto.
Qed.

Lemma get_tid_ret e st a st' t :
  get_tid e st = (Ret a, st', t) ->
  st' = st /\ t = [] /\ exists raw, strptime raw = Some a.
Proof.
  unfold get_tid. destruct (elem_get e "Tid") as [v|]; [|discriminate].
  destruct (strptime v) as [dt|] eqn:E; cbn; intros H; inversion H; subst.
  eauto.
Qed.


Ltac bind_inv H :=
  let a := fresh "a" in
  let st1 := fresh "st" in
  let t1 := fresh "t" in
  let t2 := fresh "t" in
  let H1 := fresh "Hm" in
  apply bind_ret_inv in H;
  destruct H as (a & st1 & t1 & t2 & H1 & H & ->).

Lemma all_canonical_snoc samples sample :
  all_canonical samples -> In (stype sample) canonical_types ->
  all_canonical (samples ++ [sample]).
Proof.
  intros Hs Hc. apply Forall_app. split; [exact Hs|].
  constructor; [exact Hc|constructor].
Qed.

Lemma latest_loop_canonical toupper W sid name elements :
  forall samples st out st' t,
    all_canonical samples ->
    latest_loop toupper W sid name elements samples st = (Ret out, st', t) ->
    all_canonical out.
Proof.
  induction elements as [|e rest IH]; intros samples st out st' t Hs H.
  - simpl in H. inversion H; subst. exact Hs.
  - simpl in H. bind_inv H. bind_inv H.
    destruct (create_sample sid name (elem_get e "Enhet") a
                (elem_get e "Varde") (replace_tzinfo a0 (TZ_CET W)))
      as [sample logged] eqn:Ec.
    bind_inv H. destruct sample as [sample|].
    + eapply IH; [|exact H]. apply all_canonical_snoc; [exact Hs|].
      eapply create_sample_canonical. rewrite Ec. reflexivity.
    + eapply IH; eauto.
Qed.

Lemma history_loop_canonical toupper W sid elements :
  forall samples st out st' t,
    all_canonical samples ->
    history_loop toupper W sid elements samples st = (Ret out, st', t) ->
    all_canonical out.
Proof.
  induction elements as [|e rest IH]; intros samples st out st' t Hs H.
  - simpl in H. inversion H; subst. exact Hs.
  - simpl in H. bind_inv H. bind_inv H.
    destruct (create_sample sid (elem_get e "Namn") (elem_get e "Enhet") a
                (elem_get e "Data") (replace_tzinfo a0 (TZ_CET W)))
      as [sample logged] eqn:Ec.
    bind_inv H. destruct sample as [sample|].
    + eapply IH; [|exact H]. apply all_canonical_snoc; [exact Hs|].
      eapply create_sample_canonical. rewrite Ec. reflexivity.
    + eapply IH; eauto.
Qed.

Lemma fetch_station_latest_canonical toupper W sid st samples st' t :
  fetch_station_latest toupper W sid st = (Ret (FSamples samples), st', t) ->
  all_canonical samples.
Proof.
  unfold fetch_station_latest. intros H. bind_inv H. bind_inv H.
  destruct (xp_errormsg a) as [|text ?].
  - destruct (xp_name a) as [|name ?].
    + bind_inv H. inversion H.
    + destruct (xp_samples a) as [|e rest].
      * bind_inv H. inversion H.
      * bind_inv H. bind_inv H. inversion H; subst.
        eapply latest_loop_canonical; [|eassumption]. constructor.
  - bind_inv H. inversion H.
Qed.

Lemma fetch_station_history_canonical toupper W sid st samples st' t :
  fetch_station_history toupper W sid st = (Ret samples, st', t) ->
  all_canonical samples.
Proof.
  unfold fetch_station_history. intros H. bind_inv H. bind_inv H.
  bind_inv H. bind_inv H. inversion H; subst.
  eapply history_loop_canonical; [|eassumption]. constructor.
Qed.

(** C1.  For every (type name, unit) pair listed in [SAMPLE_LUT],
    [create_sample] returns a [Sample] whose [stype] is the value listed
    for the pair; for a pair that is not listed it returns [False] (it is a
    total function, so it raises nothing); and every sample in a list
    returned by [fetch_station_latest] or [fetch_station_history] has a
    [stype] among the values of the table. *)
Theorem create_sample_total_and_closed :
  (forall t un c sid name v ts,
      In ((t, un), c) SAMPLE_LUT_items ->
      fst (create_sample sid name (Some un) t v ts)
      = CSample (mk_Sample sid name c v ts))
  /\ (forall t sunit sid name v ts,
         (forall un c, sunit = Some un ->
                       ~ In ((t, un), c) SAMPLE_LUT_items) ->
         fst (create_sample sid name sunit t v ts) = CFalse)
  /\ (forall toupper W sid st samples st' tr,
         fetch_station_latest toupper W sid st
         = (Ret (FSamples samples), st', tr) ->
         all_canonical samples)
  /\ (forall toupper W sid st samples st' tr,
         fetch_station_history toupper W sid st = (Ret samples, st', tr) ->
         all_canonical samples).
Proof.
  split; [|split; [|split]].
  - intros t un c sid name v ts Hin. unfold create_sample.
    rewrite (SAMPLE_LUT_listed _ _ _ Hin). reflexivity.
  - intros t sunit sid name v ts Hno. unfold create_sample.
    destruct (SAMPLE_LUT (t, sunit)) as [c|] eqn:E; [|reflexivity].
    apply dict_get_In in E. destruct E as (un & Hu & Hin).
    exfalso. exact (Hno un c Hu Hin).
  - intros. eapply fetch_station_latest_canonical; eassumption.
  - intros. eapply fetch_station_history_canonical; eassumption.
Qed.

(** ** The concrete world: instances *)

Example fetch_vinga_latest :
  result_of (fetch_station_latest latin1_toupper demo_world 33 start)
  = Ret (FSamples [vinga_avg_wind; vinga_gust_wind]).
Proof. vm_compute. reflexivity. Qed.

Lemma create_sample_total_and_closed_witness :
  fst (create_sample 33 None (Some (u "m/s")) (u "MEDELVIND") None
                     CET_2014_05_01_10h)
  = CSample (mk_Sample 33 None "AVG_WIND" None CET_2014_05_01_10h)
  /\ fst (create_sample 33 None (Some (u "°")) (u "DAGGPUNKT") None
                        CET_2014_05_01_10h) = CFalse
  /\ all_canonical [vinga_avg_wind; vinga_gust_wind]
  /\ all_canonical
       (match result_of (fetch_station_history latin1_toupper demo_world
                                               33 start) with
        | Ret samples => samples
        | Raise _ => []
        end).
Proof.
  destruct create_sample_total_and_closed as (Hin & Hout & Hlatest & Hhist).
  split; [|split; [|split]].
  - apply Hin. vm_compute. left. reflexivity.
  - apply Hout. intros un c Hu Hc. injection Hu as <-.
    vm_compute in Hc.
    repeat (destruct Hc as [Hc|Hc]; [discriminate Hc|]). exact Hc.
  - apply (Hlatest latin1_toupper demo_world 33 start _
             (state_of (fetch_station_latest latin1_toupper demo_world
                                             33 start))
             (events_of (fetch_station_latest latin1_toupper demo_world
                                              33 start))).
    vm_compute. reflexivity.
  - apply (Hhist latin1_toupper demo_world 33 start _
             (state_of (fetch_station_history latin1_toupper demo_world
                                              33 start))
             (events_of (fetch_station_history latin1_toupper demo_world
                                               33 start))).
    vm_compute. reflexivity.
Defined.

(** ** Case of the type name *)

Lemma latin1_toupper_idem (c : N) :
  latin1_toupper (latin1_toupper c) = latin1_toupper c.
Proof.
  unfold latin1_toupper.
  destruct (N.leb_spec 97 c), (N.leb_spec c 122), (N.leb_spec 224 c),
    (N.leb_spec c 254), (N.eqb_spec c 247), (N.eqb_spec c 255),
    (N.eqb_spec c 181); simpl; try lia;
  repeat match goal with
  | |- context [(?a <=? ?b)%N] => destruct (N.leb_spec a b); simpl; try lia
  | |- context [(?a =? ?b)%N] => destruct (N.eqb_spec a b); simpl; try lia
  end.
Qed.

Lemma upper_idem (toupper : N -> N) :
  (forall c, toupper (toupper c) = toupper c) ->
  forall s, upper toupper (upper toupper s) = upper toupper s.
Proof.
  intros Hidem s. unfold upper. rewrite map_map.
  apply map_ext. exact Hidem.
Qed.

(** [create_sample] itself compares the name as it is given: the upper-case
    form is produced by the fetch loops. *)
Example create_sample_lower_case :
  fst (create_sample 33 None (Some (u "m/s")) (u "medelvind") None
                     CET_2014_05_01_10h) = CFalse.
Proof. reflexivity. Qed.

(** C8.  Classification does not depend on the case of the type name:
    with an upper-casing that leaves upper-case text alone, both fetch loops
    do the same on an element whose type name ([Typ], [TypNamn]) is [t] as
    on the element with the upper-case form of [t], whatever the unit and
    the other attributes are. *)
Theorem type_name_case_insensitive (toupper : N -> N) (W : world) :
  (forall c, toupper (toupper c) = toupper c) ->
  (forall sid name t attrs rest samples st,
      latest_loop toupper W sid name
        ((("Typ"%string, upper toupper t) :: attrs) :: rest) samples st
      = latest_loop toupper W sid name
          ((("Typ"%string, t) :: attrs) :: rest) samples st)
  /\ (forall sid t attrs rest samples st,
         history_loop toupper W sid
           ((("TypNamn"%string, upper toupper t) :: attrs) :: rest)
           samples st
         = history_loop toupper W sid
             ((("TypNamn"%string, t) :: attrs) :: rest) samples st).
Proof.
  intros Hidem. split; intros.
  - cbn [latest_loop get_upper elem_get String.eqb Ascii.eqb Bool.eqb].
    rewrite (upper_idem _ Hidem). reflexivity.
  - cbn [history_loop get_upper elem_get String.eqb Ascii.eqb Bool.eqb].
    rewrite (upper_idem _ Hidem). reflexivity.
Qed.

Lemma type_name_case_insensitive_witness :
  (forall c, latin1_toupper (latin1_toupper c) = latin1_toupper c)
  /\ latest_loop latin1_toupper demo_world 33 (Some (u "Vinga"))
       [vinga_measurement "MEDELVIND" "5.2" "m/s" "2014-05-01T10:00:00"]
       [] start
     = latest_loop latin1_toupper demo_world 33 (Some (u "Vinga"))
         [vinga_measurement "medelvind" "5.2" "m/s" "2014-05-01T10:00:00"]
         [] start.
Proof.
  split; [exact latin1_toupper_idem|].
  exact (proj1 (type_name_case_insensitive latin1_toupper demo_world
                  latin1_toupper_idem)
           33 (Some (u "Vinga")) (u "medelvind")
           [ ("Varde"%string, u "5.2"); ("Enhet"%string, u "m/s");
             ("Tid"%string, u "2014-05-01T10:00:00") ]
           [] [] start).
Defined.

(** ** Time stamps *)












Lemma same_key_spec (a b : row) :
  same_key a b = true <->
  r_station_id a = r_station_id b
  /\ r_sample_tstamp a = r_sample_tstamp b
  /\ r_sample_type a = r_sample_type b.
Proof.
  unfold same_key. rewrite !andb_true_iff, !Z.eqb_eq, String.eqb_eq.
  tauto.
Qed.

Lemma insert_or_ignore_key (r : row) (c : connection) :
  exists r', In r' (rows (insert_or_ignore r c)) /\ same_key r r' = true.
Proof.
  unfold insert_or_ignore.
  destruct (existsb (same_key r) (rows c)) eqn:E.
  - apply existsb_exists in E. exact E.
  - exists r. split.
    + unfold rows. cbn [committed pending]. rewrite app_assoc.
      apply in_or_app. right. left. reflexivity.
    + apply same_key_spec. auto.
Qed.

(** The parameters of the INSERT that [store_single_sample] executes for a
    sample whose [timegm] exists. *)
Lemma store_single_sample_executes W sample st seconds :
  timegm (utctimetuple (ststamp sample)) = Some seconds ->
  let parameters :=
    mk_row (station_id sample) (station_name sample) (utcnow W (tick st))
           seconds (stype sample) (svalue sample) in
  (exists tail,
      events_of (store_single_sample W sample st)
      = [Log DEBUG (MsgInsert sample); Execute parameters] ++ tail)
  /\ (cursor_execute W (S (tick st)) parameters = ReturnsCursor ->
      store_single_sample W sample st
      = (Ret true,
         mk_state (insert_or_ignore parameters (db st)) (S (S (tick st))),
         [Log DEBUG (MsgInsert sample); Execute parameters])).
Proof.
  intros Hts parameters.
  unfold store_single_sample, bind, emit, now_timegm, sample_timegm,
    execute_insert, ret, raise, events_of, advance.
  rewrite Hts. cbn [tick db]. fold parameters.
  destruct (cursor_execute W (S (tick st)) parameters) eqn:E; cbn.
  - split; [exists []; reflexivity|]. reflexivity.
  - split; [eexists; reflexivity|]. discriminate.
  - split; [eexists; reflexivity|]. discriminate.
Qed.


(** ** The store *)

Lemma store_single_sample_cases W sample st :
  let o := store_single_sample W sample st in
  (exists now seconds,
      timegm (utctimetuple (ststamp sample)) = Some seconds
      /\ result_of o = Ret true
      /\ db (state_of o)
         = insert_or_ignore
             (mk_row (station_id sample) (station_name sample) now seconds
                     (stype sample) (svalue sample))
             (db st))
  \/ (result_of o <> Ret true /\ db (state_of o) = db st).
Proof.
  unfold store_single_sample, bind, emit, now_timegm, sample_timegm,
    execute_insert, ret, raise, result_of, state_of, advance.
  destruct (timegm (utctimetuple (ststamp sample))) as [seconds|] eqn:Hts;
    cbn [tick db fst snd].
  - match goal with
    | |- context [cursor_execute W ?n ?p] =>
      destruct (cursor_execute W n p) eqn:E; cbn [fst snd db]
    end.
    + left. do 2 eexists. repeat split; reflexivity.
    + right. split; [discriminate|reflexivity].
    + right. split; [discriminate|reflexivity].
  - right. split; [discriminate|reflexivity].
Qed.

Lemma store_samples_cons W sample rest st :
  store_samples W (sample :: rest) st
  = match store_single_sample W sample st with
    | (Ret true, st1, t1) =>
      let o := store_samples W rest st1 in
      (result_of o, state_of o, t1 ++ events_of o)
    | (Ret false, st1, t1) =>
      (Ret false, mk_state (mk_connection (committed (db st1)) [])
                           (tick st1),
       t1 ++ [Rollback])
    | (Raise x, st1, t1) => (Raise x, st1, t1)
    end.
Proof.
  cbn [store_samples]. unfold bind at 1.
  destruct (store_single_sample W sample st) as [[[[|]|x] st1] t1].
  - unfold result_of, state_of, events_of.
    destruct (store_samples W rest st1) as [[r st2] t2]. reflexivity.
  - unfold bind, db_rollback, ret. cbn. reflexivity.
  - reflexivity.
Qed.

Lemma insert_or_ignore_committed (r : row) (c : connection) :
  committed (insert_or_ignore r c) = committed c.
Proof.
  unfold insert_or_ignore. destruct (existsb (same_key r) (rows c));
    reflexivity.
Qed.

Lemma insert_or_ignore_rows (r r0 : row) (c : connection) :
  In r0 (rows c) -> In r0 (rows (insert_or_ignore r c)).
Proof.
  unfold insert_or_ignore. destruct (existsb (same_key r) (rows c));
    [auto|].
  unfold rows. cbn [committed pending]. rewrite app_assoc.
  intros H. apply in_or_app. left. exact H.
Qed.

Lemma insert_or_ignore_present (r : row) (c : connection) :
  existsb (same_key r) (rows c) = true -> insert_or_ignore r c = c.
Proof. unfold insert_or_ignore. intros ->. reflexivity. Qed.

(** Whatever the outcome, the committed rows after [store_samples] are
    the committed rows before it, or the call has returned [True]. *)
Lemma store_samples_committed W samples :
  forall st,
    let o := store_samples W samples st in
    result_of o = Ret true
    \/ committed (db (state_of o)) = committed (db st).
Proof.
  induction samples as [|sample rest IH]; intros st.
  - left. reflexivity.
  - cbv zeta. rewrite store_samples_cons.
    pose proof (store_single_sample_cases W sample st) as Hs.
    cbv zeta in Hs.
    destruct (store_single_sample W sample st) as [[[[|]|x] st1] t1];
      unfold result_of, state_of in *; cbn [fst snd] in *.
    + destruct Hs as [(now & seconds & _ & _ & Hdb)|[Hne _]]; [|congruence].
      destruct (IH st1) as [Ht|Hc]; [left; exact Ht|].
      right. unfold state_of in Hc. rewrite Hc, Hdb.
      apply insert_or_ignore_committed.
    + right. destruct Hs as [(now & seconds & _ & Hr & _)|[_ Hdb]];
        [discriminate|].
      cbn. rewrite Hdb. reflexivity.
    + right. destruct Hs as [(now & seconds & _ & Hr & _)|[_ Hdb]];
        [discriminate|].
      rewrite Hdb. reflexivity.
Qed.

Lemma connection_clean (c : connection) :
  pending c = [] -> mk_connection (rows c) [] = c.
Proof.
  destruct c as [cm pd]. unfold rows. cbn. intros ->.
  rewrite app_nil_r. reflexivity.
Qed.

Lemma connection_rolled_back (c : connection) :
  pending c = [] -> mk_connection (committed c) [] = c.
Proof. destruct c as [cm pd]. cbn. intros ->. reflexivity. Qed.

(** With a row for every sample of the batch in the table, and no
    transaction open, [store_samples] leaves the connection as it was,
    however the INSERTs end. *)
Lemma store_samples_present_noop W samples :
  forall st,
    Forall (fun sample => key_present sample (db st)) samples ->
    pending (db st) = [] ->
    db (state_of (store_samples W samples st)) = db st.
Proof.
  induction samples as [|sample rest IH]; intros st Hall Hclean.
  - cbn. apply connection_clean. exact Hclean.
  - rewrite store_samples_cons.
    pose proof (store_single_sample_cases W sample st) as Hs.
    cbv zeta in Hs. inversion Hall as [|? ? Hkey Hrest]; subst.
    assert (Hdb : db (state_of (store_single_sample W sample st)) = db st).
    { destruct Hs as [(now & seconds & Hts & _ & Hdb)|[_ Hdb]];
        [|exact Hdb].
      rewrite Hdb. apply insert_or_ignore_present. apply Hkey. exact Hts. }
    destruct (store_single_sample W sample st) as [[[[|]|x] st1] t1];
      unfold state_of in *; cbn [fst snd] in *.
    + rewrite <- Hdb. apply IH; rewrite Hdb; assumption.
    + cbn [db]. rewrite Hdb. apply connection_rolled_back. exact Hclean.
    + exact Hdb.
Qed.

(** After [store_samples] has returned [True], no transaction is open,
    every row that was in the table still is, and the table holds a row
    for every sample of the batch. *)
Lemma store_samples_success_present W samples :
  forall st,
    result_of (store_samples W samples st) = Ret true ->
    let c' := db (state_of (store_samples W samples st)) in
    pending c' = []
    /\ (forall r, In r (rows (db st)) -> In r (rows c'))
    /\ Forall (fun sample => key_present sample c') samples.
Proof.
  induction samples as [|sample rest IH]; intros st Hok.
  - cbn. repeat split.
    + intros r Hr. unfold rows at 1. cbn. rewrite app_nil_r. exact Hr.
    + constructor.
  - revert Hok. cbv zeta. rewrite store_samples_cons.
    pose proof (store_single_sample_cases W sample st) as Hs.
    cbv zeta in Hs.
    destruct (store_single_sample W sample st) as [[[[|]|x] st1] t1];
      unfold result_of, state_of in *; cbn [fst snd] in *;
      try discriminate.
    intros Hok.
    destruct Hs as [(now & seconds & Hts & _ & Hdb)|[Hne _]];
      [|congruence].
    destruct (IH st1 Hok) as (Hp & Hmono & Hrest). unfold state_of in *.
    split; [exact Hp|]. split.
    + intros r Hr. apply Hmono. rewrite Hdb.
      apply insert_or_ignore_rows. exact Hr.
    + constructor; [|exact Hrest].
      intros now' seconds' Hts'. rewrite Hts in Hts'.
      injection Hts' as <-.
      destruct (insert_or_ignore_key
                  (mk_row (station_id sample) (station_name sample) now
                          seconds (stype sample) (svalue sample))
                  (db st)) as (r' & Hin & Hk).
      rewrite <- Hdb in Hin. apply Hmono in Hin.
      apply existsb_exists. exists r'. split; [exact Hin|].
      apply same_key_spec. apply same_key_spec in Hk. exact Hk.
Qed.

(** C2.  Writing a batch a second time changes nothing: once
    [store_samples] has returned [True] for a batch, [store_samples] on
    the same batch, at any later time and however its INSERTs end, leaves
    the connection, and so the rows of the table, exactly as the first
    write left them. *)
Theorem store_samples_idempotent W samples st :
  result_of (store_samples W samples st) = Ret true ->
  forall W2 st2,
    db st2 = db (state_of (store_samples W samples st)) ->
    db (state_of (store_samples W2 samples st2)) = db st2
    /\ rows (db (state_of (store_samples W2 samples st2)))
       = rows (db (state_of (store_samples W samples st))).
Proof.
  intros Hok W2 st2 Hst2.
  destruct (store_samples_success_present W samples st Hok)
    as (Hp & _ & Hall).
  assert (Hnoop : db (state_of (store_samples W2 samples st2)) = db st2).
  { apply store_samples_present_noop; rewrite Hst2; assumption. }
  split; [exact Hnoop|]. rewrite Hnoop, Hst2. reflexivity.
Qed.

Lemma store_samples_idempotent_witness :
  result_of (store_samples demo_world [vinga_avg_wind; vinga_gust_wind]
                           start) = Ret true
  /\ rows (db (state_of
                 (store_samples failing_world
                    [vinga_avg_wind; vinga_gust_wind]
                    (state_of (store_samples demo_world
                                 [vinga_avg_wind; vinga_gust_wind]
                                 start)))))
     = [vinga_avg_wind_row 1398934800; vinga_gust_wind_row 1398934802].
Proof.
  split; [reflexivity|].
  rewrite (proj2 (store_samples_idempotent demo_world
                    [vinga_avg_wind; vinga_gust_wind] start eq_refl
                    failing_world
                    (state_of (store_samples demo_world
                                 [vinga_avg_wind; vinga_gust_wind] start))
                    eq_refl)).
  reflexivity.
Defined.

(** C10.  [store_samples] on the empty list executes no INSERT, commits
    and returns [True]; the rows of the table are the rows it had (the
    commit makes the rows of an open transaction, if there is one,
    committed rows). *)
Theorem store_samples_empty W st :
  store_samples W [] st
  = (Ret true, mk_state (mk_connection (rows (db st)) []) (tick st),
     [Commit])
  /\ rows (db (state_of (store_samples W [] st))) = rows (db st)
  /\ committed (db (state_of (store_samples W [] st)))
     = committed (db st) ++ pending (db st).
Proof.
  split; [reflexivity|]. split.
  - cbn. unfold rows at 1. cbn. apply app_nil_r.
  - reflexivity.
Qed.

(** C3.  The batch write where SQLite raises on the second INSERT: the
    exception leaves [store_samples] before [db.rollback()] and
    [return False]; the first row stays in the open transaction and no
    ROLLBACK is issued.  (Nothing is committed: the committed rows are
    as before.) *)
Theorem store_samples_raise_skips_rollback :
  store_samples failing_world [vinga_avg_wind; vinga_gust_wind] start
  = (Raise sqlite3_Error,
     mk_state (mk_connection [] [vinga_avg_wind_row 1398934800]) 4,
     [ Log DEBUG (MsgInsert vinga_avg_wind);
       Execute (vinga_avg_wind_row 1398934800);
       Log DEBUG (MsgInsert vinga_gust_wind);
       Execute (vinga_gust_wind_row 1398934802) ]).
Proof. vm_compute. reflexivity. Qed.

(** The path the code has for a failed INSERT, taken when [execute]
    returns a false value: ROLLBACK, [False], the connection as it was
    committed. *)
Lemma store_samples_false_rolls_back W samples :
  forall st,
    result_of (store_samples W samples st) = Ret false ->
    db (state_of (store_samples W samples st))
    = mk_connection (committed (db st)) []
    /\ In Rollback (events_of (store_samples W samples st)).
Proof.
  induction samples as [|sample rest IH]; intros st.
  - cbn. discriminate.
  - rewrite store_samples_cons.
    pose proof (store_single_sample_cases W sample st) as Hs.
    cbv zeta in Hs.
    destruct (store_single_sample W sample st) as [[[[|]|x] st1] t1];
      unfold result_of, state_of, events_of in *; cbn [fst snd] in *;
      try discriminate.
    + intros Hf.
      destruct Hs as [(now & seconds & _ & _ & Hdb)|[Hne _]]; [|congruence].
      destruct (IH st1 Hf) as [Hc Hr]. split.
      * rewrite Hc, Hdb, insert_or_ignore_committed. reflexivity.
      * apply in_or_app. right. exact Hr.
    + intros _.
      destruct Hs as [(now & seconds & _ & Hr & _)|[_ Hdb]];
        [discriminate|].
      split; [cbn; rewrite Hdb; reflexivity|].
      apply in_or_app. right. left. reflexivity.
Qed.

(** When [store_samples] ends with an exception, it has issued no
    ROLLBACK. *)
Lemma store_single_sample_no_rollback W sample st :
  ~ In Rollback (events_of (store_single_sample W sample st)).
Proof.
  unfold store_single_sample, bind, emit, now_timegm, sample_timegm,
    execute_insert, ret, raise, events_of, advance.
  destruct (timegm (utctimetuple (ststamp sample))); cbn [tick db fst snd].
  - match goal with
    | |- context [cursor_execute W ?n ?p] => destruct (cursor_execute W n p)
    end; cbn; intros H;
      repeat (destruct H as [H|H]; [discriminate H|]); exact H.
  - cbn. intros [H|H]; [discriminate H|exact H].
Qed.

Lemma store_samples_raise_no_rollback W samples :
  forall st x,
    result_of (store_samples W samples st) = Raise x ->
    ~ In Rollback (events_of (store_samples W samples st)).
Proof.
  induction samples as [|sample rest IH]; intros st x.
  - cbn. discriminate.
  - rewrite store_samples_cons.
    pose proof (store_single_sample_no_rollback W sample st) as Hs.
    destruct (store_single_sample W sample st) as [[[[|]|y] st1] t1];
      unfold result_of, events_of in *; cbn [fst snd] in *;
      try discriminate.
    + intros Hr Hin. apply in_app_or in Hin. destruct Hin as [Hin|Hin].
      * exact (Hs Hin).
      * exact (IH st1 x Hr Hin).
    + intros _. exact Hs.
Qed.

(** ** The callback *)

Lemma calls_of_app (t1 t2 : list event) :
  calls_of (t1 ++ t2) = calls_of t1 ++ calls_of t2.
Proof.
  induction t1 as [|e t1 IH]; [reflexivity|].
  destruct e; cbn; rewrite IH; reflexivity.
Qed.

Lemma store_single_sample_calls W sample st :
  calls_of (events_of (store_single_sample W sample st)) = [].
Proof.
  unfold store_single_sample, bind, emit, now_timegm, sample_timegm,
    execute_insert, ret, raise, events_of, advance.
  destruct (timegm (utctimetuple (ststamp sample))); cbn [tick db fst snd];
    [|reflexivity].
  match goal with
  | |- context [cursor_execute W ?n ?p] => destruct (cursor_execute W n p)
  end; reflexivity.
Qed.

Lemma store_samples_calls W samples :
  forall st, calls_of (events_of (store_samples W samples st)) = [].
Proof.
  induction samples as [|sample rest IH]; intros st; [reflexivity|].
  rewrite store_samples_cons.
  pose proof (store_single_sample_calls W sample st) as Hs.
  destruct (store_single_sample W sample st) as [[[[|]|x] st1] t1];
    unfold events_of in *; cbn [fst snd] in *.
  - rewrite calls_of_app, Hs. apply IH.
  - rewrite calls_of_app, Hs. reflexivity.
  - exact Hs.
Qed.

(** What [run_callback] does with each way the callback can end. *)
Lemma run_callback_spec W cb instance st :
  run_callback W (Some cb) instance st
  = match subprocess_call W (tick st) (callback_args cb instance) with
    | Exits retcode =>
      (Ret tt, advance st,
       SubprocessCall (callback_args cb instance)
       :: (if retcode =? 0 then []
           else [Print (MsgCallbackFailedCode cb retcode)]))
    | CallRaises x =>
      if is_Exception x
      then (Ret tt, advance st,
            [SubprocessCall (callback_args cb instance);
             Print (MsgCallbackFailedExn cb x)])
      else (Raise x, advance st,
            [SubprocessCall (callback_args cb instance)])
    end.
Proof.
  unfold run_callback, try_except, bind, call, emit, ret.
  fold (callback_args cb instance).
  destruct (subprocess_call W (tick st) (callback_args cb instance))
    as [retcode|x].
  - destruct (retcode =? 0); reflexivity.
  - destruct (is_Exception x); reflexivity.
Qed.

Lemma store_and_notify_spec W callback first others st :
  store_and_notify W callback (FSamples (first :: others)) st
  = match store_samples W (first :: others) st with
    | (Ret true, st1, t1) =>
      let o := run_callback W callback (station_name first) st1 in
      (result_of o, state_of o, t1 ++ events_of o)
    | (Ret false, st1, t1) => (Ret tt, st1, t1)
    | (Raise x, st1, t1) => (Raise x, st1, t1)
    end.
Proof.
  unfold store_and_notify, bind.
  destruct (store_samples W (first :: others) st) as [[[[|]|x] st1] t1].
  - unfold result_of, state_of, events_of.
    destruct (run_callback W callback (station_name first) st1)
      as [[r st2] t2]. reflexivity.
  - cbn. rewrite app_nil_r. reflexivity.
  - reflexivity.
Qed.

(** C9.  With a callback configured, the callback is called exactly when
    a non-empty list of samples has been stored with success: then once,
    after the events of the write, with the callback and the station name
    of the first sample as arguments; in every other case (the fetch gave
    [False] or an empty list, or the write did not return [True]) it is
    not called.  A callback that exits with a non-zero status, or a call
    that raises an [Exception], is printed and [run_callback] returns
    normally. *)
Theorem callback_after_successful_write W cb :
  (forall first others st,
      result_of (store_samples W (first :: others) st) = Ret true ->
      let w := store_samples W (first :: others) st in
      let o := store_and_notify W (Some cb)
                                (FSamples (first :: others)) st in
      events_of o
      = events_of w
        ++ events_of (run_callback W (Some cb) (station_name first)
                                   (state_of w))
      /\ calls_of (events_of o)
         = [callback_args cb (station_name first)])
  /\ (forall samples st,
         (samples = FFalse \/ samples = FSamples []
          \/ exists l, samples = FSamples l
                       /\ result_of (store_samples W l st) <> Ret true) ->
         calls_of (events_of (store_and_notify W (Some cb) samples st))
         = [])
  /\ (forall instance st retcode,
         subprocess_call W (tick st) (callback_args cb instance)
         = Exits retcode ->
         retcode <> 0 ->
         run_callback W (Some cb) instance st
         = (Ret tt, advance st,
            [SubprocessCall (callback_args cb instance);
             Print (MsgCallbackFailedCode cb retcode)]))
  /\ (forall instance st x,
         subprocess_call W (tick st) (callback_args cb instance)
         = CallRaises x ->
         is_Exception x = true ->
         run_callback W (Some cb) instance st
         = (Ret tt, advance st,
            [SubprocessCall (callback_args cb instance);
             Print (MsgCallbackFailedExn cb x)])).
Proof.
  split; [|split; [|split]].
  - intros first others st Hok w o. subst w o.
    rewrite store_and_notify_spec.
    pose proof (store_samples_calls W (first :: others) st) as Hnone.
    destruct (store_samples W (first :: others) st) as [[[[|]|x] st1] t1];
      unfold result_of, state_of, events_of in *; cbn [fst snd] in *;
      try discriminate.
    split; [reflexivity|].
    rewrite calls_of_app, Hnone, run_callback_spec.
    destruct (subprocess_call W (tick st1)
                (callback_args cb (station_name first))) as [retcode|x].
    + cbn. destruct (retcode =? 0); reflexivity.
    + destruct (is_Exception x); reflexivity.
  - intros samples st [->|[->|(l & -> & Hne)]]; [reflexivity|reflexivity|].
    destruct l as [|first others]; [reflexivity|].
    rewrite store_and_notify_spec.
    pose proof (store_samples_calls W (first :: others) st) as Hnone.
    destruct (store_samples W (first :: others) st) as [[[[|]|x] st1] t1];
      unfold result_of, events_of in *; cbn [fst snd] in *.
    + congruence.
    + exact Hnone.
    + exact Hnone.
  - intros instance st retcode Hcall Hrc. rewrite run_callback_spec, Hcall.
    destruct (Z.eqb_spec retcode 0); [contradiction|reflexivity].
  - intros instance st x Hcall Hx. rewrite run_callback_spec, Hcall, Hx.
    reflexivity.
Qed.

Lemma callback_after_successful_write_witness :
  calls_of (events_of
              (store_and_notify demo_world (Some notify_sh)
                 (FSamples [vinga_avg_wind; vinga_gust_wind]) start))
  = [[notify_sh; u "Vinga"]]
  /\ calls_of (events_of
                 (store_and_notify failing_world (Some notify_sh)
                    (FSamples [vinga_avg_wind; vinga_gust_wind]) start))
     = []
  /\ run_callback (world_with_callback (Exits 1)) (Some notify_sh)
                  (Some (u "Vinga")) start
     = (Ret tt, advance start,
        [SubprocessCall [notify_sh; u "Vinga"];
         Print (MsgCallbackFailedCode notify_sh 1)])
  /\ run_callback (world_with_callback (CallRaises OSError))
                  (Some notify_sh) (Some (u "Vinga")) start
     = (Ret tt, advance start,
        [SubprocessCall [notify_sh; u "Vinga"];
         Print (MsgCallbackFailedExn notify_sh OSError)]).
Proof.
  split; [|split; [|split]].
  - exact (proj2 (proj1 (callback_after_successful_write demo_world
                           notify_sh)
                    vinga_avg_wind [vinga_gust_wind] start eq_refl)).
  - apply (proj1 (proj2 (callback_after_successful_write failing_world
                           notify_sh))).
    right. right. exists [vinga_avg_wind; vinga_gust_wind].
    split; [reflexivity|]. vm_compute. discriminate.
  - apply (proj1 (proj2 (proj2 (callback_after_successful_write
                                  (world_with_callback (Exits 1))
                                  notify_sh)))
             (Some (u "Vinga")) start 1 eq_refl).
    discriminate.
  - exact (proj2 (proj2 (proj2 (callback_after_successful_write
                                  (world_with_callback (CallRaises OSError))
                                  notify_sh)))
             (Some (u "Vinga")) start OSError eq_refl eq_refl).
Defined.

(** ** A failed fetch of the latest samples *)

Lemma logs_error_app (t1 t2 : list event) :
  logs_error (t1 ++ t2) = logs_error t1 || logs_error t2.
Proof. unfold logs_error. apply existsb_app. Qed.

Lemma create_sample_logs sid name sunit t v ts :
  logs_error (snd (create_sample sid name sunit t v ts)) = false.
Proof.
  unfold create_sample. destruct (SAMPLE_LUT (t, sunit)); reflexivity.
Qed.

Lemma latest_loop_no_error toupper W sid name elements :
  forall samples st out st' t,
    latest_loop toupper W sid name elements samples st = (Ret out, st', t) ->
    logs_error t = false /\ st' = st.
Proof.
  induction elements as [|e rest IH]; intros samples st out st' t H.
  - simpl in H. inversion H; subst. auto.
  - simpl in H. bind_inv H. bind_inv H.
    apply get_upper_ret in Hm. destruct Hm as [-> ->].
    apply get_tid_ret in Hm0. destruct Hm0 as (-> & -> & _).
    pose proof (create_sample_logs sid name (elem_get e "Enhet") a
                  (elem_get e "Varde") (replace_tzinfo a0 (TZ_CET W))) as Hl.
    destruct (create_sample sid name (elem_get e "Enhet") a
                (elem_get e "Varde") (replace_tzinfo a0 (TZ_CET W)))
      as [sample logged].
    cbn [snd] in Hl. bind_inv H. unfold emit_all in Hm.
    inversion Hm; subst. cbn [app].
    rewrite logs_error_app, Hl. cbn [orb].
    destruct sample as [sample|]; eapply IH; exact H.
Qed.

Lemma fetch_station_latest_success toupper W sid st samples st' t :
  fetch_station_latest toupper W sid st = (Ret (FSamples samples), st', t) ->
  logs_error t = false.
Proof.
  unfold fetch_station_latest. intros H. bind_inv H.
  assert (Ht : logs_error t0 = false).
  { unfold request_latest in Hm.
    destruct (get_latest W (tick st) sid); inversion Hm; reflexivity. }
  bind_inv H. unfold emit in Hm0. inversion Hm0; subst.
  rewrite !logs_error_app, Ht. cbn [logs_error existsb orb].
  destruct (xp_errormsg a) as [|text ?].
  - destruct (xp_name a) as [|name ?].
    + bind_inv H. inversion H.
    + destruct (xp_samples a) as [|e rest].
      * bind_inv H. inversion H.
      * bind_inv H. unfold emit in Hm1. inversion Hm1; subst.
        bind_inv H. inversion H; subst.
        apply latest_loop_no_error in Hm2. destruct Hm2 as [Hl _].
        rewrite !logs_error_app, Hl. reflexivity.
  - bind_inv H. inversion H.
Qed.

(** C7.  When the response to a fetch of the latest samples carries an
    error message, or carries no station name, [fetch_station_latest]
    returns [False]: no sample, the store as it was, an ERROR record in the
    log, and nothing stored or notified by the caller.  The outcome differs
    from that of every successful fetch, which returns a list (empty when
    no measurement is of a known type) and logs no ERROR. *)
Theorem latest_failure_is_total toupper W sid st tree :
  get_latest W (tick st) sid = Parsed tree ->
  xp_errormsg tree <> [] \/ xp_name tree = [] ->
  let o := fetch_station_latest toupper W sid st in
  result_of o = Ret FFalse
  /\ db (state_of o) = db st
  /\ logs_error (events_of o) = true
  /\ (forall callback,
         store_and_notify W callback FFalse (state_of o)
         = (Ret tt, state_of o, []))
  /\ (forall samples, result_of o <> Ret (FSamples samples))
  /\ (forall st2 samples st2' t2,
         fetch_station_latest toupper W sid st2
         = (Ret (FSamples samples), st2', t2) ->
         logs_error t2 = false).
Proof.
  intros Htree Hbad o.
  assert (Ho : result_of o = Ret FFalse /\ db (state_of o) = db st
               /\ logs_error (events_of o) = true).
  { subst o. unfold fetch_station_latest, bind, request_latest.
    rewrite Htree. unfold emit, ret, result_of, state_of, events_of.
    cbn [fst snd].
    destruct (xp_errormsg tree) as [|text ?].
    - destruct Hbad as [Hbad|Hbad]; [contradiction|]. rewrite Hbad.
      cbn. auto.
    - cbn. auto. }
  destruct Ho as (Hr & Hd & Hl).
  repeat split; try assumption.
  - intros samples. rewrite Hr. discriminate.
  - intros st2 samples st2' t2 H.
    eapply fetch_station_latest_success; exact H.
Qed.

Lemma latest_failure_is_total_witness :
  result_of (fetch_station_latest latin1_toupper demo_world 34 start)
  = Ret FFalse
  /\ db (state_of (fetch_station_latest latin1_toupper demo_world 34 start))
     = empty_db
  /\ logs_error
       (events_of (fetch_station_latest latin1_toupper demo_world 34 start))
     = true.
Proof.
  destruct (latest_failure_is_total latin1_toupper demo_world 34 start
              failed_latest eq_refl)
    as (Hr & Hd & Hl & _).
  - left. discriminate.
  - auto.
Defined.

(** ** The station loops *)

Lemma for_each_cons {A : Type} (x : A) (rest : list A) (body : A -> M unit)
      (st : state) :
  for_each (x :: rest) body st
  = match body x st with
    | (Ret _, st1, t1) =>
      let o := for_each rest body st1 in
      (result_of o, state_of o, t1 ++ events_of o)
    | (Raise e, st1, t1) => (Raise e, st1, t1)
    end.
Proof.
  cbn [for_each]. unfold bind.
  destruct (body x st) as [[[a|e] st1] t1]; [|reflexivity].
  unfold result_of, state_of, events_of.
  destruct (for_each rest body st1) as [[r st2] t2]. reflexivity.
Qed.

Lemma latest_loop_state toupper W sid name elements :
  forall samples st,
    state_of (latest_loop toupper W sid name elements samples st) = st.
Proof.
  induction elements as [|e rest IH]; intros samples st; [reflexivity|].
  cbn [latest_loop]. unfold bind, get_upper, get_tid, state_of.
  destruct (elem_get e "Typ") as [typ|]; [|reflexivity].
  destruct (elem_get e "Tid") as [tid|]; [|reflexivity].
  destruct (strptime tid) as [dt|]; [|reflexivity].
  cbn [ret raise fst snd].
  destruct (create_sample sid name (elem_get e "Enhet") (upper toupper typ)
              (elem_get e "Varde") (replace_tzinfo dt (TZ_CET W)))
    as [sample logged].
  unfold emit_all.
  destruct sample as [sample|].
  - specialize (IH (samples ++ [sample]) st). unfold state_of in IH.
    destruct (latest_loop toupper W sid name rest (samples ++ [sample]) st)
      as [[r st2] t2].
    exact IH.
  - specialize (IH samples st). unfold state_of in IH.
    destruct (latest_loop toupper W sid name rest samples st)
      as [[r st2] t2].
    exact IH.
Qed.

Lemma fetch_station_latest_db toupper W sid st :
  db (state_of (fetch_station_latest toupper W sid st)) = db st.
Proof.
  unfold fetch_station_latest, bind, request_latest, state_of.
  destruct (get_latest W (tick st) sid) as [tree|x]; [|reflexivity].
  unfold emit, ret. cbn [fst snd].
  destruct (xp_errormsg tree); [|reflexivity].
  destruct (xp_name tree) as [|name ?]; [reflexivity|].
  destruct (xp_samples tree) as [|e rest]; [reflexivity|].
  cbn [fst snd].
  pose proof (latest_loop_state toupper W sid name (e :: rest) []
                                (advance st)) as Hl.
  unfold state_of in Hl.
  destruct (latest_loop toupper W sid name (e :: rest) [] (advance st))
    as [[[out|x] st2] t2]; cbn [fst snd] in *; subst; reflexivity.
Qed.

Lemma history_loop_state toupper W sid elements :
  forall samples st,
    state_of (history_loop toupper W sid elements samples st) = st.
Proof.
  induction elements as [|e rest IH]; intros samples st; [reflexivity|].
  cbn [history_loop]. unfold bind, get_upper, get_tid, state_of.
  destruct (elem_get e "TypNamn") as [typ|]; [|reflexivity].
  destruct (elem_get e "Tid") as [tid|]; [|reflexivity].
  destruct (strptime tid) as [dt|]; [|reflexivity].
  cbn [ret raise fst snd].
  destruct (create_sample sid (elem_get e "Namn") (elem_get e "Enhet")
              (upper toupper typ) (elem_get e "Data")
              (replace_tzinfo dt (TZ_CET W)))
    as [sample logged].
  unfold emit_all.
  destruct sample as [sample|].
  - specialize (IH (samples ++ [sample]) st). unfold state_of in IH.
    destruct (history_loop toupper W sid rest (samples ++ [sample]) st)
      as [[r st2] t2].
    exact IH.
  - specialize (IH samples st). unfold state_of in IH.
    destruct (history_loop toupper W sid rest samples st) as [[r st2] t2].
    exact IH.
Qed.

Lemma fetch_station_history_db toupper W sid st :
  db (state_of (fetch_station_history toupper W sid st)) = db st.
Proof.
  unfold fetch_station_history, bind, request_history, state_of.
  destruct (get_history W (tick st) sid) as [tree|x]; [|reflexivity].
  unfold emit, ret. cbn [fst snd].
  pose proof (history_loop_state toupper W sid tree [] (advance st)) as Hl.
  unfold state_of in Hl.
  destruct (history_loop toupper W sid tree [] (advance st))
    as [[[out|x] st2] t2]; cbn [fst snd] in *; subst; reflexivity.
Qed.

(** C5, as the code has it.  A station for which the fetch returns
    [False] or an empty list is skipped, the store untouched, and the loop
    goes on with the next station, in poll mode and in sync mode.  An
    exception raised by a fetch is handled nowhere: it ends the station
    loop at that station, so the stations after it are not fetched, and
    it ends the mode, unless it is the [KeyboardInterrupt] that poll mode
    catches. *)
Theorem fetch_failures_in_the_station_loops toupper W callback :
  (forall sid rest st samples st1 t1,
      fetch_station_latest toupper W sid st = (Ret samples, st1, t1) ->
      samples = FFalse \/ samples = FSamples [] ->
      db st1 = db st
      /\ poll_stations toupper W callback (sid :: rest) st
         = (result_of (poll_stations toupper W callback rest st1),
            state_of (poll_stations toupper W callback rest st1),
            t1 ++ events_of (poll_stations toupper W callback rest st1)))
  /\ (forall sid rest st x st1 t1,
         fetch_station_latest toupper W sid st = (Raise x, st1, t1) ->
         poll_stations toupper W callback (sid :: rest) st
         = (Raise x, st1, t1))
  /\ (forall sid rest st st1 t1,
         fetch_station_history toupper W sid st = (Ret [], st1, t1) ->
         db st1 = db st
         /\ sync_stations toupper W callback (sid :: rest) st
            = (result_of (sync_stations toupper W callback rest st1),
               state_of (sync_stations toupper W callback rest st1),
               t1 ++ events_of (sync_stations toupper W callback rest st1)))
  /\ (forall sid rest st x st1 t1,
         fetch_station_history toupper W sid st = (Raise x, st1, t1) ->
         sync_stations toupper W callback (sid :: rest) st
         = (Raise x, st1, t1))
  /\ (forall stations st x,
         result_of (sync_stations toupper W callback stations st) = Raise x ->
         result_of (sync_mode toupper W callback stations st) = Raise x)
  /\ (forall rounds pollrate stations st x,
         result_of (poll_rounds toupper W rounds callback pollrate
                                stations st) = Raise x ->
         is_KeyboardInterrupt x = false ->
         result_of (poll_mode toupper W rounds callback pollrate
                              stations st) = Raise x).
Proof.
  repeat match goal with |- _ /\ _ => split end.
  - intros sid rest st samples st1 t1 Hf Hs. split.
    + pose proof (fetch_station_latest_db toupper W sid st) as Hdb.
      rewrite Hf in Hdb. exact Hdb.
    + unfold poll_stations. rewrite for_each_cons. unfold bind at 1.
      rewrite Hf.
      destruct Hs as [->| ->]; cbn; rewrite app_nil_r; reflexivity.
  - intros sid rest st x st1 t1 Hf.
    unfold poll_stations. rewrite for_each_cons. unfold bind at 1.
    rewrite Hf. reflexivity.
  - intros sid rest st st1 t1 Hf. split.
    + pose proof (fetch_station_history_db toupper W sid st) as Hdb.
      rewrite Hf in Hdb. exact Hdb.
    + unfold sync_stations. rewrite for_each_cons. unfold bind at 1.
      rewrite Hf. cbn. rewrite app_nil_r. reflexivity.
  - intros sid rest st x st1 t1 Hf.
    unfold sync_stations. rewrite for_each_cons. unfold bind at 1.
    rewrite Hf. reflexivity.
  - intros stations st x. unfold sync_mode, bind, emit, result_of.
    cbn [fst snd].
    destruct (sync_stations toupper W callback stations st)
      as [[[a|e] st1] t1]; cbn; [discriminate|]. auto.
  - intros rounds pollrate stations st x.
    unfold poll_mode, bind, emit, try_except, result_of. cbn [fst snd].
    destruct (poll_rounds toupper W rounds callback pollrate stations st)
      as [[[a|e] st1] t1]; cbn; [discriminate|].
    intros H Hk. injection H as ->. rewrite Hk. reflexivity.
Qed.

(** C5, as stated, fails: station 35 cannot be reached, the [URLError]
    of its fetch ends poll mode and sync mode, station 33 after it is
    never fetched and the database is not closed. *)
Lemma unreachable_station_ends_the_run :
  poll_mode latin1_toupper demo_world 1 None 60 [35; 33] start
  = (Raise URLError, mk_state empty_db 2,
     [Log INFO (MsgMonitoring [35; 33]); UrlOpen "GetViVaDataT" 35])
  /\ sync_mode latin1_toupper demo_world None [35; 33] start
     = (Raise URLError, mk_state empty_db 1,
        [Log INFO (MsgSyncing [35; 33]); UrlOpen "GetViVaDataTH" 35]).
Proof. split; vm_compute; reflexivity. Qed.

Lemma fetch_failures_in_the_station_loops_witness :
  db (state_of (fetch_station_latest latin1_toupper demo_world 34 start))
  = db start
  /\ result_of (poll_stations latin1_toupper demo_world (Some notify_sh)
                              [34; 33] start) = Ret tt
  /\ calls_of (events_of (poll_stations latin1_toupper demo_world
                                        (Some notify_sh) [34; 33] start))
     = [[notify_sh; u "Vinga"]]
  /\ poll_stations latin1_toupper demo_world (Some notify_sh) [35; 33] start
     = (Raise URLError, advance start, [UrlOpen "GetViVaDataT" 35])
  /\ result_of (sync_stations latin1_toupper demo_world (Some notify_sh)
                              [34; 33] start) = Ret tt
  /\ sync_stations latin1_toupper demo_world (Some notify_sh) [35; 33] start
     = (Raise URLError, advance start, [UrlOpen "GetViVaDataTH" 35])
  /\ result_of (sync_mode latin1_toupper demo_world (Some notify_sh)
                          [35; 33] start) = Raise URLError
  /\ result_of (poll_mode latin1_toupper demo_world 1 (Some notify_sh) 60
                          [35; 33] start) = Raise URLError.
Proof.
  destruct (fetch_failures_in_the_station_loops latin1_toupper demo_world
              (Some notify_sh))
    as (Hskip & Hraise & Hskip' & Hraise' & Hsync & Hpoll).
  destruct (Hskip 34 [33] start FFalse
              (state_of (fetch_station_latest latin1_toupper demo_world
                                              34 start))
              (events_of (fetch_station_latest latin1_toupper demo_world
                                               34 start))
              eq_refl (or_introl eq_refl)) as [Hdb Hgo].
  split; [exact Hdb|].
  split; [rewrite Hgo; reflexivity|].
  split; [rewrite Hgo; reflexivity|].
  split; [exact (Hraise 35 [33] start URLError (advance start)
                        [UrlOpen "GetViVaDataT" 35] eq_refl)|].
  split.
  { rewrite (proj2 (Hskip' 34 [33] start
                      (state_of (fetch_station_history latin1_toupper
                                                       demo_world 34 start))
                      (events_of (fetch_station_history latin1_toupper
                                                        demo_world 34 start))
                      eq_refl)).
    reflexivity. }
  split; [exact (Hraise' 35 [33] start URLError (advance start)
                         [UrlOpen "GetViVaDataTH" 35] eq_refl)|].
  split; [apply Hsync; reflexivity|].
  apply Hpoll; reflexivity.
Defined.

(** ** The end of a poll round *)

(** C4, as stated, fails when the round takes exactly the interval:
    with stations [33] the round of [demo_world] takes 42 seconds, and
    with a poll rate of 42 the code prints no warning and calls
    [time.sleep] (with 0). *)
Lemma round_as_long_as_the_interval :
  let st1 := state_of (poll_stations latin1_toupper demo_world None [33]
                                     (advance start)) in
  let o := poll_round latin1_toupper demo_world None 42 [33] start in
  (time_time demo_world (tick st1) - time_time demo_world (tick start)
   == inject_Z 42)%Q
  /\ ~ In (Print MsgTookTooLong) (events_of o)
  /\ exists seconds,
      In (TimeSleep seconds) (events_of o) /\ (seconds == 0)%Q.
Proof.
  cbv zeta. split; [vm_compute; reflexivity|]. split.
  - vm_compute. intros H.
    repeat (destruct H as [H|H]; [discriminate H|]). exact H.
  - eexists. split.
    + vm_compute. do 12 right. left. reflexivity.
    + vm_compute. reflexivity.
Qed.

Lemma end_of_round_spec W pollrate t0 t1 st :
  end_of_round W pollrate t0 t1 st
  = if Qlt_le_dec (inject_Z pollrate) (t1 - t0)
    then (Ret tt, st, [Print MsgTookTooLong])
    else
      (if sleep_interrupted W (tick st)
       then Raise KeyboardInterrupt else Ret tt,
       advance st,
       [Log INFO (MsgSleeping (inject_Z pollrate - (t1 - t0)));
        TimeSleep (inject_Z pollrate - (t1 - t0))]).
Proof.
  unfold end_of_round.
  destruct (Qlt_le_dec (inject_Z pollrate) (t1 - t0)); [reflexivity|].
  unfold bind, emit, sleep.
  destruct (sleep_interrupted W (tick st)); reflexivity.
Qed.

(** C4, as the code has it.  For a round whose station loop returns, with
    [T] the time read after the loop minus the time read before it and [I]
    the poll rate: when [T <= I] the round logs and calls [time.sleep]
    with [I - T] (so with 0 when [T = I]) and prints no warning; when
    [I < T] it prints the warning and returns without sleeping. *)
Theorem poll_round_cadence toupper W callback pollrate stations st st1 tr :
  poll_stations toupper W callback stations (advance st)
  = (Ret tt, st1, tr) ->
  let T := (time_time W (tick st1) - time_time W (tick st))%Q in
  let I := inject_Z pollrate in
  ((T <= I)%Q ->
   events_of (poll_round toupper W callback pollrate stations st)
   = tr ++ [Log INFO (MsgSleeping (I - T)%Q); TimeSleep (I - T)%Q])
  /\ ((I < T)%Q ->
      poll_round toupper W callback pollrate stations st
      = (Ret tt, advance st1, tr ++ [Print MsgTookTooLong])).
Proof.
  intros Hloop T I.
  assert (Hround :
            poll_round toupper W callback pollrate stations st
            = let o := end_of_round W pollrate (time_time W (tick st))
                                    (time_time W (tick st1)) (advance st1) in
              (result_of o, state_of o, tr ++ events_of o)).
  { unfold poll_round, bind at 1, read_time. cbn [fst snd].
    unfold bind at 1. rewrite Hloop. unfold bind at 1. cbn [fst snd].
    unfold result_of, state_of, events_of.
    destruct (end_of_round W pollrate (time_time W (tick st))
                (time_time W (tick st1)) (advance st1)) as [[r st2] t2].
    reflexivity. }
  rewrite Hround, end_of_round_spec. cbv zeta. fold T. fold I.
  destruct (Qlt_le_dec I T) as [Hlt|Hle]; split.
  - intros Hle. exfalso. exact (Qlt_not_le _ _ Hlt Hle).
  - intros _. reflexivity.
  - intros _. reflexivity.
  - intros Hlt. exfalso. exact (Qlt_not_le _ _ Hlt Hle).
Qed.

Lemma poll_round_cadence_witness :
  let st1 := state_of (poll_stations latin1_toupper demo_world None [33]
                                     (advance start)) in
  let tr := events_of (poll_stations latin1_toupper demo_world None [33]
                                     (advance start)) in
  let T := (time_time demo_world (tick st1)
            - time_time demo_world (tick start))%Q in
  (T == inject_Z 42)%Q
  /\ events_of (poll_round latin1_toupper demo_world None 60 [33] start)
     = tr ++ [Log INFO (MsgSleeping (inject_Z 60 - T)%Q);
              TimeSleep (inject_Z 60 - T)%Q]
  /\ poll_round latin1_toupper demo_world None 30 [33] start
     = (Ret tt, advance st1, tr ++ [Print MsgTookTooLong]).
Proof.
  cbv zeta. split; [vm_compute; reflexivity|]. split.
  - apply (proj1 (poll_round_cadence latin1_toupper demo_world None 60
                    [33] start _ _ eq_refl)).
    vm_compute. discriminate.
  - apply (proj2 (poll_round_cadence latin1_toupper demo_world None 30
                    [33] start _ _ eq_refl)).
    vm_compute. reflexivity.
Defined.

(** ** A poll over the concrete world *)

(** Two rounds over stations 34 and 33: station 34 fails and is skipped,
    the two known measurements of station 33 are stored by the first
    round, with the hour of CET taken off, and the second round adds no
    row. *)
Example two_rounds_store_once :
  db (state_of (poll_rounds latin1_toupper demo_world 2 (Some notify_sh)
                            60 [34; 33] start))
  = mk_connection
      [vinga_avg_wind_row 1398934803; vinga_gust_wind_row 1398934805] []
  /\ calls_of (events_of (poll_rounds latin1_toupper demo_world 2
                                      (Some notify_sh) 60 [34; 33] start))
     = [[notify_sh; u "Vinga"]; [notify_sh; u "Vinga"]].
Proof. split; vm_compute; reflexivity. Qed.

(** * Further properties *)

(** ** The table under [store_samples] *)

Lemma same_key_sym (a b : row) : same_key a b = same_key b a.
Proof.
  unfold same_key. rewrite (Z.eqb_sym (r_station_id a)),
    (Z.eqb_sym (r_sample_tstamp a)), (String.eqb_sym (r_sample_type a)).
  reflexivity.
Qed.

Lemma distinct_keys_snoc (l : list row) (r : row) :
  distinct_keys (l ++ [r])
  = distinct_keys l && negb (existsb (same_key r) l).
Proof.
  induction l as [|a l IH]; [reflexivity|].
  cbn [app distinct_keys existsb]. rewrite IH, existsb_app. cbn [existsb].
  rewrite (same_key_sym r a).
  destruct (existsb (same_key a) l), (same_key a r), (distinct_keys l),
    (existsb (same_key r) l); reflexivity.
Qed.

Lemma distinct_keys_prefix (l l' : list row) :
  distinct_keys (l ++ l') = true -> distinct_keys l = true.
Proof.
  induction l as [|a l IH]; [reflexivity|].
  cbn [app distinct_keys]. rewrite existsb_app, !andb_true_iff.
  intros [Ha Hl]. split; [|exact (IH Hl)].
  destruct (existsb (same_key a) l); [discriminate Ha|reflexivity].
Qed.

Lemma insert_or_ignore_distinct (r : row) (c : connection) :
  distinct_keys (rows c) = true ->
  distinct_keys (rows (insert_or_ignore r c)) = true.
Proof.
  unfold insert_or_ignore.
  destruct (existsb (same_key r) (rows c)) eqn:E; [auto|].
  unfold rows in *. cbn [committed pending]. rewrite app_assoc.
  rewrite distinct_keys_snoc, E. intros ->. reflexivity.
Qed.

Lemma insert_or_ignore_extends (r : row) (c : connection) :
  exists added,
    rows (insert_or_ignore r c) = rows c ++ added
    /\ committed (insert_or_ignore r c) = committed c.
Proof.
  unfold insert_or_ignore.
  destruct (existsb (same_key r) (rows c)).
  - exists []. rewrite app_nil_r. auto.
  - exists [r]. unfold rows. cbn [committed pending].
    rewrite app_assoc. auto.
Qed.

(** What [store_samples] leaves: the rows the connection saw before,
    followed by rows it added, or, after a ROLLBACK, the committed rows. *)
Lemma store_samples_rows W samples :
  forall st,
    let o := store_samples W samples st in
    committed (db (state_of o)) = committed (db st) /\
    (exists added, rows (db (state_of o)) = rows (db st) ++ added)
    \/ (result_of o = Ret true /\
        exists added,
          rows (db (state_of o)) = rows (db st) ++ added
          /\ committed (db (state_of o)) = rows (db st) ++ added
          /\ pending (db (state_of o)) = [])
    \/ (result_of o = Ret false /\
        db (state_of o) = mk_connection (committed (db st)) []).
Proof.
  induction samples as [|sample rest IH]; intros st.
  - right. left. split; [reflexivity|]. exists []. cbn.
    unfold rows at 1. cbn. rewrite !app_nil_r. auto.
  - cbv zeta. rewrite store_samples_cons.
    pose proof (store_single_sample_cases W sample st) as Hs.
    cbv zeta in Hs.
    destruct (store_single_sample W sample st) as [[[[|]|x] st1] t1];
      unfold result_of, state_of in *; cbn [fst snd] in *.
    + destruct Hs as [(now & seconds & _ & _ & Hdb)|[Hne _]]; [|congruence].
      destruct (insert_or_ignore_extends
                  (mk_row (station_id sample) (station_name sample) now
                          seconds (stype sample) (svalue sample)) (db st))
        as (added1 & Hrows & Hcomm).
      rewrite <- Hdb in Hrows, Hcomm.
      destruct (IH st1) as [[Hc (added & Hr)]|[(Ht & added & Hr & Hc & Hp)
                                              |(Hf & Hd)]];
        unfold result_of, state_of in *.
      * left. split; [congruence|]. exists (added1 ++ added).
        rewrite Hr, Hrows, app_assoc. reflexivity.
      * right. left. split; [exact Ht|]. exists (added1 ++ added).
        rewrite Hr, Hc, Hrows, !app_assoc. auto.
      * right. right. split; [exact Hf|]. rewrite Hd, Hcomm. reflexivity.
    + right. right. split; [reflexivity|].
      destruct Hs as [(now & seconds & _ & Hr & _)|[_ Hdb]];
        [discriminate|].
      cbn. rewrite Hdb. reflexivity.
    + left. destruct Hs as [(now & seconds & _ & Hr & _)|[_ Hdb]];
        [discriminate|].
      rewrite Hdb. split; [reflexivity|]. exists []. rewrite app_nil_r.
      reflexivity.
Qed.

Lemma store_single_sample_distinct W sample st :
  distinct_keys (rows (db st)) = true ->
  distinct_keys (rows (db (state_of (store_single_sample W sample st))))
  = true.
Proof.
  intros Hd. destruct (store_single_sample_cases W sample st)
    as [(now & seconds & _ & _ & Hdb)|[_ Hdb]]; rewrite Hdb.
  - apply insert_or_ignore_distinct. exact Hd.
  - exact Hd.
Qed.

Lemma store_samples_distinct W samples :
  forall st,
    distinct_keys (rows (db st)) = true ->
    distinct_keys (rows (db (state_of (store_samples W samples st))))
    = true.
Proof.
  induction samples as [|sample rest IH]; intros st Hd.
  - cbn. unfold rows at 1. cbn. rewrite app_nil_r. exact Hd.
  - rewrite store_samples_cons.
    pose proof (store_single_sample_distinct W sample st Hd) as Hs.
    destruct (store_single_sample W sample st) as [[[[|]|x] st1] t1];
      unfold state_of in *; cbn [fst snd] in *.
    + apply IH. exact Hs.
    + unfold rows in *. cbn [db committed pending]. rewrite app_nil_r.
      eapply distinct_keys_prefix. exact Hs.
    + exact Hs.
Qed.

Lemma store_samples_extends_committed W samples st :
  exists added,
    rows (db (state_of (store_samples W samples st)))
    = committed (db st) ++ added.
Proof.
  destruct (store_samples_rows W samples st)
    as [[_ (added & Hr)]|[(_ & added & Hr & _)|(_ & Hd)]].
  - exists (pending (db st) ++ added). rewrite Hr. unfold rows.
    rewrite app_assoc. reflexivity.
  - exists (pending (db st) ++ added). rewrite Hr. unfold rows.
    rewrite app_assoc. reflexivity.
  - exists []. rewrite Hd. reflexivity.
Qed.

(** X1.  [store_samples] keeps the table free of duplicate keys: when no
    two rows the connection sees share (station_id, sample_tstamp,
    sample_type), none do afterwards, whatever the batch holds and however
    the call ends. *)
Theorem store_samples_keeps_keys_distinct W samples st :
  distinct_keys (rows (db st)) = true ->
  distinct_keys (rows (db (state_of (store_samples W samples st)))) = true.
Proof. apply store_samples_distinct. Qed.

Lemma store_samples_keeps_keys_distinct_witness :
  distinct_keys (rows (db stored_once)) = true
  /\ distinct_keys
       (rows (db (state_of
                    (store_samples failing_world
                       [vinga_avg_wind_revised; vinga_gust_wind]
                       stored_once)))) = true.
Proof.
  split; [reflexivity|].
  apply (store_samples_keeps_keys_distinct failing_world
           [vinga_avg_wind_revised; vinga_gust_wind] stored_once).
  reflexivity.
Defined.

(** X2.  [store_samples] never removes or alters a committed row: however
    the call ends, the rows the connection sees afterwards are the rows
    committed before, in their order, followed by further rows. *)
Theorem store_samples_keeps_committed_rows W samples st :
  exists added,
    rows (db (state_of (store_samples W samples st)))
    = committed (db st) ++ added.
Proof. apply store_samples_extends_committed. Qed.

Lemma distinct_keys_same_key (l : list row) (r r' : row) :
  distinct_keys l = true ->
  In r l -> In r' l -> same_key r r' = true -> r' = r.
Proof.
  induction l as [|a l IH]; [contradiction|].
  cbn [distinct_keys]. rewrite andb_true_iff. intros [Ha Hl] Hr Hr' Hk.
  assert (Hno : forall x, In x l -> same_key a x = false).
  { intros x Hx. destruct (same_key a x) eqn:E; [|reflexivity].
    assert (existsb (same_key a) l = true)
      by (apply existsb_exists; eauto).
    rewrite H in Ha. discriminate Ha. }
  destruct Hr as [->|Hr], Hr' as [->|Hr'].
  - reflexivity.
  - rewrite (Hno _ Hr') in Hk. discriminate.
  - rewrite same_key_sym, (Hno _ Hr) in Hk. discriminate.
  - exact (IH Hl Hr Hr' Hk).
Qed.

(** X3.  The first value stored for a key stays: in a table without
    duplicate keys, a committed row is, after any [store_samples], still
    the only row with its (station_id, sample_tstamp, sample_type), so a
    sample that reports another value for a stored instant changes
    nothing. *)
Theorem stored_value_is_never_replaced W samples st r r' :
  distinct_keys (rows (db st)) = true ->
  In r (committed (db st)) ->
  In r' (rows (db (state_of (store_samples W samples st)))) ->
  same_key r r' = true ->
  r' = r.
Proof.
  intros Hd Hr Hr' Hk.
  pose proof (store_samples_distinct W samples st Hd) as Hd'.
  destruct (store_samples_extends_committed W samples st)
    as (added & Hrows).
  eapply distinct_keys_same_key; [exact Hd'| |exact Hr'|exact Hk].
  rewrite Hrows. apply in_or_app. left. exact Hr.
Qed.

Lemma stored_value_is_never_replaced_witness :
  distinct_keys (rows (db stored_once)) = true
  /\ In (vinga_avg_wind_row 1398934800) (committed (db stored_once))
  /\ rows (db (state_of (store_samples demo_world [vinga_avg_wind_revised]
                                       stored_once)))
     = [vinga_avg_wind_row 1398934800; vinga_gust_wind_row 1398934802]
  /\ forall r',
      In r' (rows (db (state_of
                         (store_samples demo_world [vinga_avg_wind_revised]
                                        stored_once)))) ->
      same_key (vinga_avg_wind_row 1398934800) r' = true ->
      r' = vinga_avg_wind_row 1398934800.
Proof.
  split; [reflexivity|]. split; [left; reflexivity|].
  split; [reflexivity|].
  intros r'.
  apply (stored_value_is_never_replaced demo_world [vinga_avg_wind_revised]
           stored_once (vinga_avg_wind_row 1398934800) r').
  - reflexivity.
  - left. reflexivity.
Defined.

(** ** The statements of a write *)

Lemma executes_of_app (t1 t2 : list event) :
  executes_of (t1 ++ t2) = executes_of t1 ++ executes_of t2.
Proof.
  induction t1 as [|e t1 IH]; [reflexivity|].
  destruct e; cbn; rewrite IH; reflexivity.
Qed.

Lemma commits_of_app (t1 t2 : list event) :
  commits_of (t1 ++ t2) = (commits_of t1 + commits_of t2)%nat.
Proof.
  induction t1 as [|e t1 IH]; [reflexivity|].
  destruct e; cbn; rewrite IH; reflexivity.
Qed.

Lemma store_single_sample_statements W sample st :
  let o := store_single_sample W sample st in
  commits_of (events_of o) = O
  /\ ~ In Commit (events_of o)
  /\ (result_of o = Ret true ->
      exists parameters,
        executes_of (events_of o) = [parameters]
        /\ row_of_sample sample parameters).
Proof.
  unfold store_single_sample, bind, emit, now_timegm, sample_timegm,
    execute_insert, ret, raise, result_of, events_of, advance,
    row_of_sample.
  destruct (timegm (utctimetuple (ststamp sample))) as [seconds|] eqn:Hts;
    cbn [tick db fst snd].
  - match goal with
    | |- context [cursor_execute W ?n ?p] => destruct (cursor_execute W n p)
    end; cbn; (split; [reflexivity|]); split;
      try (intros H; repeat (destruct H as [H|H]; [discriminate H|]);
           exact H);
      try discriminate.
    intros _. eexists. split; [reflexivity|]. cbn. auto.
  - cbn. split; [reflexivity|]. split; [|discriminate].
    intros [H|H]; [discriminate H|exact H].
Qed.

Lemma store_samples_statements W samples :
  forall st,
    result_of (store_samples W samples st) = Ret true ->
    Forall2 row_of_sample samples
            (executes_of (events_of (store_samples W samples st)))
    /\ commits_of (events_of (store_samples W samples st)) = 1%nat
    /\ exists before,
        events_of (store_samples W samples st) = before ++ [Commit]
        /\ ~ In Commit before.
Proof.
  induction samples as [|sample rest IH]; intros st.
  - intros _. cbn. split; [constructor|]. split; [reflexivity|].
    exists []. split; [reflexivity|]. intros [].
  - rewrite store_samples_cons.
    pose proof (store_single_sample_statements W sample st) as Hs.
    cbv zeta in Hs.
    destruct (store_single_sample W sample st) as [[[[|]|x] st1] t1];
      unfold result_of, events_of in *; cbn [fst snd] in *;
      try discriminate.
    intros Hok. destruct Hs as (Hc & Hnc & Hex).
    destruct (Hex eq_refl) as (p & Hp & Hrow).
    destruct (IH st1 Hok) as (Hall & Hcommit & before & Hev & Hnb).
    rewrite executes_of_app, commits_of_app, Hp, Hc, Hcommit.
    split; [constructor; assumption|]. split; [reflexivity|].
    exists (t1 ++ before). rewrite Hev, app_assoc. split; [reflexivity|].
    intros Hin. apply in_app_or in Hin. tauto.
Qed.

(** X4.  A write that returns [True] executes exactly one INSERT for each
    sample, in the order of the list and with the sample's station, name,
    type, value and UTC time stamp as parameters, and commits once, as its
    last action. *)
Theorem successful_write_is_one_insert_each W samples st :
  result_of (store_samples W samples st) = Ret true ->
  Forall2 row_of_sample samples
          (executes_of (events_of (store_samples W samples st)))
  /\ commits_of (events_of (store_samples W samples st)) = 1%nat
  /\ exists before,
      events_of (store_samples W samples st) = before ++ [Commit]
      /\ ~ In Commit before.
Proof. apply store_samples_statements. Qed.

Lemma successful_write_is_one_insert_each_witness :
  result_of (store_samples demo_world [vinga_avg_wind; vinga_gust_wind]
                           start) = Ret true
  /\ executes_of (events_of (store_samples demo_world
                               [vinga_avg_wind; vinga_gust_wind] start))
     = [vinga_avg_wind_row 1398934800; vinga_gust_wind_row 1398934802]
  /\ commits_of (events_of (store_samples demo_world
                              [vinga_avg_wind; vinga_gust_wind] start))
     = 1%nat.
Proof.
  split; [reflexivity|]. split; [reflexivity|].
  exact (proj1 (proj2 (successful_write_is_one_insert_each demo_world
                         [vinga_avg_wind; vinga_gust_wind] start
                         eq_refl))).
Defined.

(** ** What the fetch loops return *)

Lemma latest_loop_cons toupper W sid name e rest samples st :
  latest_loop toupper W sid name (e :: rest) samples st
  = match read_element toupper W "Typ" e with
    | Raise x => (Raise x, st, [])
    | Ret (t, ts) =>
      let o := latest_loop toupper W sid name rest
                 (samples ++ latest_sample toupper W sid name e) st in
      (result_of o, state_of o,
       snd (create_sample sid name (elem_get e "Enhet") t
                          (elem_get e "Varde") ts)
       ++ events_of o)
    end.
Proof.
  cbn [latest_loop]. unfold latest_sample, read_element, bind, get_upper,
    get_tid, result_of, state_of, events_of.
  destruct (elem_get e "Typ") as [typ|]; [|reflexivity].
  destruct (elem_get e "Tid") as [tid|]; [|reflexivity].
  destruct (strptime tid) as [dt|]; [|reflexivity].
  cbn [ret raise fst snd].
  destruct (create_sample sid name (elem_get e "Enhet") (upper toupper typ)
              (elem_get e "Varde") (replace_tzinfo dt (TZ_CET W)))
    as [sample logged].
  unfold emit_all. cbn [fst snd app].
  destruct sample as [sample|].
  - destruct (latest_loop toupper W sid name rest (samples ++ [sample]) st)
      as [[r st2] t2]. reflexivity.
  - rewrite app_nil_r.
    destruct (latest_loop toupper W sid name rest samples st)
      as [[r st2] t2]. reflexivity.
Qed.

Lemma history_loop_cons toupper W sid e rest samples st :
  history_loop toupper W sid (e :: rest) samples st
  = match read_element toupper W "TypNamn" e with
    | Raise x => (Raise x, st, [])
    | Ret (t, ts) =>
      let o := history_loop toupper W sid rest
                 (samples ++ history_sample toupper W sid e) st in
      (result_of o, state_of o,
       snd (create_sample sid (elem_get e "Namn") (elem_get e "Enhet") t
                          (elem_get e "Data") ts)
       ++ events_of o)
    end.
Proof.
  cbn [history_loop]. unfold history_sample, read_element, bind, get_upper,
    get_tid, result_of, state_of, events_of.
  destruct (elem_get e "TypNamn") as [typ|]; [|reflexivity].
  destruct (elem_get e "Tid") as [tid|]; [|reflexivity].
  destruct (strptime tid) as [dt|]; [|reflexivity].
  cbn [ret raise fst snd].
  destruct (create_sample sid (elem_get e "Namn") (elem_get e "Enhet")
              (upper toupper typ) (elem_get e "Data")
              (replace_tzinfo dt (TZ_CET W)))
    as [sample logged].
  unfold emit_all. cbn [fst snd app].
  destruct sample as [sample|].
  - destruct (history_loop toupper W sid rest (samples ++ [sample]) st)
      as [[r st2] t2]. reflexivity.
  - rewrite app_nil_r.
    destruct (history_loop toupper W sid rest samples st)
      as [[r st2] t2]. reflexivity.
Qed.

Lemma latest_loop_result toupper W sid name elements :
  forall samples st,
    result_of (latest_loop toupper W sid name elements samples st)
    = if forallb (well_formed toupper W "Typ") elements
      then Ret (samples
                ++ flat_map (latest_sample toupper W sid name) elements)
      else match find (fun e => negb (well_formed toupper W "Typ" e))
                      elements with
           | Some e =>
             match read_element toupper W "Typ" e with
             | Raise x => Raise x
             | Ret _ => Ret []
             end
           | None => Ret []
           end.
Proof.
  induction elements as [|e rest IH]; intros samples st.
  - cbn. rewrite app_nil_r. reflexivity.
  - rewrite latest_loop_cons. cbn [forallb find flat_map].
    unfold well_formed at 1 3.
    destruct (read_element toupper W "Typ" e) as [[t ts]|x] eqn:E.
    + cbn [andb negb]. unfold result_of at 1. cbn [fst].
      fold (result_of (latest_loop toupper W sid name rest
                         (samples ++ latest_sample toupper W sid name e) st)).
      rewrite IH, <- app_assoc. reflexivity.
    + cbn [andb negb]. rewrite E. reflexivity.
Qed.

Lemma history_loop_result toupper W sid elements :
  forall samples st,
    result_of (history_loop toupper W sid elements samples st)
    = if forallb (well_formed toupper W "TypNamn") elements
      then Ret (samples ++ flat_map (history_sample toupper W sid) elements)
      else match find (fun e => negb (well_formed toupper W "TypNamn" e))
                      elements with
           | Some e =>
             match read_element toupper W "TypNamn" e with
             | Raise x => Raise x
             | Ret _ => Ret []
             end
           | None => Ret []
           end.
Proof.
  induction elements as [|e rest IH]; intros samples st.
  - cbn. rewrite app_nil_r. reflexivity.
  - rewrite history_loop_cons. cbn [forallb find flat_map].
    unfold well_formed at 1 3.
    destruct (read_element toupper W "TypNamn" e) as [[t ts]|x] eqn:E.
    + cbn [andb negb]. unfold result_of at 1. cbn [fst].
      fold (result_of (history_loop toupper W sid rest
                         (samples ++ history_sample toupper W sid e) st)).
      rewrite IH, <- app_assoc. reflexivity.
    + cbn [andb negb]. rewrite E. reflexivity.
Qed.

Lemma fetch_station_latest_spec toupper W sid st :
  fetch_station_latest toupper W sid st
  = match get_latest W (tick st) sid with
    | HttpRaises x => (Raise x, advance st, [UrlOpen "GetViVaDataT" sid])
    | Parsed tree =>
      match xp_errormsg tree with
      | text :: _ =>
        (Ret FFalse, advance st,
         [UrlOpen "GetViVaDataT" sid; Log DEBUG MsgTree;
          Log ERROR (MsgErrorFor sid text)])
      | [] =>
        match xp_name tree with
        | [] =>
          (Ret FFalse, advance st,
           [UrlOpen "GetViVaDataT" sid; Log DEBUG MsgTree;
            Log ERROR (MsgNoLocationName sid)])
        | name :: _ =>
          match xp_samples tree with
          | [] =>
            (Ret FFalse, advance st,
             [UrlOpen "GetViVaDataT" sid; Log DEBUG MsgTree;
              Log ERROR (MsgNoSamplesFound name sid)])
          | e :: rest =>
            let o := latest_loop toupper W sid name (e :: rest) []
                                 (advance st) in
            (match result_of o with
             | Ret samples => Ret (FSamples samples)
             | Raise x => Raise x
             end,
             state_of o,
             [UrlOpen "GetViVaDataT" sid; Log DEBUG MsgTree;
              Log INFO (MsgRetrieved (List.length (e :: rest)) name sid)]
             ++ events_of o)
          end
        end
      end
    end.
Proof.
  unfold fetch_station_latest, bind, request_latest.
  destruct (get_latest W (tick st) sid) as [tree|x]; [|reflexivity].
  unfold emit, ret. cbn [fst snd app].
  destruct (xp_errormsg tree); [|reflexivity].
  destruct (xp_name tree) as [|name ?]; [reflexivity|].
  destruct (xp_samples tree) as [|e rest]; [reflexivity|].
  cbv zeta. unfold result_of, state_of, events_of.
  destruct (latest_loop toupper W sid name (e :: rest) [] (advance st))
    as [[[out|x] st2] t2]; cbn; rewrite ?app_nil_r; reflexivity.
Qed.

Lemma fetch_station_history_spec toupper W sid st :
  fetch_station_history toupper W sid st
  = match get_history W (tick st) sid with
    | HttpRaises x => (Raise x, advance st, [UrlOpen "GetViVaDataTH" sid])
    | Parsed elements =>
      let o := history_loop toupper W sid elements [] (advance st) in
      match result_of o with
      | Ret samples =>
        (Ret samples, state_of o,
         [UrlOpen "GetViVaDataTH" sid; Log DEBUG MsgTree] ++ events_of o
         ++ [Log INFO (MsgFound (List.length samples) 0 sid)])
      | Raise x =>
        (Raise x, state_of o,
         [UrlOpen "GetViVaDataTH" sid; Log DEBUG MsgTree] ++ events_of o)
      end
    end.
Proof.
  unfold fetch_station_history, bind, request_history.
  destruct (get_history W (tick st) sid) as [elements|x]; [|reflexivity].
  unfold emit, ret. cbn [fst snd app].
  cbv zeta. unfold result_of, state_of, events_of.
  destruct (history_loop toupper W sid elements [] (advance st))
    as [[[out|x] st2] t2]; cbn; rewrite ?app_nil_r; reflexivity.
Qed.

Lemma malformed_found toupper W typ elements :
  forallb (well_formed toupper W typ) elements = false ->
  exists e x,
    find (fun e => negb (well_formed toupper W typ e)) elements = Some e
    /\ read_element toupper W typ e = Raise x
    /\ (x = AttributeError \/ x = TypeError \/ x = ValueError).
Proof.
  induction elements as [|e rest IH]; [discriminate|].
  cbn [forallb find].
  destruct (well_formed toupper W typ e) eqn:E; cbn [andb negb].
  - exact IH.
  - intros _. exists e. unfold well_formed, read_element in *.
    destruct (elem_get e typ) as [t|]; [|eauto].
    destruct (elem_get e "Tid") as [tid|]; [|eauto 6].
    destruct (strptime tid); [cbn in E; discriminate E|eauto 6].
Qed.

Lemma fetch_samples_flat_map toupper W sid st :
  (forall tree samples,
      get_latest W (tick st) sid = Parsed tree ->
      result_of (fetch_station_latest toupper W sid st)
      = Ret (FSamples samples) ->
      samples
      = flat_map (latest_sample toupper W sid (hd None (xp_name tree)))
                 (xp_samples tree))
  /\ (forall elements samples,
         get_history W (tick st) sid = Parsed elements ->
         result_of (fetch_station_history toupper W sid st) = Ret samples ->
         samples = flat_map (history_sample toupper W sid) elements).
Proof.
  split.
  - intros tree samples Htree. rewrite fetch_station_latest_spec, Htree.
    destruct (xp_errormsg tree); [|discriminate].
    destruct (xp_name tree) as [|name ?]; [discriminate|].
    destruct (xp_samples tree) as [|e rest]; [discriminate|].
    cbv zeta. unfold result_of at 1. cbn [fst hd].
    rewrite latest_loop_result.
    destruct (forallb (well_formed toupper W "Typ") (e :: rest)) eqn:Hwf.
    + intros H. injection H as <-. reflexivity.
    + destruct (malformed_found _ _ _ _ Hwf) as (e' & x & -> & -> & _).
      discriminate.
  - intros elements samples Htree. rewrite fetch_station_history_spec, Htree.
    cbv zeta. rewrite history_loop_result.
    destruct (forallb (well_formed toupper W "TypNamn") elements) eqn:Hwf.
    + unfold result_of. cbn [fst]. intros H. injection H as <-.
      reflexivity.
    + destruct (malformed_found _ _ _ _ Hwf) as (e' & x & -> & -> & _).
      discriminate.
Qed.

(** X5.  A fetch of the latest samples that returns a list returns, in
    the order of the response, the samples of the measurements whose
    (type, unit) pair is in the table, and nothing else: one sample for
    each such [ViVaDataT] element, none for the others.  The same holds
    for the [ViVaPoint] elements of a history. *)
Theorem fetch_returns_known_measurements_in_order toupper W sid st :
  (forall tree samples,
      get_latest W (tick st) sid = Parsed tree ->
      result_of (fetch_station_latest toupper W sid st)
      = Ret (FSamples samples) ->
      samples
      = flat_map (latest_sample toupper W sid (hd None (xp_name tree)))
                 (xp_samples tree))
  /\ (forall elements samples,
         get_history W (tick st) sid = Parsed elements ->
         result_of (fetch_station_history toupper W sid st) = Ret samples ->
         samples = flat_map (history_sample toupper W sid) elements).
Proof. apply fetch_samples_flat_map. Qed.

Lemma fetch_returns_known_measurements_in_order_witness :
  result_of (fetch_station_latest latin1_toupper demo_world 33 start)
  = Ret (FSamples (flat_map (latest_sample latin1_toupper demo_world 33
                                           (Some (u "Vinga")))
                            (xp_samples vinga_latest)))
  /\ result_of (fetch_station_history latin1_toupper demo_world 33 start)
     = Ret (flat_map (history_sample latin1_toupper demo_world 33) vinga_history).
Proof.
  destruct (fetch_returns_known_measurements_in_order latin1_toupper
              demo_world 33 start) as [Hl Hh].
  split.
  - exact (f_equal (fun l => Ret (FSamples l))
                   (Hl vinga_latest [vinga_avg_wind; vinga_gust_wind]
                       eq_refl eq_refl)).
  - exact (f_equal (fun l => Ret l)
                   (Hh vinga_history
                       (flat_map (history_sample latin1_toupper demo_world 33)
                                 vinga_history)
                       eq_refl eq_refl)).
Defined.

(** X6.  One measurement that cannot be read loses the whole response:
    when an element has no type name, no [Tid], or a [Tid] that is no
    date and time, the fetch raises [AttributeError], [TypeError] or
    [ValueError] and returns no sample, not even those of the elements
    before it. *)
Theorem unreadable_measurement_fails_the_fetch toupper W sid st :
  (forall tree,
      get_latest W (tick st) sid = Parsed tree ->
      xp_errormsg tree = [] -> xp_name tree <> [] ->
      forallb (well_formed toupper W "Typ") (xp_samples tree) = false ->
      exists x,
        result_of (fetch_station_latest toupper W sid st) = Raise x
        /\ (x = AttributeError \/ x = TypeError \/ x = ValueError))
  /\ (forall elements,
         get_history W (tick st) sid = Parsed elements ->
         forallb (well_formed toupper W "TypNamn") elements = false ->
         exists x,
           result_of (fetch_station_history toupper W sid st) = Raise x
           /\ (x = AttributeError \/ x = TypeError \/ x = ValueError)).
Proof.
  split.
  - intros tree Htree Herr Hname Hwf.
    rewrite fetch_station_latest_spec, Htree, Herr.
    destruct (xp_name tree) as [|name ?]; [contradiction|].
    destruct (xp_samples tree) as [|e rest]; [discriminate|].
    cbv zeta. unfold result_of at 1. cbn [fst].
    rewrite latest_loop_result, Hwf.
    destruct (malformed_found _ _ _ _ Hwf) as (e' & x & -> & -> & Hx).
    exists x. auto.
  - intros elements Htree Hwf.
    rewrite fetch_station_history_spec, Htree. cbv zeta.
    rewrite history_loop_result, Hwf.
    destruct (malformed_found _ _ _ _ Hwf) as (e' & x & -> & -> & Hx).
    exists x. auto.
Qed.

Lemma unreadable_measurement_fails_the_fetch_witness :
  result_of (fetch_station_latest latin1_toupper
               (world_with_latest garbled_latest) 33 start)
  = Raise ValueError.
Proof.
  destruct (proj1 (unreadable_measurement_fails_the_fetch latin1_toupper
                     (world_with_latest garbled_latest) 33 start)
              garbled_latest eq_refl eq_refl)
    as (x & Hx & _).
  - discriminate.
  - reflexivity.
  - rewrite Hx. vm_compute in Hx. symmetry. exact Hx.
Defined.

(** X7.  When the transport succeeds, [fetch_station_latest] returns
    [False] in exactly three cases: the response has an error message, it
    has no station name, or it has no measurement element; in each of them
    an ERROR record is logged.  A response with measurements, none of a
    known type, gives the empty list, not [False]. *)
Theorem latest_returns_false_exactly_when toupper W sid st tree :
  get_latest W (tick st) sid = Parsed tree ->
  (result_of (fetch_station_latest toupper W sid st) = Ret FFalse
   <-> xp_errormsg tree <> [] \/ xp_name tree = []
       \/ xp_samples tree = [])
  /\ (result_of (fetch_station_latest toupper W sid st) = Ret FFalse ->
      logs_error (events_of (fetch_station_latest toupper W sid st))
      = true).
Proof.
  intros Htree. rewrite fetch_station_latest_spec, Htree.
  destruct (xp_errormsg tree) as [|text ?].
  - destruct (xp_name tree) as [|name ?].
    + split; [|reflexivity]. split; auto.
    + destruct (xp_samples tree) as [|e rest].
      * split; [|reflexivity]. split; auto.
      * cbv zeta. unfold result_of at 1 3. cbn [fst]. split.
        -- split.
           ++ destruct (result_of (latest_loop toupper W sid name (e :: rest)
                                               [] (advance st)));
                discriminate.
           ++ intros [H|[H|H]]; [contradiction|discriminate|discriminate].
        -- destruct (result_of (latest_loop toupper W sid name (e :: rest)
                                            [] (advance st)));
             discriminate.
  - split; [|reflexivity]. split; [|reflexivity].
    intros _. left. discriminate.
Qed.

Lemma latest_returns_false_exactly_when_witness :
  result_of (fetch_station_latest latin1_toupper
               (world_with_latest silent_latest) 33 start) = Ret FFalse
  /\ logs_error (events_of (fetch_station_latest latin1_toupper
                              (world_with_latest silent_latest) 33 start))
     = true.
Proof.
  destruct (latest_returns_false_exactly_when latin1_toupper
              (world_with_latest silent_latest) 33 start silent_latest
              eq_refl) as [Hiff Hlog].
  assert (H : result_of (fetch_station_latest latin1_toupper
                           (world_with_latest silent_latest) 33 start)
              = Ret FFalse).
  { apply Hiff. right. right. reflexivity. }
  split; [exact H|exact (Hlog H)].
Defined.

Lemma latest_sample_station toupper W sid name e sample :
  In sample (latest_sample toupper W sid name e) ->
  station_id sample = sid /\ station_name sample = name.
Proof.
  unfold latest_sample.
  destruct (read_element toupper W "Typ" e) as [[t ts]|x]; [|contradiction].
  unfold create_sample.
  destruct (SAMPLE_LUT (t, elem_get e "Enhet")); cbn; [|contradiction].
  intros [<-|[]]. auto.
Qed.

Lemma history_sample_station toupper W sid e sample :
  In sample (history_sample toupper W sid e) ->
  station_id sample = sid /\ station_name sample = elem_get e "Namn".
Proof.
  unfold history_sample.
  destruct (read_element toupper W "TypNamn" e) as [[t ts]|x];
    [|contradiction].
  unfold create_sample.
  destruct (SAMPLE_LUT (t, elem_get e "Enhet")); cbn; [|contradiction].
  intros [<-|[]]. auto.
Qed.

(** X8.  Every sample of a fetch carries the station id that was asked
    for.  The samples of a fetch of the latest values all carry one name,
    the first [PlatsNamn] of the response; each sample of a history
    carries the [Namn] of its own element. *)
Theorem fetched_samples_carry_the_station toupper W sid st :
  (forall tree samples,
      get_latest W (tick st) sid = Parsed tree ->
      result_of (fetch_station_latest toupper W sid st)
      = Ret (FSamples samples) ->
      Forall (fun sample =>
                station_id sample = sid
                /\ station_name sample = hd None (xp_name tree)) samples)
  /\ (forall elements samples,
         get_history W (tick st) sid = Parsed elements ->
         result_of (fetch_station_history toupper W sid st) = Ret samples ->
         Forall (fun sample =>
                   station_id sample = sid
                   /\ exists e, In e elements
                                /\ station_name sample = elem_get e "Namn")
                samples).
Proof.
  destruct (fetch_samples_flat_map toupper W sid st) as [Hl Hh]. split.
  - intros tree samples Htree Hres. rewrite (Hl tree samples Htree Hres).
    apply Forall_forall. intros sample Hin.
    apply in_flat_map in Hin. destruct Hin as (e & _ & Hin).
    eapply latest_sample_station. exact Hin.
  - intros elements samples Htree Hres.
    rewrite (Hh elements samples Htree Hres).
    apply Forall_forall. intros sample Hin.
    apply in_flat_map in Hin. destruct Hin as (e & He & Hin).
    apply history_sample_station in Hin. destruct Hin as [Hid Hname].
    split; [exact Hid|]. exists e. auto.
Qed.

Lemma fetched_samples_carry_the_station_witness :
  Forall (fun sample =>
            station_id sample = 33
            /\ station_name sample = Some (u "Vinga"))
         [vinga_avg_wind; vinga_gust_wind].
Proof.
  exact (proj1 (fetched_samples_carry_the_station latin1_toupper demo_world
                  33 start)
           vinga_latest [vinga_avg_wind; vinga_gust_wind]
           eq_refl eq_refl).
Defined.

(** ** The sleep between rounds *)

Lemma sleeps_of_app (t1 t2 : list event) :
  sleeps_of (t1 ++ t2) = sleeps_of t1 ++ sleeps_of t2.
Proof.
  induction t1 as [|e t1 IH]; [reflexivity|].
  destruct e; cbn; rewrite IH; reflexivity.
Qed.

Lemma steady_bind {A B : Type} (m : M A) (k : A -> M B) :
  steady m -> (forall a, steady (k a)) -> steady (bind m k).
Proof.
  intros Hm Hk st. unfold bind, state_of, events_of.
  destruct (Hm st) as [Ht Hs]. unfold state_of, events_of in Ht, Hs.
  destruct (m st) as [[[a|x] st1] t1]; cbn [fst snd] in *.
  - destruct (Hk a st1) as [Ht' Hs']. unfold state_of, events_of in Ht', Hs'.
    destruct (k a st1) as [[r st2] t2]; cbn [fst snd] in *.
    rewrite sleeps_of_app, Hs, Hs'. split; [lia|reflexivity].
  - auto.
Qed.

Lemma steady_ret {A : Type} (a : A) : steady (ret a).
Proof. intros st. cbn. auto. Qed.

Lemma steady_raise {A : Type} (x : exn) : steady (@raise A x).
Proof. intros st. cbn. auto. Qed.

Lemma steady_emit_all (t : list event) :
  sleeps_of t = [] -> steady (emit_all t).
Proof. intros H st. cbn. auto. Qed.

Lemma steady_emit (e : event) : sleeps_of [e] = [] -> steady (emit e).
Proof. intros H st. cbn [emit state_of events_of fst snd]. auto. Qed.

Lemma steady_try_except {A : Type} (m : M A) handled (h : exn -> M A) :
  steady m -> (forall x, steady (h x)) -> steady (try_except m handled h).
Proof.
  intros Hm Hh st. unfold try_except, state_of, events_of.
  destruct (Hm st) as [Ht Hs]. unfold state_of, events_of in Ht, Hs.
  destruct (m st) as [[[a|x] st1] t1]; cbn [fst snd] in *; [auto|].
  destruct (handled x); [|auto].
  destruct (Hh x st1) as [Ht' Hs']. unfold state_of, events_of in Ht', Hs'.
  destruct (h x st1) as [[r st2] t2]; cbn [fst snd] in *.
  rewrite sleeps_of_app, Hs, Hs'. split; [lia|reflexivity].
Qed.

Lemma steady_for_each {A : Type} (l : list A) (body : A -> M unit) :
  (forall x, steady (body x)) -> steady (for_each l body).
Proof.
  intros Hb. induction l as [|x rest IH]; cbn [for_each].
  - apply steady_ret.
  - apply steady_bind; [apply Hb|intros _; exact IH].
Qed.

Lemma steady_latest_loop toupper W sid name elements :
  forall samples, steady (latest_loop toupper W sid name elements samples).
Proof.
  induction elements as [|e rest IH]; intros samples; cbn [latest_loop].
  - apply steady_ret.
  - apply steady_bind.
    { unfold get_upper. destruct (elem_get e "Typ");
        [apply steady_ret|apply steady_raise]. }
    intros sample_type. apply steady_bind.
    { unfold get_tid. destruct (elem_get e "Tid") as [v|];
        [|apply steady_raise].
      destruct (strptime v); [apply steady_ret|apply steady_raise]. }
    intros ts. unfold create_sample.
    destruct (SAMPLE_LUT (sample_type, elem_get e "Enhet")).
    + apply steady_bind; [apply steady_emit_all; reflexivity|].
      intros _. apply IH.
    + apply steady_bind; [apply steady_emit_all; reflexivity|].
      intros _. apply IH.
Qed.

Lemma steady_fetch_station_latest toupper W sid :
  steady (fetch_station_latest toupper W sid).
Proof.
  unfold fetch_station_latest. apply steady_bind.
  { intros st. unfold request_latest.
    destruct (get_latest W (tick st) sid); cbn; split; auto. }
  intros tree. apply steady_bind; [apply steady_emit; reflexivity|].
  intros _. destruct (xp_errormsg tree).
  - destruct (xp_name tree) as [|name ?].
    + apply steady_bind; [apply steady_emit; reflexivity|].
      intros _. apply steady_ret.
    + destruct (xp_samples tree) as [|e rest].
      * apply steady_bind; [apply steady_emit; reflexivity|].
        intros _. apply steady_ret.
      * apply steady_bind; [apply steady_emit; reflexivity|].
        intros _. apply steady_bind; [apply steady_latest_loop|].
        intros samples. apply steady_ret.
  - apply steady_bind; [apply steady_emit; reflexivity|].
    intros _. apply steady_ret.
Qed.

Lemma steady_store_single_sample W sample :
  steady (store_single_sample W sample).
Proof.
  unfold store_single_sample.
  apply steady_bind; [apply steady_emit; reflexivity|]. intros _.
  apply steady_bind.
  { intros st. cbn. auto. }
  intros now. apply steady_bind.
  { unfold sample_timegm.
    destruct (timegm (utctimetuple (ststamp sample)));
      [apply steady_ret|apply steady_raise]. }
  intros seconds. apply steady_bind.
  { intros st. unfold execute_insert.
    match goal with
    | |- context [cursor_execute W ?n ?p] => destruct (cursor_execute W n p)
    end; cbn; auto. }
  intros success. apply steady_bind; [|intros _; apply steady_ret].
  destruct success; [apply steady_ret|apply steady_emit; reflexivity].
Qed.

Lemma steady_store_samples W samples : steady (store_samples W samples).
Proof.
  induction samples as [|sample rest IH]; cbn [store_samples].
  - apply steady_bind; [|intros _; apply steady_ret].
    intros st. cbn. auto.
  - apply steady_bind; [apply steady_store_single_sample|].
    intros [|]; [exact IH|].
    apply steady_bind; [|intros _; apply steady_ret].
    intros st. cbn. auto.
Qed.

Lemma steady_run_callback W callback instance :
  steady (run_callback W callback instance).
Proof.
  unfold run_callback. destruct callback as [cb|]; [|apply steady_ret].
  apply steady_try_except.
  - apply steady_bind.
    + intros st. unfold call.
      match goal with
      | |- context [subprocess_call W ?n ?a] =>
        destruct (subprocess_call W n a)
      end; cbn; auto.
    + intros retcode. destruct (retcode =? 0);
        [apply steady_ret|apply steady_emit; reflexivity].
  - intros x. apply steady_emit. reflexivity.
Qed.

Lemma steady_store_and_notify W callback samples :
  steady (store_and_notify W callback samples).
Proof.
  unfold store_and_notify.
  destruct samples as [|[|first others]]; try apply steady_ret.
  apply steady_bind; [apply steady_store_samples|].
  intros [|]; [apply steady_run_callback|apply steady_ret].
Qed.

Lemma steady_poll_stations toupper W callback stations :
  steady (poll_stations toupper W callback stations).
Proof.
  unfold poll_stations. apply steady_for_each. intros sid.
  apply steady_bind; [apply steady_fetch_station_latest|].
  intros samples. apply steady_store_and_notify.
Qed.

Lemma poll_round_spec toupper W callback pollrate stations st :
  poll_round toupper W callback pollrate stations st
  = match poll_stations toupper W callback stations (advance st) with
    | (Ret _, st1, tr) =>
      let o := end_of_round W pollrate (time_time W (tick st))
                            (time_time W (tick st1)) (advance st1) in
      (result_of o, state_of o, tr ++ events_of o)
    | (Raise x, st1, tr) => (Raise x, st1, tr)
    end.
Proof.
  unfold poll_round, bind at 1, read_time. cbn [fst snd].
  unfold bind at 1.
  destruct (poll_stations toupper W callback stations (advance st))
    as [[[[]|x] st1] tr]; [|reflexivity].
  unfold bind at 1. cbn [fst snd].
  unfold result_of, state_of, events_of.
  destruct (end_of_round W pollrate (time_time W (tick st))
              (time_time W (tick st1)) (advance st1)) as [[r st2] t2].
  reflexivity.
Qed.

Lemma poll_round_sleeps toupper W callback pollrate stations st :
  Forall (in_bounds W pollrate)
         (sleeps_of (events_of (poll_round toupper W callback pollrate
                                           stations st))).
Proof.
  rewrite poll_round_spec.
  destruct (steady_poll_stations toupper W callback stations (advance st))
    as [Ht Hs].
  unfold state_of, events_of in *.
  destruct (poll_stations toupper W callback stations (advance st))
    as [[[[]|x] st1] tr]; cbn [fst snd] in *.
  - rewrite end_of_round_spec. cbv zeta.
    destruct (Qlt_le_dec (inject_Z pollrate)
                (time_time W (tick st1) - time_time W (tick st)))
      as [Hlt|Hle]; cbn [fst snd]; rewrite sleeps_of_app, Hs; cbn.
    + constructor.
    + constructor; [|constructor]. split.
      * apply (proj1 (Qle_minus_iff _ _)) in Hle. exact Hle.
      * intros Hclock.
        assert (Hmono : (time_time W (tick st) <= time_time W (tick st1))%Q)
          by (apply Hclock; cbn in Ht; lia).
        apply (proj1 (Qle_minus_iff _ _)) in Hmono.
        apply (proj2 (Qle_minus_iff _ _)).
        setoid_replace (inject_Z pollrate
                        + - (inject_Z pollrate
                             - (time_time W (tick st1)
                                - time_time W (tick st))))%Q
          with (time_time W (tick st1) + - time_time W (tick st))%Q
          by ring.
        exact Hmono.
  - rewrite Hs. constructor.
Qed.

Lemma poll_rounds_sleeps toupper W rounds callback pollrate stations :
  forall st,
    Forall (in_bounds W pollrate)
           (sleeps_of (events_of (poll_rounds toupper W rounds callback
                                              pollrate stations st))).
Proof.
  induction rounds as [|rounds IH]; intros st; [constructor|].
  cbn [poll_rounds]. unfold bind, events_of.
  pose proof (poll_round_sleeps toupper W callback pollrate stations st)
    as Hr.
  unfold events_of in Hr.
  destruct (poll_round toupper W callback pollrate stations st)
    as [[[[]|x] st1] t1]; cbn [fst snd] in *; [|exact Hr].
  specialize (IH st1). unfold events_of in IH.
  destruct (poll_rounds toupper W rounds callback pollrate stations st1)
    as [[r st2] t2]; cbn [fst snd] in *.
  rewrite sleeps_of_app. apply Forall_app. auto.
Qed.

Lemma demo_clock_monotone : monotone_clock demo_world.
Proof.
  intros n m Hnm. unfold demo_world, time_time.
  rewrite <- Zle_Qle. lia.
Qed.

(** X9.  Over any number of rounds, poll mode never calls [time.sleep]
    with a negative duration, and, when the clock never goes back, never
    with more than the poll rate. *)
Theorem sleeps_stay_within_the_poll_rate toupper W rounds callback pollrate
        stations st :
  Forall (fun seconds => (0 <= seconds)%Q)
         (sleeps_of (events_of (poll_rounds toupper W rounds callback
                                            pollrate stations st)))
  /\ (monotone_clock W ->
      Forall (fun seconds => (seconds <= inject_Z pollrate)%Q)
             (sleeps_of (events_of (poll_rounds toupper W rounds callback
                                                pollrate stations st)))).
Proof.
  pose proof (poll_rounds_sleeps toupper W rounds callback pollrate
                                 stations st) as H.
  split.
  - eapply Forall_impl; [|exact H]. intros d [Hd _]. exact Hd.
  - intros Hclock. eapply Forall_impl; [|exact H].
    intros d [_ Hd]. exact (Hd Hclock).
Qed.

Lemma sleeps_stay_within_the_poll_rate_witness :
  monotone_clock demo_world
  /\ List.length (sleeps_of (events_of (poll_rounds latin1_toupper
                                          demo_world 3 (Some notify_sh) 60
                                          [34; 33] start))) = 3%nat
  /\ Forall (fun seconds => (seconds <= inject_Z 60)%Q)
            (sleeps_of (events_of (poll_rounds latin1_toupper demo_world 3
                                               (Some notify_sh) 60 [34; 33]
                                               start))).
Proof.
  split; [exact demo_clock_monotone|]. split; [vm_compute; reflexivity|].
  exact (proj2 (sleeps_stay_within_the_poll_rate latin1_toupper demo_world
                  3 (Some notify_sh) 60 [34; 33] start)
           demo_clock_monotone).
Defined.

(** ** The command line *)

Lemma split_not_nil (sep : ascii) (s : string) : Main.split sep s <> [].
Proof.
  destruct s as [|c s]; cbn [Main.split]; [discriminate|].
  destruct (Ascii.eqb c sep); [discriminate|].
  destruct (Main.split sep s); discriminate.
Qed.

Lemma split_app (sep : ascii) (a b : string) :
  Main.split sep (a ++ String sep b)%string
  = Main.split sep a ++ Main.split sep b.
Proof.
  induction a as [|c a IH]; cbn [String.append Main.split].
  - rewrite Ascii.eqb_refl. reflexivity.
  - rewrite IH. destruct (Ascii.eqb c sep); [reflexivity|].
    pose proof (split_not_nil sep a) as Hne.
    destruct (Main.split sep a) as [|first others]; [contradiction|].
    reflexivity.
Qed.

Lemma split_without (sep : ascii) (a : string) :
  contains (fun c => Ascii.eqb c sep) a = false ->
  Main.split sep a = [a].
Proof.
  induction a as [|c a IH]; [reflexivity|].
  cbn [contains Main.split]. destruct (Ascii.eqb c sep); [discriminate|].
  cbn [orb]. intros H. rewrite (IH H). reflexivity.
Qed.

Lemma isdigit_code (c : ascii) :
  Main.isdigit c = true -> (48 <= N_of_ascii c <= 57)%N.
Proof.
  unfold Main.isdigit, Main.code. rewrite andb_true_iff, !N.leb_le. auto.
Qed.

Lemma isdigit_not (c d : ascii) :
  Main.isdigit c = true -> Main.isdigit d = false -> Ascii.eqb c d = false.
Proof.
  intros Hc Hd. destruct (Ascii.eqb_spec c d) as [->|]; [|reflexivity].
  rewrite Hc in Hd. discriminate.
Qed.

Lemma isdigit_not_space (c : ascii) :
  Main.isdigit c = true -> Main.isspace c = false.
Proof.
  intros H. apply isdigit_code in H. unfold Main.isspace, Main.code.
  destruct (N.eqb_spec (N_of_ascii c) 32); [lia|].
  destruct (N.leb_spec 9 (N_of_ascii c)); [|reflexivity].
  destruct (N.leb_spec (N_of_ascii c) 13); [lia|reflexivity].
Qed.

Lemma all_digits_no_comma (s : string) :
  all_digits s = true -> contains (fun c => Ascii.eqb c ",") s = false.
Proof.
  induction s as [|c s IH]; [reflexivity|].
  cbn [all_digits contains]. rewrite andb_true_iff. intros [Hc Hs].
  rewrite (isdigit_not c "," Hc eq_refl), (IH Hs). reflexivity.
Qed.

Lemma digits_all (s : string) :
  all_digits s = true ->
  forall acc, Main.digits acc s = (decimal_value acc s, EmptyString).
Proof.
  induction s as [|c s IH]; intros H acc; [reflexivity|].
  cbn [all_digits] in H. apply andb_true_iff in H. destruct H as [Hc Hs].
  cbn [Main.digits decimal_value]. rewrite Hc. unfold Main.code.
  apply IH. exact Hs.
Qed.

Lemma int_numeral (s : string) :
  numeral s -> Main.int s = Some (decimal_value 0 s).
Proof.
  intros [Hne Hd]. destruct s as [|c s]; [contradiction|].
  pose proof Hd as Hall. cbn [all_digits] in Hd.
  apply andb_true_iff in Hd. destruct Hd as [Hc Hs].
  unfold Main.int. cbn [Main.lstrip].
  rewrite (isdigit_not_space c Hc). cbn [Main.starts_with].
  rewrite (isdigit_not c "-" Hc eq_refl), (isdigit_not c "+" Hc eq_refl).
  cbn [orb]. rewrite Hc, (digits_all _ Hall 0). reflexivity.
Qed.

Lemma ints_numerals (fields : list string) :
  Forall numeral fields ->
  Main.ints fields = Some (List.map (decimal_value 0) fields).
Proof.
  induction 1 as [|x rest Hx _ IH]; [reflexivity|].
  cbn [Main.ints List.map]. rewrite (int_numeral x Hx), IH. reflexivity.
Qed.

Lemma split_concat (fields : list string) :
  fields <> [] ->
  Forall numeral fields ->
  Main.split "," (String.concat "," fields) = fields.
Proof.
  intros Hne Hall. induction Hall as [|x rest Hx Hrest IH];
    [contradiction|].
  destruct rest as [|y rest].
  - cbn. apply split_without. apply all_digits_no_comma. apply Hx.
  - change (String.concat "," (x :: y :: rest))
      with (x ++ String "," (String.concat "," (y :: rest)))%string.
    rewrite split_app, IH by discriminate.
    rewrite split_without by (apply all_digits_no_comma; apply Hx).
    reflexivity.
Qed.

Lemma ints_with_empty (fields : list string) :
  In EmptyString fields -> Main.ints fields = None.
Proof.
  induction fields as [|x rest IH]; [contradiction|].
  intros [->|Hin]; [reflexivity|].
  cbn [Main.ints]. destruct (Main.int x); [|reflexivity].
  rewrite (IH Hin). reflexivity.
Qed.

(** X10.  The station argument is read back as written: decimal numerals
    joined by commas give the list of their values, in order. *)
Theorem station_ids_of_numerals (fields : list string) :
  fields <> [] ->
  Forall numeral fields ->
  Main.station_ids (String.concat "," fields)
  = Some (List.map (decimal_value 0) fields).
Proof.
  intros Hne Hall. unfold Main.station_ids.
  rewrite (split_concat fields Hne Hall). apply ints_numerals. exact Hall.
Qed.

Lemma station_ids_of_numerals_witness :
  Main.station_ids "33,34,107" = Some [33; 34; 107].
Proof.
  apply (station_ids_of_numerals ["33"; "34"; "107"]%string).
  - discriminate.
  - repeat constructor; discriminate.
Defined.

(** X11.  An empty field in the station argument is a [ValueError]: the
    empty argument, a comma at its start or at its end, and two commas in
    a row all make [int('')] raise, whatever else the argument holds. *)
Theorem empty_station_field_raises (a b : string) :
  Main.station_ids "" = None
  /\ Main.station_ids (String "," b) = None
  /\ Main.station_ids (a ++ ",") = None
  /\ Main.station_ids (a ++ ",," ++ b) = None.
Proof.
  unfold Main.station_ids.
  split; [reflexivity|]. split; [reflexivity|]. split.
  - apply ints_with_empty. rewrite (split_app "," a ""). apply in_or_app.
    right. left. reflexivity.
  - apply ints_with_empty.
    change (a ++ ",," ++ b)%string
      with (a ++ String "," (String "," b))%string.
    rewrite (split_app "," a (String "," b)). apply in_or_app. right.
    cbn [Main.split]. rewrite Ascii.eqb_refl. left. reflexivity.
Qed.

Lemma do_shorts_more (optstring shortopts : string) (extra : list string) :
  forall opts args opts' args',
  Main.do_shorts opts optstring shortopts args = inr (opts', args') ->
  Main.do_shorts opts optstring shortopts (args ++ extra)
  = inr (opts', args' ++ extra)
  /\ (List.length args' <= List.length args)%nat.
Proof.
  induction optstring as [|opt optstring IH]; intros opts args opts' args' H;
    cbn [Main.do_shorts] in *.
  - injection H as <- <-. split; [reflexivity|lia].
  - destruct (Main.short_has_arg opt shortopts) as [[|]|]; [| |discriminate].
    + destruct optstring as [|c optstring].
      * destruct args as [|optarg args]; [discriminate|].
        injection H as <- <-. cbn [List.app List.length].
        split; [reflexivity|lia].
      * injection H as <- <-. split; [reflexivity|lia].
    + apply IH. exact H.
Qed.

Lemma getopt_loop_more (shortopts : string) (arg : string)
      (later : list string) :
  operand arg = true ->
  forall fuel opts args opts' fuel',
  Main.getopt_loop fuel opts args shortopts = inr (opts', []) ->
  (List.length args <= fuel')%nat ->
  Main.getopt_loop fuel' opts (args ++ arg :: later) shortopts
  = inr (opts', arg :: later).
Proof.
  intros Harg. unfold operand in Harg. apply negb_true_iff in Harg.
  induction fuel as [|fuel IH]; intros opts args opts' fuel' H Hfuel.
  - destruct args as [|a rest].
    + cbn [Main.getopt_loop] in H. injection H as <-.
      destruct fuel'; cbn [Main.getopt_loop List.app];
        rewrite Harg; reflexivity.
    + destruct fuel' as [|fuel']; [cbn [List.length] in Hfuel; lia|].
      cbn [Main.getopt_loop List.app] in *.
      destruct (Main.starts_with "-" a && negb (String.eqb a "-"));
        [|discriminate].
      destruct (String.eqb a "--").
      * injection H as <- ->. reflexivity.
      * destruct (Main.starts_with "-" (Main.tail a)); discriminate.
  - destruct args as [|a rest].
    + cbn [Main.getopt_loop] in H. injection H as <-.
      destruct fuel'; cbn [Main.getopt_loop List.app];
        rewrite Harg; reflexivity.
    + destruct fuel' as [|fuel']; [cbn [List.length] in Hfuel; lia|].
      cbn [Main.getopt_loop List.app] in *.
      destruct (Main.starts_with "-" a && negb (String.eqb a "-"));
        [|discriminate].
      destruct (String.eqb a "--").
      * injection H as <- ->. reflexivity.
      * destruct (Main.starts_with "-" (Main.tail a)); [discriminate|].
        destruct (Main.do_shorts opts (Main.tail a) shortopts rest)
          as [e|[opts2 rest2]] eqn:Hshorts; [discriminate|].
        destruct (do_shorts_more _ _ (arg :: later) _ _ _ _ Hshorts)
          as [-> Hlen].
        apply (IH _ _ _ _ H). cbn [List.length] in Hfuel. lia.
Qed.

Lemma getopt_more (options : list string) (arg : string)
      (later : list string) (opts : list (string * string)) :
  operand arg = true ->
  Main.getopt options Main.shortopts = inr (opts, []) ->
  Main.getopt (options ++ arg :: later) Main.shortopts
  = inr (opts, arg :: later).
Proof.
  intros Harg H. unfold Main.getopt in *.
  apply (getopt_loop_more _ _ _ Harg _ _ _ _ _ H).
  rewrite length_app. lia.
Qed.

(** X12.  Options are read up to the first argument that is not one:
    whatever follows the station list is left alone, so the settings are
    those of the options written before it.  ([vivad.py -v 33,34 -p 120]
    polls every 60 seconds.) *)
Theorem options_after_the_stations_are_ignored
        (E : Main.environment) (options : list string) (arg : string)
        (later : list string) (cfg : Main.config) :
  Main.command_line E options = inr (cfg, []) ->
  operand arg = true ->
  Main.command_line E (options ++ arg :: later) = inr (cfg, arg :: later).
Proof.
  unfold Main.command_line. intros H Harg.
  destruct (Main.getopt options Main.shortopts) as [e|[opts args]] eqn:Hg;
    [discriminate|].
  destruct (Main.set_options E Main.defaults opts) as [stop|cfg'] eqn:Hs;
    [discriminate|].
  injection H as -> ->.
  rewrite (getopt_more _ _ later _ Harg Hg), Hs. reflexivity.
Qed.

Lemma options_after_the_stations_are_ignored_witness :
  exists cfg,
    Main.command_line demo_environment ["-v"; "33,34"; "-p"; "120"]%string
    = inr (cfg, ["33,34"; "-p"; "120"]%string)
    /\ Main.pollrate cfg = 60 /\ Main.verbose cfg = 1%nat.
Proof.
  eexists. split.
  - apply (options_after_the_stations_are_ignored
             demo_environment ["-v"%string] "33,34" ["-p"; "120"]%string);
      reflexivity.
  - split; reflexivity.
Defined.

Lemma last_char_snoc (a : string) (c : ascii) :
  Main.last_char (a ++ String c EmptyString) = Some c.
Proof.
  induction a as [|x a IH]; [reflexivity|].
  cbn [String.append Main.last_char]. rewrite IH.
  destruct a; reflexivity.
Qed.

Lemma but_last_snoc (a : string) (c : ascii) :
  Main.but_last (a ++ String c EmptyString) = a.
Proof.
  induction a as [|x a IH]; [reflexivity|].
  cbn [String.append Main.but_last]. rewrite IH.
  destruct a; reflexivity.
Qed.

Lemma parse_timespan_snoc (a : string) (c : ascii) :
  Main.parse_timespan (a ++ String c EmptyString)
  = match Main.int a with
    | None => inl (Main.Uncaught (Main.Exn ValueError), [])
    | Some value =>
      match
        (if Ascii.eqb (Main.ascii_upper c) "D"
         then Some (Main.new_timedelta value 0)
         else if Ascii.eqb (Main.ascii_upper c) "H"
              then Some (Main.new_timedelta 0 (value * 3600))
         else if Ascii.eqb (Main.ascii_upper c) "M"
              then Some (Main.new_timedelta 0 (value * 60))
         else None)
      with
      | Some (Some t) => inr t
      | Some None => inl (Main.Uncaught Main.OverflowError, [])
      | None =>
        inl (Main.SysExit 1,
             [Main.InvalidTimespan (a ++ String c EmptyString)])
      end
    end.
Proof.
  unfold Main.parse_timespan. rewrite last_char_snoc, but_last_snoc.
  reflexivity.
Qed.

Lemma new_timedelta_seconds (v k : Z) :
  Main.new_timedelta 0 (v * k * 86400) = Main.new_timedelta (v * k) 0.
Proof.
  unfold Main.new_timedelta.
  rewrite Z.div_mul, Z.mod_mul by discriminate.
  rewrite Z.add_0_l. change (0 / 86400) with 0. change (0 mod 86400) with 0.
  rewrite Z.add_0_r. reflexivity.
Qed.

(** X13.  A time span means the same in days, hours and minutes, and the
    unit letter is read in either case: [<v>D], [<24v>H] and [<1440v>M]
    give the same [timedelta] (or the same [OverflowError]), and so do the
    lower-case letters. *)
Theorem timespan_units_agree (d h m : string) (v : Z) :
  Main.int d = Some v ->
  Main.int h = Some (24 * v) ->
  Main.int m = Some (1440 * v) ->
  Main.parse_timespan (h ++ "H") = Main.parse_timespan (d ++ "D")
  /\ Main.parse_timespan (m ++ "M") = Main.parse_timespan (d ++ "D")
  /\ Main.parse_timespan (d ++ "d") = Main.parse_timespan (d ++ "D")
  /\ Main.parse_timespan (h ++ "h") = Main.parse_timespan (h ++ "H")
  /\ Main.parse_timespan (m ++ "m") = Main.parse_timespan (m ++ "M").
Proof.
  intros Hd Hh Hm. rewrite !parse_timespan_snoc, Hd, Hh, Hm.
  change (Main.ascii_upper "D") with "D"%char.
  change (Main.ascii_upper "d") with "D"%char.
  change (Main.ascii_upper "H") with "H"%char.
  change (Main.ascii_upper "h") with "H"%char.
  change (Main.ascii_upper "M") with "M"%char.
  change (Main.ascii_upper "m") with "M"%char.
  change (Ascii.eqb "D" "D") with true. change (Ascii.eqb "H" "D") with false.
  change (Ascii.eqb "H" "H") with true. change (Ascii.eqb "M" "D") with false.
  change (Ascii.eqb "M" "H") with false. change (Ascii.eqb "M" "M") with true.
  cbv iota.
  replace (24 * v * 3600) with (v * 1 * 86400) by lia.
  replace (1440 * v * 60) with (v * 1 * 86400) by lia.
  rewrite new_timedelta_seconds, Z.mul_1_r.
  repeat split; reflexivity.
Qed.

Lemma timespan_units_agree_witness :
  Main.parse_timespan "48H" = Main.parse_timespan "2D"
  /\ Main.parse_timespan "2880M" = Main.parse_timespan "2D"
  /\ Main.parse_timespan "2d" = Main.parse_timespan "2D"
  /\ Main.parse_timespan "48h" = Main.parse_timespan "48H"
  /\ Main.parse_timespan "2880m" = Main.parse_timespan "2880M".
Proof.
  apply (timespan_units_agree "2" "48" "2880" 2); reflexivity.
Defined.

(** X14.  What [-t] rejects, and how.  The number is converted before the
    letter is looked at: the empty value is an [IndexError]; a value whose
    part before the last character is not a number is a [ValueError],
    whatever the last character is; the message about the format, with
    exit status 1, is what a number followed by another letter than D, H
    or M gets, and nothing else gets it. *)
Theorem timespan_rejections (a : string) (c : ascii) :
  Main.parse_timespan EmptyString = inl (Main.Uncaught Main.IndexError, [])
  /\ (Main.parse_timespan (a ++ String c EmptyString)
      = inl (Main.Uncaught (Main.Exn ValueError), [])
      <-> Main.int a = None)
  /\ (Main.parse_timespan (a ++ String c EmptyString)
      = inl (Main.SysExit 1,
             [Main.InvalidTimespan (a ++ String c EmptyString)])
      <-> Main.int a <> None /\ timespan_unit c = false).
Proof.
  split; [reflexivity|]. rewrite parse_timespan_snoc. unfold timespan_unit.
  destruct (Main.int a) as [value|].
  - assert (Hsome : Some value <> None) by discriminate.
    destruct (Ascii.eqb (Main.ascii_upper c) "D");
      [|destruct (Ascii.eqb (Main.ascii_upper c) "H");
        [|destruct (Ascii.eqb (Main.ascii_upper c) "M")]];
      cbn [orb]; try (destruct (Main.new_timedelta _ _));
      (split; split; intros H;
       try discriminate H; try (apply proj2 in H; discriminate H);
       try (split; [exact Hsome|reflexivity]); try reflexivity).
  - split; split; intros H; try reflexivity; try discriminate H.
    destruct H as [H _]. contradiction.
Qed.

Lemma timespan_rejections_witness :
  Main.parse_timespan "xW" = inl (Main.Uncaught (Main.Exn ValueError), [])
  /\ Main.parse_timespan "2W"
     = inl (Main.SysExit 1, [Main.InvalidTimespan "2W"]).
Proof.
  split.
  - apply (timespan_rejections "x" "W"). reflexivity.
  - apply (timespan_rejections "2" "W"). split; [discriminate|reflexivity].
Defined.

(** ** The script *)

Section MainProperties.

Variable toupper : N -> N.
Variable W : world.
Variable E : Main.environment.
Variable rounds : nat.

Lemma set_option_do_list (cfg cfg' : Main.config) (o a : string) :
  Main.set_option E cfg o a = inr cfg' ->
  Main.do_list cfg' = Main.do_list cfg || String.eqb o "-l".
Proof.
  destruct cfg as [pidfile verbose callback dbfile pollrate timespan
                   do_list do_sync].
  unfold Main.set_option. intros H.
  repeat match type of H with
         | (if String.eqb o ?x then _ else _) = _ =>
           destruct (String.eqb_spec o x) as [->|_]
         end;
    repeat match type of H with
           | match ?x with _ => _ end = _ => destruct x; try discriminate H
           end;
    try (injection H as <-; cbn; rewrite ?orb_false_r, ?orb_true_r;
         reflexivity).
Qed.

Lemma set_options_do_list (opts : list (string * string)) :
  forall cfg cfg',
  Main.set_options E cfg opts = inr cfg' ->
  Main.do_list cfg' = Main.do_list cfg || given "-l" opts.
Proof.
  induction opts as [|[o a] opts IH]; intros cfg cfg' H;
    cbn [Main.set_options given existsb fst] in *.
  - injection H as <-. rewrite orb_false_r. reflexivity.
  - destruct (Main.set_option E cfg o a) as [stop|cfg1] eqn:H1;
      [discriminate|].
    rewrite (IH _ _ H), (set_option_do_list _ _ _ _ H1).
    unfold given. rewrite orb_assoc. reflexivity.
Qed.

Lemma harmless_said (said : list Main.message) :
  forallb harmless (List.map Main.Say said) = true.
Proof. induction said; [reflexivity|assumption]. Qed.

Lemma harmless_verbosity (cfg : Main.config) :
  forallb harmless (Main.verbosity cfg) = true.
Proof.
  unfold Main.verbosity.
  destruct (1 <? Main.verbose cfg)%nat; [reflexivity|].
  destruct (0 <? Main.verbose cfg)%nat; reflexivity.
Qed.

Lemma main_script (argv args : list string) (cfg : Main.config)
      (st : state) :
  Main.command_line E argv = inr (cfg, args) ->
  Main.main toupper W E rounds argv st
  = Main.script toupper W E rounds cfg args st.
Proof. unfold Main.main. intros ->. reflexivity. Qed.

Lemma with_database_keeps (fs : Main.files) (dbfile p : string) :
  fs p = true -> Main.with_database fs dbfile p = true.
Proof.
  unfold Main.with_database, Main.with_file. intros H.
  destruct (_ || _); [exact H|]. destruct (String.eqb p dbfile);
    [reflexivity|exact H].
Qed.

Lemma no_request_verbosity (cfg : Main.config) :
  forallb (fun a => negb (is_request a)) (Main.verbosity cfg) = true.
Proof.
  unfold Main.verbosity.
  destruct (1 <? Main.verbose cfg)%nat; [reflexivity|].
  destruct (0 <? Main.verbose cfg)%nat; reflexivity.
Qed.

Lemma no_pid_verbosity (cfg : Main.config) :
  forallb (fun a => negb (writes_pid a)) (Main.verbosity cfg) = true.
Proof.
  unfold Main.verbosity.
  destruct (1 <? Main.verbose cfg)%nat; [reflexivity|].
  destruct (0 <? Main.verbose cfg)%nat; reflexivity.
Qed.

Lemma no_pid_events (t : list event) :
  forallb (fun a => negb (writes_pid a)) (List.map Main.Ev t) = true.
Proof. induction t; [reflexivity|assumption]. Qed.

(** The script up to the choice between the two station loops. *)
Lemma script_stations (cfg : Main.config) (arg : string)
      (rest : list string) (stations : list Z) (st : state) :
  Main.do_list cfg = false ->
  Main.connects E (Main.dbfile cfg) = true ->
  Main.station_ids arg = Some stations ->
  Main.script toupper W E rounds cfg (arg :: rest) st
  = (if Main.do_sync cfg
     then Main.sync_branch toupper W E
     else Main.poll_branch toupper W E rounds)
      cfg stations
      (((Main.verbosity cfg ++ [Main.LogUsingDatabase (Main.dbfile cfg)])
          ++ [Main.Connect (Main.dbfile cfg)]) ++ [Main.Ev Commit])
      (Main.with_database (Main.isfile E) (Main.dbfile cfg))
      (mk_state (mk_connection (rows (db st)) []) (tick st)).
Proof.
  intros Hl Hc Hs. unfold Main.script. rewrite Hl, Hc.
  cbn [negb create_database_tables db_commit List.map]. rewrite Hs.
  destruct (Main.do_sync cfg); reflexivity.
Qed.

(** The monitoring branch when the pid file is there. *)
Lemma poll_branch_blocked (cfg : Main.config) (stations : list Z)
      (before : list Main.action) (fs : Main.files) (st : state) :
  fs (Main.pidfile cfg) = true ->
  Main.poll_branch toupper W E rounds cfg stations before fs st
  = Main.mk_run (Main.SysExit 1) st
      ((before ++ [Main.Ev (Log INFO (MsgMonitoring stations))])
         ++ [Main.Say (Main.UsagePidfileExists (Main.pidfile cfg))])
      fs.
Proof. unfold Main.poll_branch. intros ->. reflexivity. Qed.

(** The monitoring branch when the pid file is not there. *)
Lemma poll_branch_fresh (cfg : Main.config) (stations : list Z)
      (before : list Main.action) (fs : Main.files) (st : state) :
  fs (Main.pidfile cfg) = false ->
  Main.pidfile_writable E = true ->
  let r := Main.poll_branch toupper W E rounds cfg stations before fs st in
  In (Main.WritePid (Main.pidfile cfg)) (Main.actions r)
  /\ (Main.ended r = Main.EndOfScript ->
      Main.left r (Main.pidfile cfg) = false
      /\ exists done,
          Main.actions r = done ++ [Main.Ev Unlink; Main.Ev DbClose])
  /\ (Main.ended r <> Main.EndOfScript ->
      Main.left r (Main.pidfile cfg) = true
      /\ (Main.ended r = Main.StillPolling
          \/ exists x, Main.ended r = Main.Uncaught (Main.Exn x)
                       /\ is_KeyboardInterrupt x = false)).
Proof.
  intros Hfs Hw. unfold Main.poll_branch. rewrite Hfs, Hw. cbn [negb].
  destruct (poll_rounds toupper W rounds _ _ _ st) as [[[[]|x] st'] t].
  - cbn [Main.ended Main.left Main.actions]. split; [|split].
    + apply in_or_app. left. apply in_or_app. right. left. reflexivity.
    + discriminate.
    + intros _. split; [|left; reflexivity].
      unfold Main.with_file. rewrite String.eqb_refl. reflexivity.
  - destruct (is_KeyboardInterrupt x) eqn:Hx;
      cbn [Main.ended Main.left Main.actions]; (split; [|split]).
    + apply in_or_app. left. apply in_or_app. right. left. reflexivity.
    + intros _. split.
      * unfold Main.without_file. rewrite String.eqb_refl. reflexivity.
      * eexists. rewrite !app_assoc. reflexivity.
    + intros H. contradiction.
    + apply in_or_app. left. apply in_or_app. right. left. reflexivity.
    + discriminate.
    + intros _. split.
      * unfold Main.with_file. rewrite String.eqb_refl. reflexivity.
      * right. exists x. split; [reflexivity|exact Hx].
Qed.

(** The history branch leaves the files as they are and writes no pid
    file. *)
Lemma sync_branch_files (cfg : Main.config) (stations : list Z)
      (before : list Main.action) (fs : Main.files) (st : state) :
  forallb (fun a => negb (writes_pid a)) before = true ->
  let r := Main.sync_branch toupper W E cfg stations before fs st in
  Main.left r = fs
  /\ forallb (fun a => negb (writes_pid a)) (Main.actions r) = true
  /\ (forall status, Main.ended r <> Main.SysExit status)
  /\ (Main.ended r = Main.EndOfScript ->
      exists done, Main.actions r = done ++ [Main.Ev DbClose]).
Proof.
  intros Hb. unfold Main.sync_branch.
  destruct (Main.datetime_sub _ _) as [t_from|].
  2:{ cbn [Main.ended Main.left Main.actions]. repeat split.
      - rewrite forallb_app, Hb. reflexivity.
      - discriminate.
      - discriminate. }
  destruct stations as [|station_id stations].
  { cbn [Main.ended Main.left Main.actions]. repeat split.
    - rewrite !forallb_app, Hb. reflexivity.
    - discriminate.
    - intros _. eexists. reflexivity. }
  destruct (Main.strftime_ok t_from && Main.strftime_ok (Main.today E)).
  2:{ cbn [Main.ended Main.left Main.actions]. repeat split.
      - rewrite forallb_app, Hb. reflexivity.
      - discriminate.
      - discriminate. }
  destruct (sync_stations toupper W _ _ st) as [[[[]|x] st'] t];
    cbn [Main.ended Main.left Main.actions]; repeat split;
    try discriminate.
  - rewrite !forallb_app, Hb, no_pid_events. reflexivity.
  - intros _. eexists. rewrite !app_assoc. reflexivity.
  - rewrite !forallb_app, Hb, no_pid_events. reflexivity.
Qed.

End MainProperties.

Lemma print_rows_all (encodes : unicode -> bool)
      (stations : list Main.station) :
  forallb encodes (List.map Main.station_row stations) = true ->
  Main.print_rows encodes stations
  = (List.map Main.station_row stations, true).
Proof.
  induction stations as [|s rest IH]; [reflexivity|].
  cbn [List.map forallb Main.print_rows]. rewrite andb_true_iff.
  intros [-> Hrest]. rewrite (IH Hrest). reflexivity.
Qed.

Lemma print_rows_stop (encodes : unicode -> bool)
      (before : list Main.station) (s : Main.station)
      (after : list Main.station) :
  forallb encodes (List.map Main.station_row before) = true ->
  encodes (Main.station_row s) = false ->
  Main.print_rows encodes (before ++ s :: after)
  = (List.map Main.station_row before, false).
Proof.
  intros Hbefore Hs. induction before as [|b before IH].
  - cbn [List.app Main.print_rows List.map]. rewrite Hs. reflexivity.
  - cbn [List.map forallb] in Hbefore. apply andb_true_iff in Hbefore.
    destruct Hbefore as [Hb Hbefore].
    cbn [List.app Main.print_rows List.map]. rewrite Hb, (IH Hbefore).
    reflexivity.
Qed.

Lemma length_ljust (width : nat) (text : unicode) :
  (List.length text <= width)%nat ->
  List.length (Main.ljust width text) = width.
Proof.
  intros H. unfold Main.ljust. rewrite length_app, repeat_length. lia.
Qed.

Lemma firstn_ljust (width : nat) (text rest : unicode) :
  firstn (List.length text) (Main.ljust width text ++ rest) = text.
Proof.
  unfold Main.ljust. rewrite <- app_assoc.
  rewrite firstn_app, Nat.sub_diag, firstn_all. cbn [firstn].
  apply app_nil_r.
Qed.

Lemma skipn_column (width : nat) (text rest : unicode) :
  (List.length text <= width)%nat ->
  skipn (S width) (Main.ljust width text ++ [32%N] ++ rest) = rest.
Proof.
  intros H. rewrite app_assoc.
  assert (Hlen : List.length (Main.ljust width text ++ [32%N]) = S width).
  { rewrite length_app, (length_ljust _ _ H). cbn [List.length]. lia. }
  rewrite <- Hlen, skipn_app, Nat.sub_diag, skipn_all. reflexivity.
Qed.

(** X15.  With [-l] among the options the script only lists the
    stations, whatever else is on the command line: it opens no database,
    reads and writes no pid file, fetches no sample, and leaves the store
    and the files as they were.  When the options are accepted, the
    service answers and the output stream can encode every row, it prints
    the header, the rule and one row per station element, in response
    order, and ends. *)
Theorem list_mode_only_lists
        (toupper : N -> N) (W : world) (E : Main.environment) (rounds : nat)
        (argv : list string) (st : state)
        (opts : list (string * string)) (args : list string) :
  Main.getopt argv Main.shortopts = inr (opts, args) ->
  given "-l" opts = true ->
  let r := Main.main toupper W E rounds argv st in
  Main.final r = st
  /\ Main.left r = Main.isfile E
  /\ forallb harmless (Main.actions r) = true
  /\ forall cfg elements,
      Main.set_options E Main.defaults opts = inr cfg ->
      Main.get_points E = Parsed elements ->
      forallb (Main.stdout_encodes E)
              (List.map Main.station_row (Main.stations_of elements))
      = true ->
      Main.ended r = Main.EndOfScript
      /\ Main.actions r
         = Main.verbosity cfg
           ++ [Main.RequestPoints; Main.LogPoints;
               Main.PrintStations
                 (Main.header :: Main.rule
                  :: List.map Main.station_row
                              (Main.stations_of elements))].
Proof.
  intros Hg Hl. unfold Main.main, Main.command_line. rewrite Hg.
  destruct (Main.set_options E Main.defaults opts) as [[stop said]|cfg]
    eqn:Hs.
  - cbn [Main.final Main.left Main.actions].
    split; [reflexivity|]. split; [reflexivity|].
    split; [apply harmless_said|]. discriminate.
  - pose proof (set_options_do_list _ _ _ _ Hs) as Hdl. rewrite Hl in Hdl.
    rewrite orb_true_r in Hdl.
    unfold Main.script. rewrite Hdl. unfold Main.list_branch.
    destruct (Main.get_points E) as [elements|x].
    + unfold Main.print_station_list.
      destruct (Main.print_rows (Main.stdout_encodes E)
                                (Main.stations_of elements))
        as [printed finished] eqn:Hp.
      cbn [Main.final Main.left Main.actions Main.ended].
      split; [reflexivity|]. split; [reflexivity|].
      split; [rewrite forallb_app, harmless_verbosity; reflexivity|].
      intros cfg' elements' Hcfg Hel Henc.
      injection Hcfg as <-. injection Hel as <-.
      rewrite (print_rows_all _ _ Henc) in Hp. injection Hp as <- <-.
      split; reflexivity.
    + cbn [Main.final Main.left Main.actions Main.ended].
      split; [reflexivity|]. split; [reflexivity|].
      split; [rewrite forallb_app, harmless_verbosity; reflexivity|].
      discriminate.
Qed.

Lemma list_mode_only_lists_witness :
  Main.final (Main.main latin1_toupper demo_world demo_environment 1
                        ["-s"; "-l"; "33,34"]%string start) = start.
Proof.
  apply (fun toupper W E rounds argv st opts args Hg Hl =>
           proj1 (list_mode_only_lists toupper W E rounds argv st opts args
                                       Hg Hl))
    with (opts := [("-s", ""); ("-l", "")]%string) (args := ["33,34"%string]);
    reflexivity.
Defined.

(** X16.  The list stops at the first station whose row the output
    stream cannot encode (a name with a letter outside ASCII when the
    output is a pipe): the rows before it are printed, then the script
    ends in an uncaught [UnicodeEncodeError], and the stations after it
    are not shown. *)
Theorem unprintable_station_ends_the_list
        (toupper : N -> N) (W : world) (E : Main.environment) (rounds : nat)
        (argv : list string) (st : state) (cfg : Main.config)
        (args : list string) (before : list element) (e : element)
        (after : list element) :
  Main.command_line E argv = inr (cfg, args) ->
  Main.do_list cfg = true ->
  Main.get_points E = Parsed (before ++ e :: after) ->
  forallb (Main.stdout_encodes E)
          (List.map Main.station_row (Main.stations_of before)) = true ->
  forallb (Main.stdout_encodes E)
          (List.map Main.station_row (Main.stations_of [e])) = false ->
  let r := Main.main toupper W E rounds argv st in
  Main.ended r = Main.Uncaught Main.UnicodeEncodeError
  /\ Main.actions r
     = Main.verbosity cfg
       ++ [Main.RequestPoints; Main.LogPoints;
           Main.PrintStations
             (Main.header :: Main.rule
              :: List.map Main.station_row (Main.stations_of before))].
Proof.
  intros Hcl Hl Hp Hbefore He. cbv zeta.
  rewrite (main_script toupper W E rounds argv args cfg st Hcl).
  unfold Main.script. rewrite Hl. unfold Main.list_branch. rewrite Hp.
  unfold Main.print_station_list, Main.stations_of.
  rewrite List.map_app. cbn [List.map].
  cbn [Main.stations_of List.map forallb] in He.
  rewrite andb_true_r in He.
  unfold Main.stations_of in Hbefore.
  rewrite (print_rows_stop _ _ _ _ Hbefore He). split; reflexivity.
Qed.

Lemma unprintable_station_ends_the_list_witness :
  let r := Main.main latin1_toupper demo_world swedish_environment 1
                     ["-l"%string] start in
  Main.ended r = Main.Uncaught Main.UnicodeEncodeError
  /\ Main.actions r
     = [Main.RequestPoints; Main.LogPoints;
        Main.PrintStations
          [Main.header; Main.rule;
           Main.row_fmt (Some (u "33")) None None (Some (u "Vinga"))]].
Proof.
  exact (unprintable_station_ends_the_list
           latin1_toupper demo_world swedish_environment 1 ["-l"%string]
           start
           (Main.mk_config "/tmp/vivad.pid" 0 None "vivad.db" 60
                           (Main.mk_timedelta 1 0) true false)
           []
           [ [("PlatsId"%string, u "33"); ("Platsnamn"%string, u "Vinga")] ]
           [("PlatsId"%string, u "114"); ("Platsnamn"%string, u "Malmö")]
           [ [("PlatsId"%string, u "34");
              ("Platsnamn"%string, u "Trubaduren")] ]
           eq_refl eq_refl eq_refl eq_refl eq_refl).
Defined.

(** X17.  The columns of the station list line up: when the four values
    of a station fit in their columns (6, 10, 10 and 50 characters; a
    missing attribute is the text None), its row has 79 characters and
    shows the id at column 0, the longitude at column 7, the latitude at
    column 18 and the name at column 29, each in full. *)
Theorem station_rows_align (c_id c_lon c_lat c_name : option unicode) :
  (List.length (Main.str_of c_id) <= 6)%nat ->
  (List.length (Main.str_of c_lon) <= 10)%nat ->
  (List.length (Main.str_of c_lat) <= 10)%nat ->
  (List.length (Main.str_of c_name) <= 50)%nat ->
  let text := Main.row_fmt c_id c_lon c_lat c_name in
  List.length text = 79%nat
  /\ firstn (List.length (Main.str_of c_id)) text = Main.str_of c_id
  /\ firstn (List.length (Main.str_of c_lon)) (skipn 7 text)
     = Main.str_of c_lon
  /\ firstn (List.length (Main.str_of c_lat)) (skipn 18 text)
     = Main.str_of c_lat
  /\ firstn (List.length (Main.str_of c_name)) (skipn 29 text)
     = Main.str_of c_name.
Proof.
  intros Hid Hlon Hlat Hname. cbv zeta. unfold Main.row_fmt.
  split; [|split; [|split; [|split]]].
  - rewrite !length_app, !length_ljust by assumption. reflexivity.
  - apply firstn_ljust.
  - rewrite (skipn_column 6) by assumption. apply firstn_ljust.
  - change 18%nat with (11 + 7)%nat. rewrite <- skipn_skipn.
    rewrite (skipn_column 6), (skipn_column 10) by assumption.
    apply firstn_ljust.
  - change 29%nat with (11 + (11 + 7))%nat. rewrite <- !skipn_skipn.
    rewrite (skipn_column 6), !(skipn_column 10) by assumption.
    rewrite <- (app_nil_r (Main.ljust 50 _)). apply firstn_ljust.
Qed.

Lemma station_rows_align_witness :
  List.length (Main.row_fmt (Some (u "33")) (Some (u "11.6"))
                            (Some (u "57.63")) (Some (u "Vinga")))
  = 79%nat.
Proof.
  apply (station_rows_align (Some (u "33")) (Some (u "11.6"))
                            (Some (u "57.63")) (Some (u "Vinga")));
    vm_compute; repeat constructor.
Defined.

(** X18.  The database is opened, and its table created and committed,
    before the station argument is looked at: a command line without
    stations ends in the usage text with exit status 1, and one whose
    station list is not made of numbers ends in an uncaught [ValueError],
    both after the database file has been made and without [db.close()].
    Nothing is fetched and no pid file is written. *)
Theorem database_is_opened_before_the_stations_are_read
        (toupper : N -> N) (W : world) (E : Main.environment) (rounds : nat)
        (argv : list string) (st : state)
        (cfg : Main.config) (args : list string) :
  Main.command_line E argv = inr (cfg, args) ->
  Main.do_list cfg = false ->
  Main.connects E (Main.dbfile cfg) = true ->
  match args with
  | [] => True
  | arg :: _ => Main.station_ids arg = None
  end ->
  let r := Main.main toupper W E rounds argv st in
  Main.ended r = match args with
                 | [] => Main.SysExit 1
                 | _ :: _ => Main.Uncaught (Main.Exn ValueError)
                 end
  /\ Main.actions r
     = Main.verbosity cfg
       ++ [Main.LogUsingDatabase (Main.dbfile cfg);
           Main.Connect (Main.dbfile cfg); Main.Ev Commit]
       ++ match args with
          | [] => [Main.Say Main.UsageNoStations]
          | _ :: _ => []
          end
  /\ Main.left r = Main.with_database (Main.isfile E) (Main.dbfile cfg)
  /\ db (Main.final r) = mk_connection (rows (db st)) [].
Proof.
  intros Hcl Hl Hc Hargs. cbv zeta.
  rewrite (main_script toupper W E rounds argv args cfg st Hcl).
  unfold Main.script. rewrite Hl, Hc.
  cbn [negb create_database_tables db_commit List.map].
  destruct args as [|arg rest].
  - cbn [Main.ended Main.actions Main.left Main.final db].
    rewrite <- !app_assoc. repeat split.
  - rewrite Hargs. cbn [Main.ended Main.actions Main.left Main.final db].
    rewrite <- !app_assoc. repeat split.
Qed.

Lemma database_is_opened_before_the_stations_are_read_witness :
  let r := Main.main latin1_toupper demo_world demo_environment 1
                     ["-v"; "-f"; "/var/lib/viva.db"]%string start in
  Main.ended r = Main.SysExit 1
  /\ Main.actions r
     = [Main.LogVerbosity INFO; Main.LogUsingDatabase "/var/lib/viva.db";
        Main.Connect "/var/lib/viva.db"; Main.Ev Commit;
        Main.Say Main.UsageNoStations]
  /\ Main.left r
     = Main.with_database (Main.isfile demo_environment) "/var/lib/viva.db"
  /\ db (Main.final r) = mk_connection [] [].
Proof.
  exact (database_is_opened_before_the_stations_are_read
           latin1_toupper demo_world demo_environment 1
           ["-v"; "-f"; "/var/lib/viva.db"]%string start
           (Main.mk_config "/tmp/vivad.pid" 1 None "/var/lib/viva.db" 60
                           (Main.mk_timedelta 1 0) false false)
           [] eq_refl eq_refl eq_refl I).
Defined.

(** X19.  In monitoring mode, started without a pid file, the pid file is
    written before the first round and is removed in one case only: when
    the loop is left by [KeyboardInterrupt], and then the script unlinks
    it, closes the database and ends.  In every other case (an exception
    out of a round, or the process stopped while polling) the pid file
    stays. *)
Theorem pid_file_is_removed_only_on_interrupt
        (toupper : N -> N) (W : world) (E : Main.environment) (rounds : nat)
        (argv : list string) (st : state) (cfg : Main.config)
        (arg : string) (rest : list string) (stations : list Z) :
  Main.command_line E argv = inr (cfg, arg :: rest) ->
  Main.do_list cfg = false ->
  Main.do_sync cfg = false ->
  Main.connects E (Main.dbfile cfg) = true ->
  Main.station_ids arg = Some stations ->
  Main.with_database (Main.isfile E) (Main.dbfile cfg) (Main.pidfile cfg)
  = false ->
  Main.pidfile_writable E = true ->
  let r := Main.main toupper W E rounds argv st in
  In (Main.WritePid (Main.pidfile cfg)) (Main.actions r)
  /\ (Main.ended r = Main.EndOfScript ->
      Main.left r (Main.pidfile cfg) = false
      /\ exists done,
          Main.actions r = done ++ [Main.Ev Unlink; Main.Ev DbClose])
  /\ (Main.ended r <> Main.EndOfScript ->
      Main.left r (Main.pidfile cfg) = true
      /\ (Main.ended r = Main.StillPolling
          \/ exists x, Main.ended r = Main.Uncaught (Main.Exn x)
                       /\ is_KeyboardInterrupt x = false)).
Proof.
  intros Hcl Hl Hs Hc Hids Hfresh Hw. cbv zeta.
  rewrite (main_script toupper W E rounds argv _ cfg st Hcl).
  rewrite (script_stations toupper W E rounds cfg arg rest stations st
                           Hl Hc Hids), Hs.
  apply poll_branch_fresh; assumption.
Qed.

Lemma pid_file_is_removed_only_on_interrupt_witness :
  let r := Main.main latin1_toupper interrupted_world demo_environment 1
                     ["33"%string] start in
  Main.left r "/tmp/vivad.pid"%string = false
  /\ exists done, Main.actions r = done ++ [Main.Ev Unlink; Main.Ev DbClose].
Proof.
  apply (pid_file_is_removed_only_on_interrupt
           latin1_toupper interrupted_world demo_environment 1
           ["33"%string] start
           (Main.mk_config "/tmp/vivad.pid" 0 None "vivad.db" 60
                           (Main.mk_timedelta 1 0) false false)
           "33" [] [33]);
    reflexivity.
Defined.

(** X20.  A pid file left behind blocks the next start.  When a
    monitoring run has ended other than by [KeyboardInterrupt], a later
    start with the same command line on the machine as it was left ends
    with exit status 1 after the message that the pid file exists: it
    requests nothing from the service, and the pid file is still
    there. *)
Theorem leftover_pid_file_blocks_the_next_start
        (toupper : N -> N) (W W' : world) (E E' : Main.environment)
        (rounds rounds' : nat) (argv : list string) (st st' : state)
        (cfg : Main.config) (arg : string) (rest : list string)
        (stations : list Z) :
  Main.command_line E argv = inr (cfg, arg :: rest) ->
  Main.do_list cfg = false ->
  Main.do_sync cfg = false ->
  Main.connects E (Main.dbfile cfg) = true ->
  Main.station_ids arg = Some stations ->
  Main.with_database (Main.isfile E) (Main.dbfile cfg) (Main.pidfile cfg)
  = false ->
  Main.pidfile_writable E = true ->
  let r := Main.main toupper W E rounds argv st in
  Main.ended r <> Main.EndOfScript ->
  Main.isfile E' (Main.pidfile cfg) = Main.left r (Main.pidfile cfg) ->
  Main.command_line E' argv = inr (cfg, arg :: rest) ->
  Main.connects E' (Main.dbfile cfg) = true ->
  let r' := Main.main toupper W' E' rounds' argv st' in
  Main.ended r' = Main.SysExit 1
  /\ forallb (fun a => negb (is_request a)) (Main.actions r') = true
  /\ Main.left r' (Main.pidfile cfg) = true
  /\ exists done,
      Main.actions r'
      = done ++ [Main.Say (Main.UsagePidfileExists (Main.pidfile cfg))].
Proof.
  intros Hcl Hl Hs Hc Hids Hfresh Hw r Hended Hleft Hcl' Hc' r'.
  assert (Hthere : Main.isfile E' (Main.pidfile cfg) = true).
  { rewrite Hleft. subst r.
    rewrite (main_script toupper W E rounds argv _ cfg st Hcl) in *.
    rewrite (script_stations toupper W E rounds cfg arg rest stations st
                             Hl Hc Hids), Hs in *.
    apply (poll_branch_fresh toupper W E rounds cfg stations _ _ _
                             Hfresh Hw).
    exact Hended. }
  subst r'.
  rewrite (main_script toupper W' E' rounds' argv _ cfg st' Hcl').
  rewrite (script_stations toupper W' E' rounds' cfg arg rest stations st'
                           Hl Hc' Hids), Hs.
  rewrite poll_branch_blocked by (apply with_database_keeps; exact Hthere).
  cbn [Main.ended Main.actions Main.left].
  split; [reflexivity|]. split; [|split].
  - rewrite !forallb_app, no_request_verbosity. reflexivity.
  - apply with_database_keeps. exact Hthere.
  - eexists. reflexivity.
Qed.

Lemma leftover_pid_file_blocks_the_next_start_witness :
  let r := Main.main latin1_toupper demo_world demo_environment 1
                     ["33,35"%string] start in
  let r' := Main.main latin1_toupper demo_world
                      (environment_with_files (Main.left r)) 1
                      ["33,35"%string] (Main.final r) in
  Main.ended r = Main.Uncaught (Main.Exn URLError)
  /\ Main.ended r' = Main.SysExit 1
  /\ forallb (fun a => negb (is_request a)) (Main.actions r') = true.
Proof.
  cbv zeta. split; [vm_compute; reflexivity|].
  refine (let H := leftover_pid_file_blocks_the_next_start
             latin1_toupper demo_world demo_world demo_environment
             (environment_with_files
                (Main.left (Main.main latin1_toupper demo_world
                                      demo_environment 1
                                      ["33,35"%string] start)))
             1 1 ["33,35"%string] start
             (Main.final (Main.main latin1_toupper demo_world
                                    demo_environment 1
                                    ["33,35"%string] start))
             (Main.mk_config "/tmp/vivad.pid" 0 None "vivad.db" 60
                             (Main.mk_timedelta 1 0) false false)
             "33,35" [] [33; 35]
             eq_refl eq_refl eq_refl eq_refl eq_refl eq_refl eq_refl
             _ _ _ _ in conj (proj1 H) (proj1 (proj2 H))).
  - vm_compute. discriminate.
  - vm_compute. reflexivity.
  - vm_compute. reflexivity.
  - reflexivity.
Defined.

(** X21.  The history sync takes no notice of the pid file: it neither
    tests for it nor writes it, so it runs beside a monitoring process and
    leaves the files as the database connection left them.  It never
    exits through [usage], and when it reaches the end of the script the
    last thing it has done is [db.close()]. *)
Theorem sync_mode_ignores_the_pid_file
        (toupper : N -> N) (W : world) (E : Main.environment) (rounds : nat)
        (argv : list string) (st : state) (cfg : Main.config)
        (arg : string) (rest : list string) (stations : list Z) :
  Main.command_line E argv = inr (cfg, arg :: rest) ->
  Main.do_list cfg = false ->
  Main.do_sync cfg = true ->
  Main.connects E (Main.dbfile cfg) = true ->
  Main.station_ids arg = Some stations ->
  let r := Main.main toupper W E rounds argv st in
  Main.left r = Main.with_database (Main.isfile E) (Main.dbfile cfg)
  /\ forallb (fun a => negb (writes_pid a)) (Main.actions r) = true
  /\ (forall status, Main.ended r <> Main.SysExit status)
  /\ (Main.ended r = Main.EndOfScript ->
      exists done, Main.actions r = done ++ [Main.Ev DbClose]).
Proof.
  intros Hcl Hl Hs Hc Hids. cbv zeta.
  rewrite (main_script toupper W E rounds argv _ cfg st Hcl).
  rewrite (script_stations toupper W E rounds cfg arg rest stations st
                           Hl Hc Hids), Hs.
  apply sync_branch_files.
  rewrite !forallb_app, no_pid_verbosity. reflexivity.
Qed.

Lemma sync_mode_ignores_the_pid_file_witness :
  let r := Main.main latin1_toupper demo_world
                     (environment_with_files
                        (fun p => String.eqb p "/tmp/vivad.pid")) 1
                     ["-s"; "-t"; "2D"; "33,34"]%string start in
  Main.left r
  = Main.with_database (fun p => String.eqb p "/tmp/vivad.pid") "vivad.db"
  /\ forallb (fun a => negb (writes_pid a)) (Main.actions r) = true
  /\ (forall status, Main.ended r <> Main.SysExit status)
  /\ (Main.ended r = Main.EndOfScript ->
      exists done, Main.actions r = done ++ [Main.Ev DbClose]).
Proof.
  exact (sync_mode_ignores_the_pid_file
           latin1_toupper demo_world
           (environment_with_files (fun p => String.eqb p "/tmp/vivad.pid"))
           1 ["-s"; "-t"; "2D"; "33,34"]%string start
           (Main.mk_config "/tmp/vivad.pid" 0 None "vivad.db" 60
                           (Main.mk_timedelta 2 0) false true)
           "33,34" [] [33; 34] eq_refl eq_refl eq_refl eq_refl eq_refl).
Defined.

Lemma events_in_app (a b : list Main.action) :
  events_in (a ++ b) = events_in a ++ events_in b.
Proof. apply flat_map_app. Qed.

Lemma events_in_events (t : list event) :
  events_in (List.map Main.Ev t) = t.
Proof.
  induction t as [|e t IH]; [reflexivity|].
  cbn [List.map events_in flat_map List.app]. f_equal. exact IH.
Qed.

Lemma events_in_verbosity (cfg : Main.config) :
  events_in (Main.verbosity cfg) = [].
Proof.
  unfold Main.verbosity.
  destruct (1 <? Main.verbose cfg)%nat; [reflexivity|].
  destruct (0 <? Main.verbose cfg)%nat; reflexivity.
Qed.

(** The sleeps of the monitoring branch are those of its rounds. *)
Lemma poll_branch_sleeps (toupper : N -> N) (W : world)
      (E : Main.environment) (rounds : nat) (cfg : Main.config)
      (stations : list Z) (before : list Main.action) (fs : Main.files)
      (st : state) (P : Q -> Prop) :
  sleeps_of (events_in before) = [] ->
  Forall P (sleeps_of
              (events_of
                 (poll_rounds toupper W rounds
                              (option_map Main.codes (Main.callback cfg))
                              (Main.pollrate cfg) stations st))) ->
  Forall P (sleeps_of
              (events_in
                 (Main.actions
                    (Main.poll_branch toupper W E rounds cfg stations
                                      before fs st)))).
Proof.
  intros Hb Hr. unfold Main.poll_branch.
  destruct (fs (Main.pidfile cfg)).
  { cbn [Main.actions]. rewrite !events_in_app, !sleeps_of_app, Hb.
    constructor. }
  destruct (negb (Main.pidfile_writable E)).
  { cbn [Main.actions]. rewrite !events_in_app, !sleeps_of_app, Hb.
    constructor. }
  unfold events_of in Hr.
  destruct (poll_rounds toupper W rounds _ _ _ st) as [[[[]|x] st'] t];
    cbn [snd] in Hr.
  - cbn [Main.actions].
    rewrite !events_in_app, events_in_events, !sleeps_of_app, Hb.
    exact Hr.
  - destruct (is_KeyboardInterrupt x); cbn [Main.actions];
      rewrite !events_in_app, events_in_events, !sleeps_of_app, Hb;
      cbn [events_in flat_map sleeps_of List.app];
      rewrite ?app_nil_r; exact Hr.
Qed.

(** X22.  A poll rate that is not positive is taken as it is (the value
    of [-p] is any integer), and the monitoring loop then never pauses:
    on a clock that does not go back, every [time.sleep] of the run is a
    sleep of zero seconds, and with a negative rate there is none. *)
Theorem poll_rate_that_is_not_positive_never_pauses
        (toupper : N -> N) (W : world) (E : Main.environment) (rounds : nat)
        (argv : list string) (st : state) (cfg : Main.config)
        (arg : string) (rest : list string) (stations : list Z) :
  Main.command_line E argv = inr (cfg, arg :: rest) ->
  Main.do_list cfg = false ->
  Main.do_sync cfg = false ->
  Main.connects E (Main.dbfile cfg) = true ->
  Main.station_ids arg = Some stations ->
  monotone_clock W ->
  Main.pollrate cfg <= 0 ->
  let r := Main.main toupper W E rounds argv st in
  Forall (fun seconds => (seconds == 0)%Q /\ Main.pollrate cfg = 0)
         (sleeps_of (events_in (Main.actions r))).
Proof.
  intros Hcl Hl Hs Hc Hids Hclock Hrate. cbv zeta.
  rewrite (main_script toupper W E rounds argv _ cfg st Hcl).
  rewrite (script_stations toupper W E rounds cfg arg rest stations st
                           Hl Hc Hids), Hs.
  apply poll_branch_sleeps.
  - rewrite !events_in_app, events_in_verbosity. reflexivity.
  - eapply Forall_impl; [|apply poll_rounds_sleeps].
    intros seconds [Hlow Hhigh]. specialize (Hhigh Hclock).
    assert (Hz : (inject_Z (Main.pollrate cfg) <= 0)%Q).
    { change 0%Q with (inject_Z 0). rewrite <- Zle_Qle. exact Hrate. }
    split.
    + apply Qle_antisym; [|exact Hlow].
      apply (Qle_trans _ _ _ Hhigh Hz).
    + pose proof (Qle_trans _ _ _ Hlow Hhigh) as Hpos.
      change 0%Q with (inject_Z 0) in Hpos. rewrite <- Zle_Qle in Hpos.
      lia.
Qed.

Lemma poll_rate_that_is_not_positive_never_pauses_witness :
  let r := Main.main latin1_toupper demo_world demo_environment 3
                     ["-p"; "-5"; "33,34"]%string start in
  Main.ended r = Main.StillPolling
  /\ Forall (fun seconds => (seconds == 0)%Q /\ -5 = 0)
            (sleeps_of (events_in (Main.actions r))).
Proof.
  cbv zeta. split; [vm_compute; reflexivity|].
  apply (poll_rate_that_is_not_positive_never_pauses
           latin1_toupper demo_world demo_environment 3
           ["-p"; "-5"; "33,34"]%string start
           (Main.mk_config "/tmp/vivad.pid" 0 None "vivad.db" (-5)
                           (Main.mk_timedelta 1 0) false false)
           "33,34" [] [33; 34]);
    try reflexivity.
  - exact demo_clock_monotone.
  - discriminate.
Defined.

Ltac by_option H o :=
  repeat match type of H with
         | (if String.eqb o ?x then _ else _) = _ =>
           destruct (String.eqb_spec o x) as [->|_]
         end;
  repeat match type of H with
         | match ?x with _ => _ end = _ => destruct x; try discriminate H
         end.

Lemma set_option_effect (E : Main.environment) (cfg cfg' : Main.config)
      (o a : string) :
  Main.set_option E cfg o a = inr cfg' ->
  Main.verbose cfg'
  = (Main.verbose cfg + if String.eqb o "-v" then 1 else 0)%nat
  /\ Main.do_list cfg' = Main.do_list cfg || String.eqb o "-l"
  /\ Main.do_sync cfg' = Main.do_sync cfg || String.eqb o "-s"
  /\ Main.dbfile cfg' = (if String.eqb o "-f" then a else Main.dbfile cfg)
  /\ Main.pidfile cfg' = (if String.eqb o "-i" then a else Main.pidfile cfg)
  /\ (String.eqb o "-p" = false -> Main.pollrate cfg' = Main.pollrate cfg)
  /\ (String.eqb o "-c" = false -> Main.callback cfg' = Main.callback cfg)
  /\ (String.eqb o "-t" = false -> Main.timespan cfg' = Main.timespan cfg).
Proof.
  destruct cfg as [pidfile verbose callback dbfile pollrate timespan
                   do_list do_sync].
  unfold Main.set_option. intros H.
  by_option H o; injection H as <-;
    cbn [Main.verbose Main.do_list Main.do_sync Main.dbfile Main.pidfile
         Main.pollrate Main.callback Main.timespan];
    repeat match goal with
           | |- context [String.eqb ?x ?y] =>
             let b := eval vm_compute in (String.eqb x y) in
             change (String.eqb x y) with b
           end;
    rewrite ?orb_false_r, ?orb_true_r, ?Nat.add_0_r;
    repeat split; try reflexivity; try discriminate.
Qed.

Lemma set_options_effect (E : Main.environment)
      (opts : list (string * string)) :
  forall cfg cfg',
  Main.set_options E cfg opts = inr cfg' ->
  Main.verbose cfg' = (Main.verbose cfg + times_given "-v" opts)%nat
  /\ Main.do_list cfg' = Main.do_list cfg || given "-l" opts
  /\ Main.do_sync cfg' = Main.do_sync cfg || given "-s" opts
  /\ Main.dbfile cfg' = last_value "-f" (Main.dbfile cfg) opts
  /\ Main.pidfile cfg' = last_value "-i" (Main.pidfile cfg) opts
  /\ (given "-p" opts = false -> Main.pollrate cfg' = Main.pollrate cfg)
  /\ (given "-c" opts = false -> Main.callback cfg' = Main.callback cfg)
  /\ (given "-t" opts = false -> Main.timespan cfg' = Main.timespan cfg).
Proof.
  induction opts as [|[o a] opts IH]; intros cfg cfg' H.
  - injection H as <-. unfold times_given, given, last_value.
    cbn [List.filter List.length existsb fold_left].
    rewrite Nat.add_0_r, !orb_false_r. repeat split; reflexivity.
  - cbn [Main.set_options] in H.
    destruct (Main.set_option E cfg o a) as [stop|cfg1] eqn:H1;
      [discriminate|].
    destruct (set_option_effect _ _ _ _ _ H1)
      as (Hv & Hl & Hs & Hf & Hi & Hp & Hc & Ht).
    destruct (IH _ _ H) as (Hv' & Hl' & Hs' & Hf' & Hi' & Hp' & Hc' & Ht').
    unfold times_given, given, last_value in *.
    cbn [List.filter existsb fold_left fst snd].
    rewrite Hv', Hl', Hs', Hf', Hi', Hv, Hl, Hs, Hf, Hi.
    rewrite !orb_assoc.
    split; [destruct (String.eqb o "-v"); cbn [List.length]; lia|].
    repeat (split; [reflexivity|]).
    split; [|split].
    + intros Hn. apply orb_false_iff in Hn. destruct Hn as [Hn1 Hn2].
      rewrite (Hp' Hn2). exact (Hp Hn1).
    + intros Hn. apply orb_false_iff in Hn. destruct Hn as [Hn1 Hn2].
      rewrite (Hc' Hn2). exact (Hc Hn1).
    + intros Hn. apply orb_false_iff in Hn. destruct Hn as [Hn1 Hn2].
      rewrite (Ht' Hn2). exact (Ht Hn1).
Qed.

(** X23.  How the settings follow the options, when all of them are
    accepted: [-v] counts, [-l] and [-s] are flags, of several [-f] or
    [-i] the last one holds, and an option that is not given leaves its
    default (database vivad.db, pid file /tmp/vivad.pid, poll rate 60, no
    callback, one day of history).  The options [-a] and [-r], which are
    accepted with a value, change nothing. *)
Theorem settings_follow_the_options
        (E : Main.environment) (opts : list (string * string))
        (cfg : Main.config) :
  Main.set_options E Main.defaults opts = inr cfg ->
  Main.verbose cfg = times_given "-v" opts
  /\ Main.do_list cfg = given "-l" opts
  /\ Main.do_sync cfg = given "-s" opts
  /\ Main.dbfile cfg = last_value "-f" "vivad.db" opts
  /\ Main.pidfile cfg = last_value "-i" "/tmp/vivad.pid" opts
  /\ (given "-p" opts = false -> Main.pollrate cfg = 60)
  /\ (given "-c" opts = false -> Main.callback cfg = None)
  /\ (given "-t" opts = false
      -> Main.timespan cfg = Main.mk_timedelta 1 0).
Proof.
  intros H. exact (set_options_effect E opts Main.defaults cfg H).
Qed.

Lemma settings_follow_the_options_witness :
  exists cfg,
    Main.command_line demo_environment
      ["-v"; "-f"; "a.db"; "-a"; "x"; "-vf"; "b.db"; "-r"; "y"; "33"]%string
    = inr (cfg, ["33"%string])
    /\ Main.verbose cfg = 2%nat
    /\ Main.dbfile cfg = "b.db"%string
    /\ Main.pollrate cfg = 60.
Proof.
  eexists. split; [reflexivity|].
  pose proof (settings_follow_the_options
                demo_environment
                [("-v", ""); ("-f", "a.db"); ("-a", "x"); ("-v", "");
                 ("-f", "b.db"); ("-r", "y")]%string
                _ eq_refl) as (Hv & _ & _ & Hf & _ & Hp & _).
  split; [exact Hv|]. split; [exact Hf|]. exact (Hp eq_refl).
Defined.

Lemma parse_timespan_stop (a : string) (stop : Main.ending)
      (said : list Main.message) :
  Main.parse_timespan a = inl (stop, said) -> option_error stop.
Proof.
  unfold Main.parse_timespan, option_error. intros H.
  repeat match type of H with
         | match ?x with _ => _ end = _ => destruct x
         | (let made := ?x in _) = _ => cbv zeta in H
         end;
    try discriminate H; injection H as <- <-; auto.
Qed.

Lemma set_option_stop (E : Main.environment) (cfg : Main.config)
      (o a : string) (stop : Main.ending) (said : list Main.message) :
  Main.set_option E cfg o a = inl (stop, said) -> option_error stop.
Proof.
  destruct cfg as [pidfile verbose callback dbfile pollrate timespan
                   do_list do_sync].
  unfold Main.set_option. intros H.
  repeat match type of H with
         | (if String.eqb o ?x then _ else _) = _ =>
           destruct (String.eqb o x)
         end; try discriminate H.
  - destruct (Main.int a); [discriminate H|].
    injection H as <- <-. unfold option_error. auto.
  - destruct (Main.parse_timespan a) as [[stop' said']|t] eqn:Ht;
      [|discriminate H].
    injection H as <- <-. exact (parse_timespan_stop _ _ _ Ht).
  - destruct (negb (Main.isfile E a)).
    + injection H as <- <-. unfold option_error. auto.
    + destruct (negb (Main.access_X_OK E a)); [|discriminate H].
      injection H as <- <-. unfold option_error. auto.
Qed.

Lemma set_options_stop (E : Main.environment)
      (opts : list (string * string)) :
  forall cfg stop said,
  Main.set_options E cfg opts = inl (stop, said) -> option_error stop.
Proof.
  induction opts as [|[o a] opts IH]; intros cfg stop said H;
    cbn [Main.set_options] in H; [discriminate H|].
  destruct (Main.set_option E cfg o a) as [[stop' said']|cfg1] eqn:H1.
  - injection H as <- <-. exact (set_option_stop _ _ _ _ _ _ H1).
  - exact (IH _ _ _ H).
Qed.

(** X24.  A command line whose options are refused touches nothing: the
    script ends with exit status 1 after its message, or in an uncaught
    [ValueError], [IndexError] or [OverflowError], before the database is
    opened, the service is asked or the pid file is looked at. *)
Theorem refused_options_touch_nothing
        (toupper : N -> N) (W : world) (E : Main.environment) (rounds : nat)
        (argv : list string) (st : state)
        (stop : Main.ending) (said : list Main.message) :
  Main.command_line E argv = inl (stop, said) ->
  let r := Main.main toupper W E rounds argv st in
  option_error stop
  /\ Main.ended r = stop
  /\ Main.final r = st
  /\ Main.left r = Main.isfile E
  /\ Main.actions r = List.map Main.Say said.
Proof.
  intros H. cbv zeta. unfold Main.main. rewrite H.
  split; [|repeat split].
  unfold Main.command_line in H.
  destruct (Main.getopt argv Main.shortopts) as [e|[opts args]].
  - injection H as <- <-. left. reflexivity.
  - destruct (Main.set_options E Main.defaults opts)
      as [[stop' said']|cfg] eqn:Hs; [|discriminate H].
    injection H as <- <-. exact (set_options_stop _ _ _ _ _ Hs).
Qed.

Lemma refused_options_touch_nothing_witness :
  let r := Main.main latin1_toupper demo_world demo_environment 1
                     ["-p"; "fast"; "33"]%string start in
  option_error (Main.Uncaught (Main.Exn ValueError))
  /\ Main.ended r = Main.Uncaught (Main.Exn ValueError)
  /\ Main.final r = start
  /\ Main.left r = Main.isfile demo_environment
  /\ Main.actions r = [].
Proof.
  exact (refused_options_touch_nothing
           latin1_toupper demo_world demo_environment 1
           ["-p"; "fast"; "33"]%string start
           (Main.Uncaught (Main.Exn ValueError)) [] eq_refl).
Defined.

(** X25.  The history sync needs a window that the library can write
    down.  When today minus the time span is not a date (before year 1),
    the sync ends in an uncaught [OverflowError]; when it is a date before
    1900, [strftime] refuses it and the sync ends in an uncaught
    [ValueError] at the first station.  In both cases the database has
    been opened, nothing is requested from the service and nothing is
    stored. *)
Theorem sync_window_before_1900_requests_nothing
        (toupper : N -> N) (W : world) (E : Main.environment) (rounds : nat)
        (argv : list string) (st : state) (cfg : Main.config)
        (arg : string) (rest : list string) (stations : list Z) :
  Main.command_line E argv = inr (cfg, arg :: rest) ->
  Main.do_list cfg = false ->
  Main.do_sync cfg = true ->
  Main.connects E (Main.dbfile cfg) = true ->
  Main.station_ids arg = Some stations ->
  match Main.datetime_sub (Main.today E) (Main.timespan cfg) with
  | None => True
  | Some t_from => year t_from < 1900
  end ->
  let r := Main.main toupper W E rounds argv st in
  Main.ended r
  = match Main.datetime_sub (Main.today E) (Main.timespan cfg) with
    | None => Main.Uncaught Main.OverflowError
    | Some _ => Main.Uncaught (Main.Exn ValueError)
    end
  /\ forallb (fun a => negb (is_request a)) (Main.actions r) = true
  /\ In (Main.Connect (Main.dbfile cfg)) (Main.actions r)
  /\ db (Main.final r) = mk_connection (rows (db st)) [].
Proof.
  intros Hcl Hl Hs Hc Hids Hwin. cbv zeta.
  rewrite (main_script toupper W E rounds argv _ cfg st Hcl).
  rewrite (script_stations toupper W E rounds cfg arg rest stations st
                           Hl Hc Hids), Hs.
  assert (Hne : stations <> []).
  { unfold Main.station_ids in Hids. intros ->.
    pose proof (split_not_nil "," arg) as Hsplit.
    destruct (Main.split "," arg) as [|x fields]; [contradiction|].
    cbn [Main.ints] in Hids. destruct (Main.int x); [|discriminate].
    destruct (Main.ints fields); discriminate. }
  unfold Main.sync_branch.
  destruct (Main.datetime_sub (Main.today E) (Main.timespan cfg))
    as [t_from|].
  - destruct stations as [|station_id stations]; [contradiction|].
    assert (Hold : Main.strftime_ok t_from = false).
    { unfold Main.strftime_ok. apply Z.leb_gt. exact Hwin. }
    rewrite Hold. cbn [andb Main.ended Main.actions Main.final db].
    split; [reflexivity|]. split; [|split; [|reflexivity]].
    + rewrite !forallb_app, no_request_verbosity. reflexivity.
    + apply in_or_app. left. apply in_or_app. left. apply in_or_app.
      right. left. reflexivity.
  - cbn [Main.ended Main.actions Main.final db].
    split; [reflexivity|]. split; [|split; [|reflexivity]].
    + rewrite !forallb_app, no_request_verbosity. reflexivity.
    + apply in_or_app. left. apply in_or_app. left. apply in_or_app.
      right. left. reflexivity.
Qed.

Lemma sync_window_before_1900_requests_nothing_witness :
  let r := Main.main latin1_toupper demo_world demo_environment 1
                     ["-s"; "-t"; "50000D"; "33"]%string start in
  Main.ended r = Main.Uncaught (Main.Exn ValueError)
  /\ forallb (fun a => negb (is_request a)) (Main.actions r) = true
  /\ In (Main.Connect "vivad.db") (Main.actions r)
  /\ db (Main.final r) = mk_connection [] [].
Proof.
  apply (sync_window_before_1900_requests_nothing
           latin1_toupper demo_world demo_environment 1
           ["-s"; "-t"; "50000D"; "33"]%string start
           (Main.mk_config "/tmp/vivad.pid" 0 None "vivad.db" 60
                           (Main.mk_timedelta 50000 0) false true)
           "33" [] [33]);
    reflexivity.
Defined.

(** ** What the whole program keeps *)

Section Invariant.

Variable R : connection -> connection -> Prop.
Hypothesis R_refl : forall c, R c c.
Hypothesis R_trans : forall a b c, R a b -> R b c -> R a c.
Hypothesis R_insert : forall r c, R c (insert_or_ignore r c).
Hypothesis R_commit : forall c, R c (mk_connection (rows c) []).
Hypothesis R_rollback : forall c, R c (mk_connection (committed c) []).

Variable toupper : N -> N.
Variable W : world.

Lemma keeps_bind {A B : Type} (m : M A) (k : A -> M B) :
  keeps R m -> (forall a, keeps R (k a)) -> keeps R (bind m k).
Proof.
  intros Hm Hk st. unfold bind, state_of. specialize (Hm st).
  unfold state_of in Hm.
  destruct (m st) as [[[a|x] st1] t1]; cbn [fst snd] in *; [|exact Hm].
  specialize (Hk a st1). unfold state_of in Hk.
  destruct (k a st1) as [[r st2] t2]; cbn [fst snd] in *.
  exact (R_trans _ _ _ Hm Hk).
Qed.

Lemma keeps_same {A : Type} (m : M A) :
  (forall st, db (state_of (m st)) = db st) -> keeps R m.
Proof. intros H st. rewrite H. apply R_refl. Qed.

Lemma keeps_ret {A : Type} (a : A) : keeps R (ret a).
Proof. apply keeps_same. reflexivity. Qed.

Lemma keeps_raise {A : Type} (x : exn) : keeps R (@raise A x).
Proof. apply keeps_same. reflexivity. Qed.

Lemma keeps_emit (e : event) : keeps R (emit e).
Proof. apply keeps_same. reflexivity. Qed.

Lemma keeps_emit_all (t : list event) : keeps R (emit_all t).
Proof. apply keeps_same. reflexivity. Qed.

Lemma keeps_try_except {A : Type} (m : M A) handled (h : exn -> M A) :
  keeps R m -> (forall x, keeps R (h x)) -> keeps R (try_except m handled h).
Proof.
  intros Hm Hh st. unfold try_except, state_of. specialize (Hm st).
  unfold state_of in Hm.
  destruct (m st) as [[[a|x] st1] t1]; cbn [fst snd] in *; [exact Hm|].
  destruct (handled x); [|exact Hm].
  specialize (Hh x st1). unfold state_of in Hh.
  destruct (h x st1) as [[r st2] t2]; cbn [fst snd] in *.
  exact (R_trans _ _ _ Hm Hh).
Qed.

Lemma keeps_for_each {A : Type} (l : list A) (body : A -> M unit) :
  (forall x, keeps R (body x)) -> keeps R (for_each l body).
Proof.
  intros Hb. induction l as [|x rest IH]; cbn [for_each].
  - apply keeps_ret.
  - apply keeps_bind; [apply Hb|intros _; exact IH].
Qed.

Lemma keeps_get_upper (e : element) (name : string) :
  keeps R (get_upper toupper e name).
Proof.
  unfold get_upper. destruct (elem_get e name);
    [apply keeps_ret|apply keeps_raise].
Qed.

Lemma keeps_get_tid (e : element) : keeps R (get_tid e).
Proof.
  unfold get_tid. destruct (elem_get e "Tid") as [v|];
    [|apply keeps_raise].
  destruct (strptime v); [apply keeps_ret|apply keeps_raise].
Qed.

Lemma keeps_latest_loop sid name elements :
  forall samples, keeps R (latest_loop toupper W sid name elements samples).
Proof.
  induction elements as [|e rest IH]; intros samples; cbn [latest_loop].
  - apply keeps_ret.
  - apply keeps_bind; [apply keeps_get_upper|]. intros sample_type.
    apply keeps_bind; [apply keeps_get_tid|]. intros ts.
    unfold create_sample.
    destruct (SAMPLE_LUT (sample_type, elem_get e "Enhet"));
      (apply keeps_bind; [apply keeps_emit_all|intros _; apply IH]).
Qed.

Lemma keeps_history_loop sid elements :
  forall samples, keeps R (history_loop toupper W sid elements samples).
Proof.
  induction elements as [|e rest IH]; intros samples; cbn [history_loop].
  - apply keeps_ret.
  - apply keeps_bind; [apply keeps_get_upper|]. intros sample_type.
    apply keeps_bind; [apply keeps_get_tid|]. intros ts.
    unfold create_sample.
    destruct (SAMPLE_LUT (sample_type, elem_get e "Enhet"));
      (apply keeps_bind; [apply keeps_emit_all|intros _; apply IH]).
Qed.

Lemma keeps_fetch_station_latest sid :
  keeps R (fetch_station_latest toupper W sid).
Proof.
  unfold fetch_station_latest. apply keeps_bind.
  { apply keeps_same. intros st. unfold request_latest.
    destruct (get_latest W (tick st) sid); reflexivity. }
  intros tree. apply keeps_bind; [apply keeps_emit|].
  intros _. destruct (xp_errormsg tree).
  - destruct (xp_name tree) as [|name ?].
    + apply keeps_bind; [apply keeps_emit|intros _; apply keeps_ret].
    + destruct (xp_samples tree) as [|e rest].
      * apply keeps_bind; [apply keeps_emit|intros _; apply keeps_ret].
      * apply keeps_bind; [apply keeps_emit|].
        intros _. apply keeps_bind; [apply keeps_latest_loop|].
        intros samples. apply keeps_ret.
  - apply keeps_bind; [apply keeps_emit|intros _; apply keeps_ret].
Qed.

Lemma keeps_fetch_station_history sid :
  keeps R (fetch_station_history toupper W sid).
Proof.
  unfold fetch_station_history. apply keeps_bind.
  { apply keeps_same. intros st. unfold request_history.
    destruct (get_history W (tick st) sid); reflexivity. }
  intros tree. apply keeps_bind; [apply keeps_emit|].
  intros _. apply keeps_bind; [apply keeps_history_loop|].
  intros samples. apply keeps_bind; [apply keeps_emit|].
  intros _. apply keeps_ret.
Qed.

Lemma keeps_db_commit : keeps R db_commit.
Proof. intros st. apply R_commit. Qed.

Lemma keeps_db_rollback : keeps R db_rollback.
Proof. intros st. apply R_rollback. Qed.

Lemma keeps_execute_insert (parameters : row) :
  keeps R (execute_insert W parameters).
Proof.
  intros st. unfold execute_insert.
  destruct (cursor_execute W (tick st) parameters);
    cbn [state_of fst snd db advance]; [apply R_insert| |]; apply R_refl.
Qed.

Lemma keeps_store_single_sample sample :
  keeps R (store_single_sample W sample).
Proof.
  unfold store_single_sample.
  apply keeps_bind; [apply keeps_emit|]. intros _.
  apply keeps_bind; [apply keeps_same; reflexivity|]. intros now.
  apply keeps_bind.
  { unfold sample_timegm.
    destruct (timegm (utctimetuple (ststamp sample)));
      [apply keeps_ret|apply keeps_raise]. }
  intros seconds. apply keeps_bind; [apply keeps_execute_insert|].
  intros success. apply keeps_bind; [|intros _; apply keeps_ret].
  destruct success; [apply keeps_ret|apply keeps_emit].
Qed.

Lemma keeps_store_samples samples : keeps R (store_samples W samples).
Proof.
  induction samples as [|sample rest IH]; cbn [store_samples].
  - apply keeps_bind; [apply keeps_db_commit|intros _; apply keeps_ret].
  - apply keeps_bind; [apply keeps_store_single_sample|].
    intros [|]; [exact IH|].
    apply keeps_bind; [apply keeps_db_rollback|intros _; apply keeps_ret].
Qed.

Lemma keeps_run_callback callback instance :
  keeps R (run_callback W callback instance).
Proof.
  unfold run_callback. destruct callback as [cb|]; [|apply keeps_ret].
  apply keeps_try_except.
  - apply keeps_bind.
    + apply keeps_same. intros st. unfold call.
      match goal with
      | |- context [subprocess_call W ?n ?a] =>
        destruct (subprocess_call W n a)
      end; reflexivity.
    + intros retcode. destruct (retcode =? 0);
        [apply keeps_ret|apply keeps_emit].
  - intros x. apply keeps_emit.
Qed.

Lemma keeps_store_and_notify callback samples :
  keeps R (store_and_notify W callback samples).
Proof.
  unfold store_and_notify.
  destruct samples as [|[|first others]]; try apply keeps_ret.
  apply keeps_bind; [apply keeps_store_samples|].
  intros [|]; [apply keeps_run_callback|apply keeps_ret].
Qed.

Lemma keeps_poll_stations callback stations :
  keeps R (poll_stations toupper W callback stations).
Proof.
  unfold poll_stations. apply keeps_for_each. intros sid.
  apply keeps_bind; [apply keeps_fetch_station_latest|].
  intros samples. apply keeps_store_and_notify.
Qed.

Lemma keeps_sync_stations callback stations :
  keeps R (sync_stations toupper W callback stations).
Proof.
  unfold sync_stations. apply keeps_for_each. intros sid.
  apply keeps_bind; [apply keeps_fetch_station_history|].
  intros samples. apply keeps_store_and_notify.
Qed.

Lemma keeps_poll_round callback pollrate stations :
  keeps R (poll_round toupper W callback pollrate stations).
Proof.
  unfold poll_round.
  apply keeps_bind; [apply keeps_same; reflexivity|]. intros t0.
  apply keeps_bind; [apply keeps_poll_stations|]. intros _.
  apply keeps_bind; [apply keeps_same; reflexivity|]. intros t1.
  unfold end_of_round. destruct (Qlt_le_dec _ _); [apply keeps_emit|].
  apply keeps_bind; [apply keeps_emit|]. intros _.
  apply keeps_same. intros st. unfold sleep.
  destruct (sleep_interrupted W (tick st)); reflexivity.
Qed.

Lemma keeps_poll_rounds rounds callback pollrate stations :
  keeps R (poll_rounds toupper W rounds callback pollrate stations).
Proof.
  induction rounds as [|rounds IH]; cbn [poll_rounds].
  - apply keeps_ret.
  - apply keeps_bind; [apply keeps_poll_round|intros _; exact IH].
Qed.

(** The whole script moves the connection along [R]. *)
Lemma main_keeps (E : Main.environment) (rounds : nat)
      (argv : list string) (st : state) :
  R (db st) (db (Main.final (Main.main toupper W E rounds argv st))).
Proof.
  unfold Main.main.
  destruct (Main.command_line E argv) as [[stop said]|[cfg args]];
    [apply R_refl|].
  unfold Main.script.
  destruct (Main.do_list cfg).
  { unfold Main.list_branch.
    destruct (Main.get_points E); [|apply R_refl].
    destruct (Main.print_station_list _ _). apply R_refl. }
  destruct (negb (Main.connects E (Main.dbfile cfg))); [apply R_refl|].
  pose proof (keeps_db_commit st) as Hc.
  unfold create_database_tables. unfold state_of in Hc.
  destruct (db_commit st) as [[r0 st0] t0]; cbn [fst snd] in Hc.
  destruct args as [|arg rest]; [exact Hc|].
  destruct (Main.station_ids arg) as [stations|]; [|exact Hc].
  apply (R_trans _ _ _ Hc).
  destruct (Main.do_sync cfg).
  - unfold Main.sync_branch.
    destruct (Main.datetime_sub _ _); [|apply R_refl].
    destruct stations as [|sid stations]; [apply R_refl|].
    destruct (Main.strftime_ok _ && Main.strftime_ok _); [|apply R_refl].
    pose proof (keeps_sync_stations
                  (option_map Main.codes (Main.callback cfg))
                  (sid :: stations) st0) as Hs.
    unfold state_of in Hs.
    destruct (sync_stations toupper W _ _ st0) as [[[[]|x] st'] t];
      exact Hs.
  - unfold Main.poll_branch.
    destruct (Main.with_database _ _ _); [apply R_refl|].
    destruct (negb (Main.pidfile_writable E)); [apply R_refl|].
    pose proof (keeps_poll_rounds
                  rounds (option_map Main.codes (Main.callback cfg))
                  (Main.pollrate cfg) stations st0) as Hp.
    unfold state_of in Hp.
    destruct (poll_rounds toupper W rounds _ _ _ st0) as [[[[]|x] st'] t];
      [exact Hp|].
    destruct (is_KeyboardInterrupt x); exact Hp.
Qed.

End Invariant.

Lemma grows_refl (c : connection) : grows c c.
Proof. exists []. rewrite app_nil_r. reflexivity. Qed.

Lemma grows_trans (a b c : connection) : grows a b -> grows b c -> grows a c.
Proof.
  intros [m1 H1] [m2 H2]. exists (m1 ++ m2).
  rewrite H2, H1, app_assoc. reflexivity.
Qed.

Lemma grows_insert (r : row) (c : connection) :
  grows c (insert_or_ignore r c).
Proof.
  exists []. rewrite insert_or_ignore_committed, app_nil_r. reflexivity.
Qed.

Lemma grows_commit (c : connection) : grows c (mk_connection (rows c) []).
Proof. exists (pending c). reflexivity. Qed.

Lemma grows_rollback (c : connection) :
  grows c (mk_connection (committed c) []).
Proof. apply (grows_refl (mk_connection (committed c) [])). Qed.

Lemma stays_distinct_rollback (c : connection) :
  stays_distinct c (mk_connection (committed c) []).
Proof.
  unfold stays_distinct, rows. cbn [committed pending].
  rewrite app_nil_r. apply distinct_keys_prefix.
Qed.

Lemma stays_distinct_commit (c : connection) :
  stays_distinct c (mk_connection (rows c) []).
Proof.
  unfold stays_distinct. unfold rows at 2. cbn [committed pending].
  rewrite app_nil_r. auto.
Qed.

(** X26.  The program never loses a committed row.  Whatever the command
    line, the machine, the service and the store do, and however the run
    ends, the rows committed when it ends start with the rows that were
    committed when it began, in their order and unchanged. *)
Theorem committed_rows_are_never_lost
        (toupper : N -> N) (W : world) (E : Main.environment) (rounds : nat)
        (argv : list string) (st : state) :
  exists more,
    committed (db (Main.final (Main.main toupper W E rounds argv st)))
    = committed (db st) ++ more.
Proof.
  exact (main_keeps grows grows_refl grows_trans grows_insert grows_commit
                    grows_rollback toupper W E rounds argv st).
Qed.

(** X27.  The program keeps the keys of the table distinct: if no two
    rows that the connection sees share (station_id, sample_tstamp,
    sample_type) when the script starts, none do when it ends, in every
    mode and however the run ends. *)
Theorem keys_stay_distinct_through_the_run
        (toupper : N -> N) (W : world) (E : Main.environment) (rounds : nat)
        (argv : list string) (st : state) :
  distinct_keys (rows (db st)) = true ->
  distinct_keys
    (rows (db (Main.final (Main.main toupper W E rounds argv st)))) = true.
Proof.
  apply (main_keeps stays_distinct).
  - intros c H. exact H.
  - intros a b c Hab Hbc H. exact (Hbc (Hab H)).
  - intros r c. exact (insert_or_ignore_distinct r c).
  - exact stays_distinct_commit.
  - exact stays_distinct_rollback.
Qed.

Lemma keys_stay_distinct_through_the_run_witness :
  distinct_keys
    (rows (db (Main.final
                 (Main.main latin1_toupper failing_world demo_environment 2
                            ["-v"; "33,34"]%string stored_once)))) = true.
Proof.
  apply (keys_stay_distinct_through_the_run
           latin1_toupper failing_world demo_environment 2
           ["-v"; "33,34"]%string stored_once).
  vm_compute. reflexivity.
Defined.

(** ** The time stamp, from the response to the row *)








(** The hour is the zone object's, not the code's: with a pytz whose CET
    is a link to Europe/Brussels the same poll stores the instants 42
    minutes later. *)
Example another_pytz_stores_another_instant :
  List.map r_sample_tstamp
    (executes_of
       (events_of (poll_stations latin1_toupper brussels_world None [33]
                                 start)))
  = [1398937320; 1398937320]
  /\ List.map r_sample_tstamp
       (executes_of
          (events_of (poll_stations latin1_toupper demo_world None [33]
                                    start)))
     = [1398934800; 1398934800].
Proof. split; vm_compute; reflexivity. Qed.
